(** * Video platform backend: controllers over a document store

    A shallow embedding of the like, video, comment and subscription
    controllers.  Each controller is a request handler: a sequence of
    validations that may [throw] an [ApiError], queries and updates on
    the collections of the document database, calls to the media store,
    and a final response.  Handlers are written in a state-and-exception
    monad over the [World] (the four collections, the media store's call
    log and the temp-file directory); a thrown error does not roll the
    world back, exactly as the non-transactional source behaves. *)

From Stdlib Require Import List String Ascii ZArith Bool Arith Lia.
Import ListNotations.
Open Scope string_scope.
Open Scope list_scope.
Open Scope nat_scope.

Set Implicit Arguments.

(* ================================================================== *)
(** ** JavaScript values that the controllers test for truthiness *)

(** A request field that may be [undefined].  A string is represented
    by the bytes of its UTF-8 encoding. *)
Definition jsString := option string.

(** [!s] on a possibly-undefined string: both [undefined] and the empty
    string are falsy. *)
Definition falsy (s : jsString) : bool :=
  match s with
  | None => true
  | Some s => String.eqb s ""
  end.

Definition truthy (s : jsString) : bool := negb (falsy s).

(* ================================================================== *)
(** ** ObjectId: 12 bytes, written as 24 hexadecimal digits *)

Module ObjectId.

(** An ObjectId is represented by its canonical spelling, the
    lower-case hexadecimal string that [toString] prints. *)
Definition t := string.

Definition eqb (a b : t) : bool := String.eqb a b.

Definition isDigit (c : ascii) : bool :=
  let n := nat_of_ascii c in (48 <=? n) && (n <=? 57).
Definition isLowerHex (c : ascii) : bool :=
  let n := nat_of_ascii c in (97 <=? n) && (n <=? 102).
Definition isUpperHex (c : ascii) : bool :=
  let n := nat_of_ascii c in (65 <=? n) && (n <=? 70).

Definition isHexDigit (c : ascii) : bool :=
  isDigit c || isLowerHex c || isUpperHex c.

Definition toLower (c : ascii) : ascii :=
  if isUpperHex c then ascii_of_nat (nat_of_ascii c + 32) else c.

Fixpoint allHex (s : string) : bool :=
  match s with
  | EmptyString => true
  | String c r => isHexDigit c && allHex r
  end.

Fixpoint lower (s : string) : string :=
  match s with
  | EmptyString => EmptyString
  | String c r => String (toLower c) (lower r)
  end.

(** [mongoose.Types.ObjectId.isValid]: a string of 24 hexadecimal
    digits, in either case; [undefined] is not valid.  (Other shapes
    that some versions of the driver accept, such as 12-character
    strings, are not modelled.) *)
Definition isValid (p : jsString) : bool :=
  match p with
  | None => false
  | Some s => (String.length s =? 24)%nat && allHex s
  end.

(** The cast the ODM applies to a string used where the schema has an
    ObjectId (query filters, [findById], [create]): the twelve bytes
    the digits denote, whatever their case. *)
Definition cast (p : jsString) : t :=
  match p with
  | None => ""
  | Some s => lower s
  end.

Definition toString (i : t) : string := i.

(** The ids the driver generates: already canonical. *)
Definition canonical (i : t) : bool :=
  isValid (Some i) && String.eqb (lower i) i.

End ObjectId.

(* ================================================================== *)
(** ** Documents *)

Module VideoDoc.
(** Modelled from the spec: the Video model (video.model.js) is not part
    of the sources.  The fields are those of the spec's data model, under
    the names [publishAVideo] stores them with; the view counter starts
    at 0, the owner is whatever [req.user?._id] was, and the ODM keeps
    the two timestamps. *)
Record t := mk {
  _id : ObjectId.t;
  title : string;
  description : string;
  videoFile : jsString;
  videoPublicId : jsString;
  thumbnail : jsString;
  thumbnailPublicId : jsString;
  duration : option Z;
  views : Z;
  isPublished : bool;
  owner : option ObjectId.t;
  createdAt : Z;
  updatedAt : Z
}.
End VideoDoc.

Module CommentDoc.
(** Modelled from the spec: the Comment model (comment.model.js) is not
    part of the sources; the fields are those [addComment] stores. *)
Record t := mk {
  _id : ObjectId.t;
  content : string;
  video : ObjectId.t;
  owner : ObjectId.t
}.
End CommentDoc.

Module LikeDoc.
(** Modelled from the spec: the Like model (like.model.js) is not part of
    the sources; the fields are those the two toggles store, the video
    and the comment reference being optional. *)
Record t := mk {
  _id : ObjectId.t;
  video : option ObjectId.t;
  comment : option ObjectId.t;
  likedBy : ObjectId.t
}.
End LikeDoc.

Module SubscriptionDoc.
(** Modelled from the spec: the Subscription model
    (subscription.model.js) is not part of the sources; the fields are
    those [toggleSubscription] stores. *)
Record t := mk {
  _id : ObjectId.t;
  subscriber : ObjectId.t;
  channel : ObjectId.t
}.
End SubscriptionDoc.

Module UserDoc.
(** Modelled from the spec: the User model (user.model.js) is not part
    of the sources.  The spec names the identifier and the profile
    fields username, full name and avatar URL; the controllers also
    read [email], and mention a [password] field that responses must
    never carry. *)
Record t := mk {
  _id : ObjectId.t;
  username : string;
  email : string;
  fullName : string;
  avatar : string;
  password : string
}.
End UserDoc.

(* ================================================================== *)
(** ** The media store and the temp directory *)

Inductive ResourceType := video_resource | image_resource.

(** What [cloudinary.uploader.upload] answers. *)
Record UploadResponse := {
  url : jsString;
  public_id : jsString;
  upload_duration : option Z
}.

(** The calls issued to the media store, most recent last. *)
Inductive MediaCall :=
| CloudUpload (localFilePath : string) (answer : option UploadResponse)
| CloudDestroy (publicId : string) (resourceType : ResourceType).

(* ================================================================== *)
(** ** The world a request handler runs in *)

Record World := {
  users : list UserDoc.t;
  videos : list VideoDoc.t;
  comments : list CommentDoc.t;
  likes : list LikeDoc.t;
  subscriptions : list SubscriptionDoc.t;
  media : list MediaCall;
  tempFiles : list string
}.

Definition emptyWorld : World :=
  {| users := []; videos := []; comments := []; likes := [];
     subscriptions := []; media := []; tempFiles := [] |}.

(** What a request brings from outside the handler: the ObjectId the
    driver generates for a document it inserts, the clock, and the
    answers of the media store to the uploads of the video file and of
    the thumbnail ([None]: the SDK call raised). *)
Record Env := {
  newId : ObjectId.t;
  now : Z;
  videoUpload : option UploadResponse;
  thumbnailUpload : option UploadResponse
}.

(* ================================================================== *)
(** ** Errors, responses and the handler monad *)

(** Modelled from the spec: utils/ApiError.js and utils/ApiResponse.js
    are not part of the sources.  An [ApiError] carries the status code
    and the message it is constructed with; anything else a handler
    raises (a [TypeError], an error of the driver or of the file system)
    is an [Exception]. *)
Inductive Error :=
| ApiError (statusCode : nat) (message : string)
| Exception (what : string).

Record ApiResponse (A : Type) := {
  statusCode : nat;
  data : A;
  message : string
}.

(** [res.status(status).json(body)] *)
Record HttpResponse (A : Type) := {
  status : nat;
  body : ApiResponse A
}.

Definition Handler (A : Type) : Type := World -> World * (Error + A).

Definition ret {A} (a : A) : Handler A := fun w => (w, inr a).

Definition throw {A} (e : Error) : Handler A := fun w => (w, inl e).

Definition bind {A B} (m : Handler A) (k : A -> Handler B) : Handler B :=
  fun w =>
    match m w with
    | (w', inl e) => (w', inl e)
    | (w', inr a) => k a w'
    end.

(** [try { m } catch (e) { h e }] *)
Definition try_catch {A} (m : Handler A) (h : Error -> Handler A) : Handler A :=
  fun w =>
    match m w with
    | (w', inl e) => h e w'
    | r => r
    end.

Notation "x <- m ;; k" := (bind m (fun x => k))
  (at level 61, m at next level, right associativity).
Notation "m ;;; k" := (bind m (fun _ => k))
  (at level 61, right associativity).

Definition when_ (b : bool) (m : Handler unit) : Handler unit :=
  if b then m else ret tt.

Definition json {A} (st code : nat) (d : A) (msg : string)
  : Handler (HttpResponse A) :=
  ret {| status := st;
         body := {| statusCode := code; data := d; message := msg |} |}.

(* ================================================================== *)
(** ** Collections and the model methods of the ODM *)

Record Collection (D : Type) := {
  docs : World -> list D;
  write : list D -> World -> World;
  idOf : D -> ObjectId.t
}.

Definition User : Collection UserDoc.t :=
  {| docs := users;
     write := fun l w =>
       {| users := l; videos := videos w; comments := comments w;
          likes := likes w; subscriptions := subscriptions w;
          media := media w; tempFiles := tempFiles w |};
     idOf := UserDoc._id |}.

Definition Video : Collection VideoDoc.t :=
  {| docs := videos;
     write := fun l w =>
       {| users := users w; videos := l; comments := comments w; likes := likes w;
          subscriptions := subscriptions w; media := media w;
          tempFiles := tempFiles w |};
     idOf := VideoDoc._id |}.

Definition Comment : Collection CommentDoc.t :=
  {| docs := comments;
     write := fun l w =>
       {| users := users w; videos := videos w; comments := l; likes := likes w;
          subscriptions := subscriptions w; media := media w;
          tempFiles := tempFiles w |};
     idOf := CommentDoc._id |}.

Definition Like : Collection LikeDoc.t :=
  {| docs := likes;
     write := fun l w =>
       {| users := users w; videos := videos w; comments := comments w; likes := l;
          subscriptions := subscriptions w; media := media w;
          tempFiles := tempFiles w |};
     idOf := LikeDoc._id |}.

Definition Subscription : Collection SubscriptionDoc.t :=
  {| docs := subscriptions;
     write := fun l w =>
       {| users := users w; videos := videos w; comments := comments w; likes := likes w;
          subscriptions := l; media := media w;
          tempFiles := tempFiles w |};
     idOf := SubscriptionDoc._id |}.

(** Removes the first document the query matches. *)
Fixpoint removeFirst {D} (q : D -> bool) (l : list D) : list D :=
  match l with
  | [] => []
  | d :: r => if q d then r else d :: removeFirst q r
  end.

(** Applies [f] to the first document the query matches. *)
Fixpoint updateFirst {D} (q : D -> bool) (f : D -> D) (l : list D) : list D :=
  match l with
  | [] => []
  | d :: r => if q d then f d :: r else d :: updateFirst q f r
  end.

Section Model.
Context {D : Type} (C : Collection D).

Definition hasId (i : ObjectId.t) (d : D) : bool :=
  ObjectId.eqb (idOf C d) i.

Definition findOne (q : D -> bool) : Handler (option D) :=
  fun w => (w, inr (find q (docs C w))).

Definition findById (i : ObjectId.t) : Handler (option D) :=
  findOne (hasId i).

(** [deleteOne] answers with the number of documents it deleted. *)
Definition deleteOne (q : D -> bool) : Handler nat :=
  fun w =>
    (write C (removeFirst q (docs C w)) w,
     inr (if existsb q (docs C w) then 1 else 0)%nat).

Definition deleteMany (q : D -> bool) : Handler nat :=
  fun w =>
    (write C (filter (fun d => negb (q d)) (docs C w)) w,
     inr (List.length (filter q (docs C w)))).

(** [create] appends the document; the store's unique index on [_id]
    refuses a second document with the same id. *)
Definition create (d : D) : Handler D :=
  fun w =>
    if existsb (hasId (idOf C d)) (docs C w)
    then (w, inl (Exception "E11000 duplicate key error"))
    else (write C (docs C w ++ [d]) w, inr d).

(** [findByIdAndUpdate(id, update, { new: true })]: the updated
    document, or [null] when no document has this id. *)
Definition findByIdAndUpdate (i : ObjectId.t) (f : D -> D)
  : Handler (option D) :=
  fun w =>
    (write C (updateFirst (hasId i) f (docs C w)) w,
     inr (option_map f (find (hasId i) (docs C w)))).

End Model.

(** Equality of optional references, as a query filter compares a field
    with an ObjectId: a missing field matches nothing. *)
Definition refIs (r : option ObjectId.t) (i : ObjectId.t) : bool :=
  match r with
  | Some j => ObjectId.eqb j i
  | None => false
  end.

(* ================================================================== *)
(** ** like.controller.js *)

Record LikeStatus := { isLiked : bool }.

Definition toggleVideoLike (videoId : jsString) (user : option ObjectId.t)
    (env : Env) : Handler (HttpResponse LikeStatus) :=
  if falsy videoId then throw (ApiError 400 "Video ID is required") else
  if negb (ObjectId.isValid videoId)
  then throw (ApiError 400 "Invalid Video ID provided") else
  let vid := ObjectId.cast videoId in
  video <- findById Video vid ;;
  match video with
  | None => throw (ApiError 404 "Video not found")
  | Some _ =>
    match user with
    | None => throw (ApiError 401 "User not authenticated to like videos")
    | Some userId =>
      existingLike <- findOne Like (fun l =>
          refIs (LikeDoc.video l) vid
          && ObjectId.eqb (LikeDoc.likedBy l) userId) ;;
      match existingLike with
      | Some l =>
          deleteOne Like (hasId Like (LikeDoc._id l)) ;;;
          json 200 200 {| isLiked := false |} "Video unliked successfully"
      | None =>
          create Like (LikeDoc.mk (newId env) (Some vid) None userId) ;;;
          json 200 200 {| isLiked := true |} "Video liked successfully"
      end
    end
  end.

Definition toggleCommentLike (commentId : jsString)
    (user : option ObjectId.t) (env : Env)
    : Handler (HttpResponse LikeStatus) :=
  if falsy commentId then throw (ApiError 400 "Comment ID is required") else
  if negb (ObjectId.isValid commentId)
  then throw (ApiError 400 "Invalid comment ID provided") else
  let cid := ObjectId.cast commentId in
  comment <- findById Comment cid ;;
  match comment with
  | None => throw (ApiError 404 "Video not found")
  | Some c =>
    match user with
    | None => throw (ApiError 401 "User not authenticated to like videos")
    | Some userId =>
      existingLike <- findOne Like (fun l =>
          refIs (LikeDoc.comment l) cid
          && ObjectId.eqb (LikeDoc.likedBy l) userId) ;;
      match existingLike with
      | Some l =>
          deleteOne Like (hasId Like (LikeDoc._id l)) ;;;
          json 200 200 {| isLiked := false |} "comment unliked successfully"
      | None =>
          create Like
            (LikeDoc.mk (newId env) (Some (CommentDoc.video c)) (Some cid)
               userId) ;;;
          json 200 200 {| isLiked := true |} "comment liked successfully"
      end
    end
  end.

(** A read-only aggregation over the collections. *)
Definition aggregate {A} (pipeline : World -> A) : Handler A :=
  fun w => (w, inr (pipeline w)).

(** [$lookup] of the documents of [foreign] whose [_id] is the local
    reference, followed by [$unwind]: one output per matching pair, none
    for a document whose reference resolves to nothing. *)
Definition lookupUnwind {L F} (foreign : list F) (foreignId : F -> ObjectId.t)
    (localField : L -> option ObjectId.t) (l : list L) : list (L * F) :=
  flat_map (fun d =>
    map (pair d) (filter (fun f => refIs (localField d) (foreignId f)) foreign))
    l.

(** A projected sub-document: field names and their values. *)
Definition jsObject := list (string * string).

Definition ownerProfile (u : UserDoc.t) : jsObject :=
  [("_id", UserDoc._id u); ("username", UserDoc.username u);
   ("fullName", UserDoc.fullName u); ("avatar", UserDoc.avatar u)].

Module LikedVideo.
Record t := mk {
  _id : ObjectId.t;
  videoFile : jsString;
  thumbnail : jsString;
  title : string;
  description : string;
  duration : option Z;
  views : Z;
  isPublished : bool;
  createdAt : Z;
  owner : jsObject
}.
End LikedVideo.

Definition isSet {A} (o : option A) : bool :=
  match o with Some _ => true | None => false end.

Definition likedVideosPipeline (userId : ObjectId.t) (w : World)
    : list LikedVideo.t :=
  (* Stage 1: $match likedBy, video: { $exists: true, $ne: null } *)
  let matched := filter (fun l =>
      ObjectId.eqb (LikeDoc.likedBy l) userId && isSet (LikeDoc.video l))
      (likes w) in
  (* Stages 2-4: $lookup videos, $unwind, $project *)
  let videoDetails :=
    map snd (lookupUnwind (videos w) VideoDoc._id LikeDoc.video matched) in
  (* Stages 5-7: $lookup users, $unwind, $project *)
  map (fun vu : VideoDoc.t * UserDoc.t =>
         let (v, u) := vu in
         LikedVideo.mk (VideoDoc._id v) (VideoDoc.videoFile v)
           (VideoDoc.thumbnail v) (VideoDoc.title v) (VideoDoc.description v)
           (VideoDoc.duration v) (VideoDoc.views v) (VideoDoc.isPublished v)
           (VideoDoc.createdAt v) (ownerProfile u))
      (lookupUnwind (users w) UserDoc._id VideoDoc.owner videoDetails).

Definition getLikedVideos (user : option ObjectId.t)
    : Handler (HttpResponse (list LikedVideo.t)) :=
  match user with
  | None => throw (ApiError 401 "User not authenticated or invalid user ID")
  | Some userId =>
    if negb (ObjectId.isValid (Some (ObjectId.toString userId)))
    then throw (ApiError 401 "User not authenticated or invalid user ID") else
    likedVideos <- aggregate (likedVideosPipeline userId) ;;
    if (List.length likedVideos =? 0)%nat
    then json 200 200 [] "User hasn't liked any videos"
    else json 200 200 likedVideos "Liked videos fetched successfully"
  end.

(* ================================================================== *)
(** ** utils/cloudinary.js *)

Definition inTemp (p : string) (w : World) : bool :=
  existsb (String.eqb p) (tempFiles w).

Definition existsSync (p : string) : Handler bool :=
  fun w => (w, inr (inTemp p w)).

Definition setTempFiles (l : list string) (w : World) : World :=
  {| users := users w; videos := videos w; comments := comments w;
     likes := likes w; subscriptions := subscriptions w; media := media w;
     tempFiles := l |}.

Definition unlinkSync (p : string) : Handler unit :=
  fun w =>
    if inTemp p w
    then (setTempFiles (removeFirst (String.eqb p) (tempFiles w)) w, inr tt)
    else (w, inl (Exception "ENOENT: no such file or directory")).

Definition logMedia (c : MediaCall) (w : World) : World :=
  {| users := users w; videos := videos w; comments := comments w;
     likes := likes w; subscriptions := subscriptions w;
     media := media w ++ [c]; tempFiles := tempFiles w |}.

(** [cloudinary.uploader.upload]: raises when the SDK has no answer. *)
Definition uploaderUpload (p : string) (answer : option UploadResponse)
    : Handler UploadResponse :=
  fun w =>
    (logMedia (CloudUpload p answer) w,
     match answer with
     | Some r => inr r
     | None => inl (Exception "cloudinary upload failed")
     end).

Definition uploaderDestroy (publicId : string) (rt : ResourceType)
    : Handler unit :=
  fun w => (logMedia (CloudDestroy publicId rt) w, inr tt).

Definition uploadOnCloudinary (localFilePath : jsString)
    (answer : option UploadResponse) : Handler (option UploadResponse) :=
  match localFilePath with
  | None => ret None
  | Some p =>
    try_catch
      (if falsy localFilePath then ret None else
       response <- uploaderUpload p answer ;;
       present <- existsSync p ;;
       when_ present (unlinkSync p) ;;;
       ret (Some response))
      (fun _ => unlinkSync p ;;; ret None)
  end.

(** Best effort: a failure of the media store is logged, never raised. *)
Definition deleteFromCloudinary (publicId : jsString) (rt : ResourceType)
    : Handler unit :=
  match publicId with
  | None => ret tt
  | Some p => if falsy publicId then ret tt else uploaderDestroy p rt
  end.

(* ================================================================== *)
(** ** video.controller.js *)

(** The code points [String.prototype.trim] strips, WhiteSpace and
    LineTerminator of ECMAScript, as the bytes of their UTF-8 encoding:
    U+0009 to U+000D and U+0020 (one byte); U+00A0 (two bytes); U+1680,
    U+2000 to U+200A, U+2028, U+2029, U+202F, U+205F, U+3000 and U+FEFF
    (three bytes). *)
Definition isSpace (s : string) : bool :=
  match s with
  | String a EmptyString =>
      let x := nat_of_ascii a in
      ((9 <=? x) && (x <=? 13)) || (x =? 32)
  | String a (String b EmptyString) =>
      (nat_of_ascii a =? 194) && (nat_of_ascii b =? 160)
  | String a (String b (String c EmptyString)) =>
      let x := nat_of_ascii a in
      let y := nat_of_ascii b in
      let z := nat_of_ascii c in
      ((x =? 225) && (y =? 154) && (z =? 128))
      || ((x =? 226) && (y =? 128)
          && (((128 <=? z) && (z <=? 138)) || (z =? 168) || (z =? 169)
              || (z =? 175)))
      || ((x =? 226) && (y =? 129) && (z =? 159))
      || ((x =? 227) && (y =? 128) && (z =? 128))
      || ((x =? 239) && (y =? 187) && (z =? 191))
  | _ => false
  end.

(** Strips the white-space code points the string starts with. *)
Fixpoint trimStart (s : string) : string :=
  match s with
  | EmptyString => EmptyString
  | String a r1 =>
      if isSpace (String a EmptyString) then trimStart r1 else
      match r1 with
      | EmptyString => s
      | String b r2 =>
          if isSpace (String a (String b EmptyString)) then trimStart r2 else
          match r2 with
          | EmptyString => s
          | String c r3 =>
              if isSpace (String a (String b (String c EmptyString)))
              then trimStart r3 else s
          end
      end
  end.

(** Strips the white-space code points the string ends with: what is
    left of the tail is put behind the head, and the result is dropped
    when it is one white-space code point. *)
Fixpoint trimEnd (s : string) : string :=
  match s with
  | EmptyString => EmptyString
  | String c r =>
      let kept := String c (trimEnd r) in
      if isSpace kept then EmptyString else kept
  end.

Definition trim (s : string) : string := trimEnd (trimStart s).

(** [!field || field.trim() === ""] *)
Definition blank (s : jsString) : bool :=
  match s with
  | None => true
  | Some x => falsy s || String.eqb (trim x) ""
  end.

Definition orEmpty (s : jsString) : string :=
  match s with Some x => x | None => "" end.

(** An upload the controllers accept: an answer with a URL and a public
    id. *)
Definition usable (r : option UploadResponse) : bool :=
  match r with
  | None => false
  | Some r => truthy (url r) && truthy (public_id r)
  end.

Definition publishAVideo (title description : jsString)
    (videoFileLocalPath thumbnailLocalPath : jsString)
    (user : option ObjectId.t) (env : Env)
    : Handler (HttpResponse VideoDoc.t) :=
  if existsb blank [title; description]
  then throw (ApiError 400 "Title and description are required") else
  if falsy videoFileLocalPath
  then throw (ApiError 400 "Video file is required") else
  if falsy thumbnailLocalPath
  then throw (ApiError 400 "Thumbnail is required") else
  videoFile <- uploadOnCloudinary videoFileLocalPath (videoUpload env) ;;
  thumbnail <- uploadOnCloudinary thumbnailLocalPath (thumbnailUpload env) ;;
  match videoFile, thumbnail with
  | None, _ => throw (ApiError 500 "Failed to upload video file to Cloudinary")
  | _, None => throw (ApiError 500 "Failed to upload thumbnail to Cloudinary")
  | Some vf, Some th =>
      video <- create Video
        {| VideoDoc._id := newId env;
           VideoDoc.title := orEmpty title;
           VideoDoc.description := orEmpty description;
           VideoDoc.videoFile := url vf;
           VideoDoc.videoPublicId := public_id vf;
           VideoDoc.thumbnail := url th;
           VideoDoc.thumbnailPublicId := public_id th;
           VideoDoc.duration := upload_duration vf;
           VideoDoc.views := 0%Z;
           VideoDoc.isPublished := true;
           VideoDoc.owner := user;
           VideoDoc.createdAt := now env;
           VideoDoc.updatedAt := now env |} ;;
      json 201 200 video "Video published successfully!!"
  end.

Module VideoDetails.
Record t := mk {
  _id : ObjectId.t;
  videoFile : jsString;
  thumbnail : jsString;
  title : string;
  description : string;
  duration : option Z;
  views : Z;
  isPublished : bool;
  createdAt : Z;
  updatedAt : Z;
  owner : jsObject
}.
End VideoDetails.

Definition videoByIdPipeline (vid : ObjectId.t) (w : World)
    : list VideoDetails.t :=
  let matched := filter (hasId Video vid) (videos w) in
  map (fun vu : VideoDoc.t * UserDoc.t =>
         let (v, u) := vu in
         VideoDetails.mk (VideoDoc._id v) (VideoDoc.videoFile v)
           (VideoDoc.thumbnail v) (VideoDoc.title v) (VideoDoc.description v)
           (VideoDoc.duration v) (VideoDoc.views v) (VideoDoc.isPublished v)
           (VideoDoc.createdAt v) (VideoDoc.updatedAt v) (ownerProfile u))
      (lookupUnwind (users w) UserDoc._id VideoDoc.owner matched).

(** [{ $inc: { views: 1 } }], with the timestamp the ODM maintains. *)
Definition incViews (t : Z) (v : VideoDoc.t) : VideoDoc.t :=
  {| VideoDoc._id := VideoDoc._id v;
     VideoDoc.title := VideoDoc.title v;
     VideoDoc.description := VideoDoc.description v;
     VideoDoc.videoFile := VideoDoc.videoFile v;
     VideoDoc.videoPublicId := VideoDoc.videoPublicId v;
     VideoDoc.thumbnail := VideoDoc.thumbnail v;
     VideoDoc.thumbnailPublicId := VideoDoc.thumbnailPublicId v;
     VideoDoc.duration := VideoDoc.duration v;
     VideoDoc.views := (VideoDoc.views v + 1)%Z;
     VideoDoc.isPublished := VideoDoc.isPublished v;
     VideoDoc.owner := VideoDoc.owner v;
     VideoDoc.createdAt := VideoDoc.createdAt v;
     VideoDoc.updatedAt := t |}.

Definition withViews (n : Z) (d : VideoDetails.t) : VideoDetails.t :=
  VideoDetails.mk (VideoDetails._id d) (VideoDetails.videoFile d)
    (VideoDetails.thumbnail d) (VideoDetails.title d)
    (VideoDetails.description d) (VideoDetails.duration d) n
    (VideoDetails.isPublished d) (VideoDetails.createdAt d)
    (VideoDetails.updatedAt d) (VideoDetails.owner d).

Definition getVideoById (videoId : jsString) (env : Env)
    : Handler (HttpResponse VideoDetails.t) :=
  if falsy videoId then throw (ApiError 400 "Video ID is required") else
  if negb (ObjectId.isValid videoId)
  then throw (ApiError 400 "Invalid Video ID") else
  let vid := ObjectId.cast videoId in
  video <- aggregate (videoByIdPipeline vid) ;;
  match video with
  | [] => throw (ApiError 404 "Video not found")
  | foundVideo :: _ =>
      updatedVideo <- findByIdAndUpdate Video vid (incViews (now env)) ;;
      match updatedVideo with
      | None => throw (Exception "TypeError: updatedVideo is null")
      | Some u =>
          json 200 200 (withViews (VideoDoc.views u) foundVideo)
            "Video fetched successfully"
      end
  end.

(** [doc.owner.toString() !== req.user?._id.toString()]: a document
    without owner makes [toString] raise; a request without user makes
    the right-hand side [undefined], different from every string. *)
Definition notOwnedBy (owner : option ObjectId.t) (user : option ObjectId.t)
    : Handler bool :=
  match owner with
  | None => throw (Exception "TypeError: cannot read properties of undefined")
  | Some o =>
      ret (match user with
           | None => true
           | Some u =>
               negb (String.eqb (ObjectId.toString o) (ObjectId.toString u))
           end)
  end.

(** The [updateFields] object that [updateVideo] fills in: a field is
    [None] until it is assigned. *)
Record UpdateFields := {
  set_title : option string;
  set_description : option string;
  set_videoFile : option jsString;
  set_videoPublicId : option jsString;
  set_duration : option (option Z);
  set_thumbnail : option jsString;
  set_thumbnailPublicId : option jsString
}.

Definition noFields : UpdateFields :=
  {| set_title := None; set_description := None; set_videoFile := None;
     set_videoPublicId := None; set_duration := None;
     set_thumbnail := None; set_thumbnailPublicId := None |}.

Definition assignText (title description : jsString) (f : UpdateFields)
    : UpdateFields :=
  {| set_title := if truthy title then title else set_title f;
     set_description :=
       if truthy description then description else set_description f;
     set_videoFile := set_videoFile f;
     set_videoPublicId := set_videoPublicId f;
     set_duration := set_duration f;
     set_thumbnail := set_thumbnail f;
     set_thumbnailPublicId := set_thumbnailPublicId f |}.

Definition assignVideoFile (r : UploadResponse) (f : UpdateFields)
    : UpdateFields :=
  {| set_title := set_title f;
     set_description := set_description f;
     set_videoFile := Some (url r);
     set_videoPublicId := Some (public_id r);
     set_duration := Some (upload_duration r);
     set_thumbnail := set_thumbnail f;
     set_thumbnailPublicId := set_thumbnailPublicId f |}.

Definition assignThumbnail (r : UploadResponse) (f : UpdateFields)
    : UpdateFields :=
  {| set_title := set_title f;
     set_description := set_description f;
     set_videoFile := set_videoFile f;
     set_videoPublicId := set_videoPublicId f;
     set_duration := set_duration f;
     set_thumbnail := Some (url r);
     set_thumbnailPublicId := Some (public_id r) |}.

Definition orKeep {A} (new : option A) (old : A) : A :=
  match new with Some x => x | None => old end.

(** The ODM drops from [$set] a key whose value is [undefined]. *)
Definition defined {A} (new : option (option A)) : option (option A) :=
  match new with
  | Some None => None
  | _ => new
  end.

(** [{ $set: updateFields }], with the timestamp the ODM maintains. *)
Definition applySet (f : UpdateFields) (t : Z) (v : VideoDoc.t) : VideoDoc.t :=
  {| VideoDoc._id := VideoDoc._id v;
     VideoDoc.title := orKeep (set_title f) (VideoDoc.title v);
     VideoDoc.description := orKeep (set_description f) (VideoDoc.description v);
     VideoDoc.videoFile :=
       orKeep (defined (set_videoFile f)) (VideoDoc.videoFile v);
     VideoDoc.videoPublicId :=
       orKeep (defined (set_videoPublicId f)) (VideoDoc.videoPublicId v);
     VideoDoc.thumbnail :=
       orKeep (defined (set_thumbnail f)) (VideoDoc.thumbnail v);
     VideoDoc.thumbnailPublicId :=
       orKeep (defined (set_thumbnailPublicId f))
         (VideoDoc.thumbnailPublicId v);
     VideoDoc.duration :=
       orKeep (defined (set_duration f)) (VideoDoc.duration v);
     VideoDoc.views := VideoDoc.views v;
     VideoDoc.isPublished := VideoDoc.isPublished v;
     VideoDoc.owner := VideoDoc.owner v;
     VideoDoc.createdAt := VideoDoc.createdAt v;
     VideoDoc.updatedAt := t |}.

(** Step 5 of [updateVideo]: the video file, when the request has one. *)
Definition replaceVideoFile (video : VideoDoc.t) (videoFileLocalPath : jsString)
    (env : Env) (f : UpdateFields) : Handler UpdateFields :=
  if truthy videoFileLocalPath then
    newVideoFile <-
      try_catch (uploadOnCloudinary videoFileLocalPath (videoUpload env))
        (fun _ => throw (ApiError 500
           "Failed to upload new video file due to an internal error.")) ;;
    match newVideoFile with
    | Some r =>
        if usable newVideoFile then
          when_ (truthy (VideoDoc.videoPublicId video))
            (deleteFromCloudinary (VideoDoc.videoPublicId video)
               video_resource) ;;;
          ret (assignVideoFile r f)
        else throw (ApiError 500
          "Error while uploading new video file to Cloudinary (no URL or public_id)")
    | None => throw (ApiError 500
          "Error while uploading new video file to Cloudinary (no URL or public_id)")
    end
  else ret f.

(** Step 6 of [updateVideo]: the thumbnail, when the request has one. *)
Definition replaceThumbnail (video : VideoDoc.t) (thumbnailLocalPath : jsString)
    (env : Env) (f : UpdateFields) : Handler UpdateFields :=
  if truthy thumbnailLocalPath then
    newThumbnail <- uploadOnCloudinary thumbnailLocalPath (thumbnailUpload env) ;;
    match newThumbnail with
    | Some r =>
        if usable newThumbnail then
          when_ (truthy (VideoDoc.thumbnailPublicId video))
            (deleteFromCloudinary (VideoDoc.thumbnailPublicId video)
               image_resource) ;;;
          ret (assignThumbnail r f)
        else throw (ApiError 500
          "Error while uploading new thumbnail to Cloudinary")
    | None => throw (ApiError 500
          "Error while uploading new thumbnail to Cloudinary")
    end
  else ret f.

Definition updateVideo (videoId : jsString) (title description : jsString)
    (videoFileLocalPath thumbnailLocalPath : jsString)
    (user : option ObjectId.t) (env : Env)
    : Handler (HttpResponse VideoDoc.t) :=
  if falsy videoId then throw (ApiError 400 "Video ID is required") else
  if negb (ObjectId.isValid videoId)
  then throw (ApiError 400 "Invalid Video ID") else
  if falsy title && falsy description && falsy videoFileLocalPath
     && falsy thumbnailLocalPath
  then throw (ApiError 400
    "At least one field (title, description, video, or thumbnail) is required to update.")
  else
  let vid := ObjectId.cast videoId in
  found <- findById Video vid ;;
  match found with
  | None => throw (ApiError 404 "Video not found")
  | Some video =>
      foreign <- notOwnedBy (VideoDoc.owner video) user ;;
      if foreign
      then throw (ApiError 403 "You are not authorized to update this video")
      else
      let updateFields := assignText title description noFields in
      updateFields <- replaceVideoFile video videoFileLocalPath env updateFields ;;
      updateFields <- replaceThumbnail video thumbnailLocalPath env updateFields ;;
      updatedVideo <- findByIdAndUpdate Video vid
                        (applySet updateFields (now env)) ;;
      match updatedVideo with
      | None => throw (ApiError 500
          "Something went wrong while updating the video. Video might have been deleted.")
      | Some u => json 200 200 u "Video updated successfully"
      end
  end.

Record DeleteResult := { deletedCount : nat }.

Definition deleteVideo (videoId : jsString) (user : option ObjectId.t)
    : Handler (HttpResponse DeleteResult) :=
  if falsy videoId then throw (ApiError 400 "Video ID is required") else
  if negb (ObjectId.isValid videoId)
  then throw (ApiError 400 "Invalid Video ID") else
  let vid := ObjectId.cast videoId in
  found <- findById Video vid ;;
  match found with
  | None => throw (ApiError 404 "Video not found")
  | Some videoToDelete =>
      foreign <- notOwnedBy (VideoDoc.owner videoToDelete) user ;;
      if foreign
      then throw (ApiError 403 "You are not authorized to delete this video")
      else
      when_ (truthy (VideoDoc.videoPublicId videoToDelete))
        (deleteFromCloudinary (VideoDoc.videoPublicId videoToDelete)
           video_resource) ;;;
      when_ (truthy (VideoDoc.thumbnailPublicId videoToDelete))
        (deleteFromCloudinary (VideoDoc.thumbnailPublicId videoToDelete)
           image_resource) ;;;
      deleteMany Like (fun l => refIs (LikeDoc.video l) vid) ;;;
      deleteMany Comment (fun c => ObjectId.eqb (CommentDoc.video c) vid) ;;;
      deleted <- deleteOne Video (hasId Video vid) ;;
      if (deleted =? 0)%nat
      then throw (ApiError 500 "Failed to delete video from database")
      else json 200 200 {| deletedCount := deleted |}
             "Video deleted successfully"
  end.

Record PublishStatus := { isPublished : bool }.

(** [{ $set: { isPublished: b } }] *)
Definition setPublished (b : bool) (t : Z) (v : VideoDoc.t) : VideoDoc.t :=
  {| VideoDoc._id := VideoDoc._id v;
     VideoDoc.title := VideoDoc.title v;
     VideoDoc.description := VideoDoc.description v;
     VideoDoc.videoFile := VideoDoc.videoFile v;
     VideoDoc.videoPublicId := VideoDoc.videoPublicId v;
     VideoDoc.thumbnail := VideoDoc.thumbnail v;
     VideoDoc.thumbnailPublicId := VideoDoc.thumbnailPublicId v;
     VideoDoc.duration := VideoDoc.duration v;
     VideoDoc.views := VideoDoc.views v;
     VideoDoc.isPublished := b;
     VideoDoc.owner := VideoDoc.owner v;
     VideoDoc.createdAt := VideoDoc.createdAt v;
     VideoDoc.updatedAt := t |}.

Definition togglePublishStatus (videoId : jsString) (user : option ObjectId.t)
    (env : Env) : Handler (HttpResponse PublishStatus) :=
  if falsy videoId then throw (ApiError 400 "Video ID is required") else
  if negb (ObjectId.isValid videoId)
  then throw (ApiError 400 "Invalid Video ID") else
  let vid := ObjectId.cast videoId in
  found <- findById Video vid ;;
  match found with
  | None => throw (ApiError 404 "Video not found")
  | Some video =>
      foreign <- notOwnedBy (VideoDoc.owner video) user ;;
      if foreign
      then throw (ApiError 403
        "You are not authorized to toggle video publish status.")
      else
      updatedVideo <- findByIdAndUpdate Video vid
        (setPublished (negb (VideoDoc.isPublished video)) (now env)) ;;
      match updatedVideo with
      | None => throw (ApiError 500
          "Something went wrong while toggling video publish status.")
      | Some u =>
          json 200 200 {| isPublished := VideoDoc.isPublished u |}
            "Video publish status toggled successfully"
      end
  end.

(* ================================================================== *)
(** ** comment.controller.js *)

Module PopulatedComment.
Record t := mk {
  _id : ObjectId.t;
  content : string;
  video : option jsObject;
  owner : option jsObject
}.
End PopulatedComment.

(** [Comment.findById(id).populate(owner ...).populate(video ...)]: a
    reference that resolves to no document is populated with [null]. *)
Definition populatedCommentPipeline (i : ObjectId.t) (w : World)
    : option PopulatedComment.t :=
  option_map (fun c =>
    PopulatedComment.mk (CommentDoc._id c) (CommentDoc.content c)
      (option_map (fun v =>
         [("_id", VideoDoc._id v); ("title", VideoDoc.title v);
          ("thumbnail", orEmpty (VideoDoc.thumbnail v))])
         (find (hasId Video (CommentDoc.video c)) (videos w)))
      (option_map (fun u =>
         [("_id", UserDoc._id u); ("username", UserDoc.username u);
          ("avatar", UserDoc.avatar u); ("fullName", UserDoc.fullName u)])
         (find (hasId User (CommentDoc.owner c)) (users w))))
    (find (hasId Comment i) (comments w)).

Definition addComment (content videoId : jsString) (user : option ObjectId.t)
    (env : Env) : Handler (HttpResponse (option PopulatedComment.t)) :=
  if blank content then throw (ApiError 400 "Comment content is required") else
  if falsy videoId then throw (ApiError 400 "Video ID is required") else
  if negb (ObjectId.isValid videoId)
  then throw (ApiError 400 "Invalid Video ID") else
  match user with
  | None => throw (ApiError 401 "User not authenticated to like videos")
  | Some userId =>
    let vid := ObjectId.cast videoId in
    video <- findById Video vid ;;
    match video with
    | None => throw (ApiError 404 "Video not found")
    | Some _ =>
        createdComment <- create Comment
          (CommentDoc.mk (newId env) (trim (orEmpty content)) vid userId) ;;
        populatedComment <-
          aggregate (populatedCommentPipeline (CommentDoc._id createdComment)) ;;
        json 201 201 populatedComment "Comment added successfully"
    end
  end.

(** [{ $set: { content } }] *)
Definition setContent (s : string) (c : CommentDoc.t) : CommentDoc.t :=
  CommentDoc.mk (CommentDoc._id c) s (CommentDoc.video c) (CommentDoc.owner c).

Definition updateComment (content commentId : jsString)
    (user : option ObjectId.t)
    : Handler (HttpResponse (option PopulatedComment.t)) :=
  if blank content then throw (ApiError 400 "Comment content is required") else
  if falsy commentId
  then throw (ApiError 400 "Comment ID is required in parameters") else
  if negb (ObjectId.isValid commentId)
  then throw (ApiError 400 "Invalid Comment ID provided") else
  match user with
  | None => throw (ApiError 401 "User not authenticated to update comments")
  | Some userId =>
    let cid := ObjectId.cast commentId in
    found <- findById Comment cid ;;
    match found with
    | None => throw (ApiError 404 "Comment not found")
    | Some commentToUpdate =>
        if negb (String.eqb (ObjectId.toString (CommentDoc.owner commentToUpdate))
                   (ObjectId.toString userId))
        then throw (ApiError 403 "You are not authorized to update this comment")
        else
        updatedComment <- findByIdAndUpdate Comment cid
                            (setContent (orEmpty content)) ;;
        match updatedComment with
        | None => throw (ApiError 500
            "Something went wrong while updating the comment")
        | Some u =>
            populated <-
              aggregate (populatedCommentPipeline (CommentDoc._id u)) ;;
            json 200 200 populated "Comment updated successfully"
        end
    end
  end.

Definition deleteComment (commentId : jsString) (user : option ObjectId.t)
    : Handler (HttpResponse unit) :=
  if falsy commentId
  then throw (ApiError 400 "Comment ID is required in parameters") else
  if negb (ObjectId.isValid commentId)
  then throw (ApiError 400 "Invalid Comment ID provided") else
  match user with
  | None => throw (ApiError 401 "User not authenticated to delete comments")
  | Some userId =>
    let cid := ObjectId.cast commentId in
    found <- findById Comment cid ;;
    match found with
    | None => throw (ApiError 404 "Comment not found")
    | Some commentToDelete =>
        if negb (String.eqb (ObjectId.toString (CommentDoc.owner commentToDelete))
                   (ObjectId.toString userId))
        then throw (ApiError 403 "You are not authorized to delete this comment")
        else
        deleteMany Like (fun l => refIs (LikeDoc.comment l) cid) ;;;
        result <- deleteOne Comment (hasId Comment cid) ;;
        if (result =? 0)%nat
        then throw (ApiError 500
          "Something went wrong while deleting the comment, or comment was deleted concurrently.")
        else json 200 200 tt "Comment deleted successfully"
    end
  end.

(* ================================================================== *)
(** ** subscription.controller.js *)

Record SubscriptionStatus := {
  isSubscribed : bool;
  channelId : jsString
}.

Definition toggleSubscription (channelId : jsString)
    (user : option ObjectId.t) (env : Env)
    : Handler (HttpResponse SubscriptionStatus) :=
  match user with
  | None => throw (ApiError 401 "User not authenticated. Please log in.")
  | Some subscriberId =>
    if negb (ObjectId.isValid channelId)
    then throw (ApiError 400 "Invalid channel ID provided.") else
    let cid := ObjectId.cast channelId in
    channelExists <- findById User cid ;;
    match channelExists with
    | None => throw (ApiError 404 "Channel not found.")
    | Some _ =>
      (* subscriberId.toString() === channelId.toString(): the request
         parameter is compared as the string it was sent as *)
      if String.eqb (ObjectId.toString subscriberId) (orEmpty channelId)
      then throw (ApiError 400 "You cannot subscribe to your own channel.")
      else
      existingSubscription <- findOne Subscription (fun s =>
          ObjectId.eqb (SubscriptionDoc.subscriber s) subscriberId
          && ObjectId.eqb (SubscriptionDoc.channel s) cid) ;;
      match existingSubscription with
      | Some s =>
          deleteOne Subscription (hasId Subscription (SubscriptionDoc._id s)) ;;;
          json 200 200 {| isSubscribed := false; channelId := channelId |}
            "Unsubscribed successfully."
      | None =>
          create Subscription
            (SubscriptionDoc.mk (newId env) subscriberId cid) ;;;
          json 200 200 {| isSubscribed := true; channelId := channelId |}
            "Subscribed successfully."
      end
    end
  end.

(** The [$project] of [getUserChannelSubscribers]. *)
Definition subscriberProfile (u : UserDoc.t) : jsObject :=
  [("_id", UserDoc._id u); ("username", UserDoc.username u);
   ("email", UserDoc.email u); ("avatar", UserDoc.avatar u);
   ("fullName", UserDoc.fullName u)].

Definition subscribersPipeline (cid : ObjectId.t) (w : World) : list jsObject :=
  let matched := filter (fun s => ObjectId.eqb (SubscriptionDoc.channel s) cid)
                   (subscriptions w) in
  map (fun su : SubscriptionDoc.t * UserDoc.t => subscriberProfile (snd su))
    (lookupUnwind (users w) UserDoc._id
       (fun s => Some (SubscriptionDoc.subscriber s)) matched).

Definition getUserChannelSubscribers (channelId : jsString)
    : Handler (HttpResponse (list jsObject)) :=
  if falsy channelId || negb (ObjectId.isValid channelId)
  then throw (ApiError 400 "Invalid channel ID provided.") else
  subscribers <- aggregate (subscribersPipeline (ObjectId.cast channelId)) ;;
  if (List.length subscribers =? 0)%nat
  then json 200 200 [] "No subscribers found for this channel."
  else json 200 200 subscribers "Subscribers fetched successfully.".

(** The [$project] of [getSubscribedChannels]. *)
Definition channelProfile (u : UserDoc.t) : jsObject :=
  [("_id", UserDoc._id u); ("username", UserDoc.username u);
   ("fullName", UserDoc.fullName u); ("avatar", UserDoc.avatar u)].

Definition subscribedChannelsPipeline (sid : ObjectId.t) (w : World)
    : list jsObject :=
  let matched := filter (fun s => ObjectId.eqb (SubscriptionDoc.subscriber s) sid)
                   (subscriptions w) in
  map (fun su : SubscriptionDoc.t * UserDoc.t => channelProfile (snd su))
    (lookupUnwind (users w) UserDoc._id
       (fun s => Some (SubscriptionDoc.channel s)) matched).

Definition getSubscribedChannels (subscriberId : jsString)
    : Handler (HttpResponse (list jsObject)) :=
  if falsy subscriberId || negb (ObjectId.isValid subscriberId)
  then throw (ApiError 400 "Invalid subscriber ID provided.") else
  subscribedChannels <-
    aggregate (subscribedChannelsPipeline (ObjectId.cast subscriberId)) ;;
  if (List.length subscribedChannels =? 0)%nat
  then json 200 200 [] "This user has not subscribed to any channels."
  else json 200 200 subscribedChannels
         "Subscribed channels fetched successfully.".

(* ================================================================== *)
(** ** Requests and the worlds the controllers can produce *)

Inductive Request :=
| ToggleVideoLike (videoId : jsString) (user : option ObjectId.t)
| ToggleCommentLike (commentId : jsString) (user : option ObjectId.t)
| GetLikedVideos (user : option ObjectId.t)
| PublishAVideo (title description videoFileLocalPath thumbnailLocalPath : jsString)
    (user : option ObjectId.t)
| GetVideoById (videoId : jsString)
| UpdateVideo (videoId title description videoFileLocalPath
    thumbnailLocalPath : jsString) (user : option ObjectId.t)
| DeleteVideo (videoId : jsString) (user : option ObjectId.t)
| TogglePublishStatus (videoId : jsString) (user : option ObjectId.t)
| AddComment (content videoId : jsString) (user : option ObjectId.t)
| UpdateComment (content commentId : jsString) (user : option ObjectId.t)
| DeleteComment (commentId : jsString) (user : option ObjectId.t)
| ToggleSubscription (channelId : jsString) (user : option ObjectId.t)
| GetUserChannelSubscribers (channelId : jsString)
| GetSubscribedChannels (subscriberId : jsString).

(** The world a request leaves behind, whether it answers or throws. *)
Definition serve (r : Request) (env : Env) (w : World) : World :=
  match r with
  | ToggleVideoLike v u => fst (toggleVideoLike v u env w)
  | ToggleCommentLike c u => fst (toggleCommentLike c u env w)
  | GetLikedVideos u => fst (getLikedVideos u w)
  | PublishAVideo t d vp tp u => fst (publishAVideo t d vp tp u env w)
  | GetVideoById v => fst (getVideoById v env w)
  | UpdateVideo v t d vp tp u => fst (updateVideo v t d vp tp u env w)
  | DeleteVideo v u => fst (deleteVideo v u w)
  | TogglePublishStatus v u => fst (togglePublishStatus v u env w)
  | AddComment c v u => fst (addComment c v u env w)
  | UpdateComment c i u => fst (updateComment c i u w)
  | DeleteComment i u => fst (deleteComment i u w)
  | ToggleSubscription c u => fst (toggleSubscription c u env w)
  | GetUserChannelSubscribers c => fst (getUserChannelSubscribers c w)
  | GetSubscribedChannels s => fst (getSubscribedChannels s w)
  end.

(** The worlds reachable from empty collections: requests are served one
    after the other; between them the User collection, which other
    services maintain, and the temp directory, which the upload
    middleware fills, may change. *)
Inductive reachable : World -> Prop :=
| reach_empty : reachable emptyWorld
| reach_serve w r env : reachable w -> reachable (serve r env w)
| reach_users w us : reachable w -> reachable (write User us w)
| reach_temp w fs : reachable w -> reachable (setTempFiles fs w).

(** The target a Like is a like of: its comment when it has one, its
    video otherwise. *)
Definition likeTarget (l : LikeDoc.t) : option ObjectId.t + ObjectId.t :=
  match LikeDoc.comment l with
  | Some c => inr c
  | None => inl (LikeDoc.video l)
  end.

Definition likeKey (l : LikeDoc.t) :=
  (LikeDoc.likedBy l, likeTarget l).

(** What the sequential controllers maintain, as a property of the four
    collections: ids are unique in each collection; every Like carries a
    video reference; a Like of a comment points to a stored comment and
    carries that comment's video; and no liker has two Likes of the same
    target. *)
Record InvOn (vs : list VideoDoc.t) (cs : list CommentDoc.t)
    (ls : list LikeDoc.t) (ss : list SubscriptionDoc.t) : Prop := {
  inv_video_ids : NoDup (map VideoDoc._id vs);
  inv_comment_ids : NoDup (map CommentDoc._id cs);
  inv_like_ids : NoDup (map LikeDoc._id ls);
  inv_subscription_ids : NoDup (map SubscriptionDoc._id ss);
  inv_like_video :
    forall l, In l ls -> LikeDoc.video l <> None;
  inv_comment_like :
    forall l c, In l ls -> LikeDoc.comment l = Some c ->
      exists cd, In cd cs /\ CommentDoc._id cd = c
                 /\ LikeDoc.video l = Some (CommentDoc.video cd);
  inv_like_unique : NoDup (map likeKey ls)
}.

Definition Inv (w : World) : Prop :=
  InvOn (videos w) (comments w) (likes w) (subscriptions w).

(* ================================================================== *)
(** ** Notions the properties are stated with *)

(** The Likes associated with a video: the Likes that carry its
    reference and the Likes of its comments. *)
Definition associatedWith (vid : ObjectId.t) (cs : list CommentDoc.t)
    (l : LikeDoc.t) : bool :=
  refIs (LikeDoc.video l) vid
  || existsb (fun c => ObjectId.eqb (CommentDoc.video c) vid
                       && refIs (LikeDoc.comment l) (CommentDoc._id c)) cs.

(** The video with this id together with its owner's User record, when
    both are stored. *)
Definition videoWithOwner (vid : ObjectId.t) (w : World)
    : option (VideoDoc.t * UserDoc.t) :=
  match find (hasId Video vid) (videos w) with
  | Some v =>
      match VideoDoc.owner v with
      | Some o => option_map (pair v) (find (hasId User o) (users w))
      | None => None
      end
  | None => None
  end.

Definition detailsOf (v : VideoDoc.t) (u : UserDoc.t) : VideoDetails.t :=
  VideoDetails.mk (VideoDoc._id v) (VideoDoc.videoFile v)
    (VideoDoc.thumbnail v) (VideoDoc.title v) (VideoDoc.description v)
    (VideoDoc.duration v) (VideoDoc.views v) (VideoDoc.isPublished v)
    (VideoDoc.createdAt v) (VideoDoc.updatedAt v) (ownerProfile u).

(** The Like collection after a toggle: the Like found by the filter is
    deleted by its id, or the new Like is appended. *)
Definition toggled (q : LikeDoc.t -> bool) (d : LikeDoc.t)
    (ls : list LikeDoc.t) : list LikeDoc.t :=
  match find q ls with
  | Some l => removeFirst (hasId Like (LikeDoc._id l)) ls
  | None => ls ++ [d]
  end.

(** The filters of the two toggles. *)
Definition likeOfVideo (vid u : ObjectId.t) (l : LikeDoc.t) : bool :=
  refIs (LikeDoc.video l) vid && ObjectId.eqb (LikeDoc.likedBy l) u.

Definition likeOfComment (cid u : ObjectId.t) (l : LikeDoc.t) : bool :=
  refIs (LikeDoc.comment l) cid && ObjectId.eqb (LikeDoc.likedBy l) u.

Definition likedAnswer (b : bool) (unliked liked : string)
    : HttpResponse LikeStatus :=
  {| status := 200;
     body := {| statusCode := 200;
                data := {| isLiked := b |};
                message := if b then liked else unliked |} |}.

(** The calls [updateVideo] makes for one file of the request: the
    upload and then, when the answer is usable and the document has a
    public id for the previous asset, the deletion of that asset. *)
Definition replacement (path : jsString) (answer : option UploadResponse)
    (previous : jsString) (rt : ResourceType) : list MediaCall :=
  match path with
  | Some p =>
      if truthy path
      then CloudUpload p answer
           :: (if usable answer && truthy previous
               then [CloudDestroy (orEmpty previous) rt]
               else [])
      else []
  | None => []
  end.

(** A file of the request is accepted when the request has none or the
    answer to its upload is usable. *)
Definition accepted (path : jsString) (answer : option UploadResponse)
    : bool :=
  implb (truthy path) (usable answer).

(** Whether a string starts with a white-space code point. *)
Definition startsWithSpace (s : string) : bool :=
  match s with
  | EmptyString => false
  | String a r1 =>
      isSpace (String a EmptyString)
      || match r1 with
         | EmptyString => false
         | String b r2 =>
             isSpace (String a (String b EmptyString))
             || match r2 with
                | EmptyString => false
                | String c _ =>
                    isSpace (String a (String b (String c EmptyString)))
                end
         end
  end.

(** U+00A0, the no-break space. *)
Definition nbsp : string :=
  String (ascii_of_nat 194) (String (ascii_of_nat 160) EmptyString).

(** The error a handler ends in, if it does. *)
Definition failure {A} (r : World * (Error + A)) : option Error :=
  match snd r with
  | inl e => Some e
  | inr _ => None
  end.

(** The error a request is answered with, if it is. *)
Definition raised (r : Request) (env : Env) (w : World) : option Error :=
  match r with
  | ToggleVideoLike v u => failure (toggleVideoLike v u env w)
  | ToggleCommentLike c u => failure (toggleCommentLike c u env w)
  | GetLikedVideos u => failure (getLikedVideos u w)
  | PublishAVideo t d vp tp u => failure (publishAVideo t d vp tp u env w)
  | GetVideoById v => failure (getVideoById v env w)
  | UpdateVideo v t d vp tp u => failure (updateVideo v t d vp tp u env w)
  | DeleteVideo v u => failure (deleteVideo v u w)
  | TogglePublishStatus v u => failure (togglePublishStatus v u env w)
  | AddComment c v u => failure (addComment c v u env w)
  | UpdateComment c i u => failure (updateComment c i u w)
  | DeleteComment i u => failure (deleteComment i u w)
  | ToggleSubscription c u => failure (toggleSubscription c u env w)
  | GetUserChannelSubscribers c => failure (getUserChannelSubscribers c w)
  | GetSubscribedChannels s => failure (getSubscribedChannels s w)
  end.

(** The filter of [toggleSubscription]. *)
Definition subscriptionOf (subscriber channel : ObjectId.t)
    (s : SubscriptionDoc.t) : bool :=
  ObjectId.eqb (SubscriptionDoc.subscriber s) subscriber
  && ObjectId.eqb (SubscriptionDoc.channel s) channel.

(** The Subscription collection after a toggle: the Subscription found
    by the filter is deleted by its id, or the new one is appended. *)
Definition resubscribed (q : SubscriptionDoc.t -> bool) (d : SubscriptionDoc.t)
    (ss : list SubscriptionDoc.t) : list SubscriptionDoc.t :=
  match find q ss with
  | Some s => removeFirst (hasId Subscription (SubscriptionDoc._id s)) ss
  | None => ss ++ [d]
  end.

Definition subscriptionKey (s : SubscriptionDoc.t) :=
  (SubscriptionDoc.subscriber s, SubscriptionDoc.channel s).

Definition subscribedAnswer (b : bool) (channel : jsString)
    : HttpResponse SubscriptionStatus :=
  {| status := 200;
     body := {| statusCode := 200;
                data := {| isSubscribed := b; channelId := channel |};
                message := if b then "Subscribed successfully."
                           else "Unsubscribed successfully." |} |}.

(** The same video fetched once per environment, one request after the
    other. *)
Definition fetchAll (videoId : jsString) (envs : list Env) (w : World)
    : World :=
  fold_left (fun w env => fst (getVideoById videoId env w)) envs w.

(** The deletions [deleteVideo] asks of the media store for a video. *)
Definition assetDeletions (v : VideoDoc.t) : list MediaCall :=
  (if truthy (VideoDoc.videoPublicId v)
   then [CloudDestroy (orEmpty (VideoDoc.videoPublicId v)) video_resource]
   else [])
  ++ (if truthy (VideoDoc.thumbnailPublicId v)
      then [CloudDestroy (orEmpty (VideoDoc.thumbnailPublicId v))
              image_resource]
      else []).

(** The references to videos resolve: every comment is a comment on a
    stored video, and every Like carries the id of a stored video. *)
Definition RefsOn (vs : list VideoDoc.t) (cs : list CommentDoc.t)
    (ls : list LikeDoc.t) : Prop :=
  (forall c, In c cs -> In (CommentDoc.video c) (map VideoDoc._id vs))
  /\ (forall l i, In l ls -> LikeDoc.video l = Some i ->
        In i (map VideoDoc._id vs)).

Definition Refs (w : World) : Prop :=
  RefsOn (videos w) (comments w) (likes w).

(** The route parameter with the id of the document a request
    addresses. *)
Definition addressed (r : Request) : option jsString :=
  match r with
  | ToggleVideoLike i _ | ToggleCommentLike i _ | GetVideoById i
  | UpdateVideo i _ _ _ _ _ | DeleteVideo i _ | TogglePublishStatus i _
  | AddComment _ i _ | UpdateComment _ i _ | DeleteComment i _
  | ToggleSubscription i _ | GetUserChannelSubscribers i
  | GetSubscribedChannels i => Some i
  | GetLikedVideos _ | PublishAVideo _ _ _ _ _ => None
  end.

(* ================================================================== *)
(** * A small platform: two users, one video, one comment *)

Definition aliceId : ObjectId.t := "a00000000000000000000001".
Definition bobId : ObjectId.t := "b00000000000000000000002".
Definition catVideoId : ObjectId.t := "c00000000000000000000003".
Definition niceCommentId : ObjectId.t := "d00000000000000000000004".

Definition alice : UserDoc.t :=
  UserDoc.mk aliceId "alice" "alice@example.org" "Alice A" "alice.png" "hunter2".
Definition bob : UserDoc.t :=
  UserDoc.mk bobId "bob" "bob@example.org" "Bob B" "bob.png" "swordfish".

Definition stored (name : string) : option UploadResponse :=
  Some {| url := Some (String.append "http://media/" name);
          public_id := Some name;
          upload_duration := Some 12%Z |}.

Definition envWith (i : ObjectId.t) : Env :=
  {| newId := i; now := 1000%Z;
     videoUpload := stored "cat-video"; thumbnailUpload := stored "cat-thumb" |}.

Definition twoUsers : World := write User [alice; bob] emptyWorld.

(** Alice publishes a video. *)
Definition published : World :=
  serve (PublishAVideo (Some "Cats") (Some "A cat video")
           (Some "public/temp/cat.mp4") (Some "public/temp/cat.png")
           (Some aliceId))
        (envWith catVideoId) twoUsers.

(** Bob comments on it. *)
Definition commented : World :=
  serve (AddComment (Some "nice") (Some catVideoId) (Some bobId))
        (envWith niceCommentId) published.

(** Bob likes his comment, never the video. *)
Definition commentLiked : World :=
  serve (ToggleCommentLike (Some niceCommentId) (Some bobId))
        (envWith "e00000000000000000000005") commented.

(** Bob likes the video, then the comment. *)
Definition bothLiked : World :=
  serve (ToggleCommentLike (Some niceCommentId) (Some bobId))
        (envWith "e00000000000000000000006")
        (serve (ToggleVideoLike (Some catVideoId) (Some bobId))
               (envWith "e00000000000000000000005") commented).

(** The document Alice's video is stored as. *)
Definition catVideo : VideoDoc.t :=
  VideoDoc.mk catVideoId "Cats" "A cat video" (Some "http://media/cat-video")
    (Some "cat-video") (Some "http://media/cat-thumb") (Some "cat-thumb")
    (Some 12%Z) 0%Z true (Some aliceId) 1000%Z 1000%Z.

(** Alice's account is removed from the User collection; her video
    stays. *)
Definition orphaned : World := write User [bob] published.

(** Alice replaces the video file and the thumbnail of her video; the
    media store takes the video file and refuses the thumbnail. *)
Definition replacing : World :=
  setTempFiles ["public/temp/cat2.mp4"; "public/temp/cat2.png"] published.

Definition thumbnailRefused : Env :=
  {| newId := ""; now := 2000%Z;
     videoUpload := stored "cat-video-2"; thumbnailUpload := None |}.

Definition replaceBoth : Handler (HttpResponse VideoDoc.t) :=
  updateVideo (Some catVideoId) None None (Some "public/temp/cat2.mp4")
    (Some "public/temp/cat2.png") (Some aliceId) thumbnailRefused.

(** Bob subscribes to Alice's channel. *)
Definition subscribed : World :=
  serve (ToggleSubscription (Some aliceId) (Some bobId))
        (envWith "f00000000000000000000008") twoUsers.

(* ================================================================== *)
(** * Lemmas on the list operations behind the model methods *)

Section ListOps.
Context {D : Type}.

Lemma removeFirst_incl (q : D -> bool) l x :
  In x (removeFirst q l) -> In x l.
Proof.
  induction l as [|d r IH]; simpl; [tauto|].
  destruct (q d); simpl; intuition.
Qed.

Lemma removeFirst_keeps (q : D -> bool) l x :
  In x l -> q x = false -> In x (removeFirst q l).
Proof.
  induction l as [|d r IH]; simpl; [tauto|].
  intros [->|Hin] Hq.
  - rewrite Hq. now left.
  - destruct (q d); [assumption|]. right. now apply IH.
Qed.

Lemma updateFirst_In (q : D -> bool) (f : D -> D) l x :
  In x l -> In x (updateFirst q f l) \/ In (f x) (updateFirst q f l).
Proof.
  induction l as [|d r IH]; simpl; [tauto|].
  intros [->|Hin].
  - destruct (q x); simpl; tauto.
  - destruct (q d); simpl; [tauto|]. destruct (IH Hin); tauto.
Qed.

Lemma length_removeFirst (q : D -> bool) l :
  List.length (removeFirst q l)
  = List.length l - (if existsb q l then 1 else 0).
Proof.
  induction l as [|d r IH]; simpl; [reflexivity|].
  destruct (q d); simpl; [lia|]. rewrite IH.
  destruct (existsb q r) eqn:E; [|lia].
  destruct r; [discriminate|simpl; lia].
Qed.

Lemma length_filter_split (q : D -> bool) l :
  List.length (filter (fun d => negb (q d)) l) + List.length (filter q l)
  = List.length l.
Proof.
  induction l as [|d r IH]; simpl; [reflexivity|].
  destruct (q d); simpl; lia.
Qed.

Context {K : Type} (key : D -> K).

Lemma NoDup_map_removeFirst (q : D -> bool) l :
  NoDup (map key l) -> NoDup (map key (removeFirst q l)).
Proof.
  induction l as [|d r IH]; simpl; intros H; [assumption|].
  inversion H as [|? ? Hnin Hnd]; subst.
  destruct (q d); [assumption|]. simpl. constructor; [|now apply IH].
  intros Hin. apply Hnin. apply in_map_iff in Hin as (y & Hy & Hiny).
  apply in_map_iff. exists y. split; [assumption|].
  eapply removeFirst_incl; eassumption.
Qed.

Lemma NoDup_map_filter (q : D -> bool) l :
  NoDup (map key l) -> NoDup (map key (filter q l)).
Proof.
  induction l as [|d r IH]; simpl; intros H; [assumption|].
  inversion H as [|? ? Hnin Hnd]; subst.
  destruct (q d); [|now apply IH]. simpl. constructor; [|now apply IH].
  intros Hin. apply Hnin. apply in_map_iff in Hin as (y & Hy & Hiny).
  apply in_map_iff. exists y. split; [assumption|].
  apply filter_In in Hiny. tauto.
Qed.

Lemma NoDup_map_snoc l d :
  NoDup (map key l) -> ~ In (key d) (map key l) ->
  NoDup (map key (l ++ [d])).
Proof.
  intros Hnd Hnin. rewrite map_app. simpl.
  apply NoDup_app; [assumption | repeat constructor; simpl; tauto |].
  intros k Hk [<-|[]]. contradiction.
Qed.

Lemma map_updateFirst (q : D -> bool) (f : D -> D) l :
  (forall d, key (f d) = key d) ->
  map key (updateFirst q f l) = map key l.
Proof.
  intros Hf. induction l as [|d r IH]; simpl; [reflexivity|].
  destruct (q d); simpl; [now rewrite Hf | now rewrite IH].
Qed.

End ListOps.

(* ================================================================== *)
(** * The invariant is maintained *)

Lemma refIs_true r i : refIs r i = true <-> r = Some i.
Proof.
  destruct r as [j|]; simpl; [|split; discriminate].
  unfold ObjectId.eqb. rewrite String.eqb_eq. split; congruence.
Qed.

Lemma refIs_false r i : refIs r i = false <-> r <> Some i.
Proof.
  rewrite <- refIs_true. destruct (refIs r i); split; congruence.
Qed.

Lemma hasId_true {D} (C : Collection D) i d :
  hasId C i d = true <-> idOf C d = i.
Proof. unfold hasId, ObjectId.eqb. apply String.eqb_eq. Qed.

Lemma hasId_false {D} (C : Collection D) i d :
  hasId C i d = false <-> idOf C d <> i.
Proof. unfold hasId, ObjectId.eqb. apply String.eqb_neq. Qed.

Lemma no_doc_with_id {D} (C : Collection D) i l :
  existsb (hasId C i) l = false -> ~ In i (map (idOf C) l).
Proof.
  intros He Hin. apply in_map_iff in Hin as (d & Hd & Hin).
  assert (existsb (hasId C i) l = true); [|congruence].
  apply existsb_exists. exists d. split; [assumption|].
  now apply hasId_true.
Qed.

Section Maintained.
Variables (vs : list VideoDoc.t) (cs : list CommentDoc.t)
          (ls : list LikeDoc.t) (ss : list SubscriptionDoc.t).
Hypothesis H : InvOn vs cs ls ss.

Lemma InvOn_fewer_likes ls' :
  (forall K (key : LikeDoc.t -> K),
      NoDup (map key ls) -> NoDup (map key ls')) ->
  (forall l, In l ls' -> In l ls) ->
  InvOn vs cs ls' ss.
Proof.
  intros Hnd Hin. destruct H as [Nv Nc Nl Ns Lv Lc Lu]. constructor; auto.
Qed.

Lemma InvOn_unlike q : InvOn vs cs (removeFirst q ls) ss.
Proof.
  apply InvOn_fewer_likes.
  - intros. now apply NoDup_map_removeFirst.
  - intros l. apply removeFirst_incl.
Qed.

Lemma InvOn_video_like i vid u :
  existsb (hasId Like i) ls = false ->
  find (fun l => refIs (LikeDoc.video l) vid
                 && ObjectId.eqb (LikeDoc.likedBy l) u) ls = None ->
  InvOn vs cs (ls ++ [LikeDoc.mk i (Some vid) None u]) ss.
Proof.
  intros Hid Hnone. destruct H as [Nv Nc Nl Ns Lv Lc Lu]. constructor; auto.
  - apply NoDup_map_snoc; [assumption|].
    apply (no_doc_with_id Like). assumption.
  - intros l [Hl|[<-|[]]]%in_app_iff; [auto | discriminate].
  - intros l c [Hl|[<-|[]]]%in_app_iff; [auto | discriminate].
  - apply NoDup_map_snoc; [assumption|].
    intros (l & Hk & Hl)%in_map_iff.
    pose proof (find_none _ _ Hnone l Hl) as Hq. simpl in Hq.
    unfold likeKey, likeTarget in Hk. simpl in Hk.
    destruct (LikeDoc.comment l); [discriminate|].
    injection Hk as Hu Hv. rewrite Hv, Hu in Hq. simpl in Hq.
    unfold ObjectId.eqb in Hq. rewrite !String.eqb_refl in Hq. discriminate.
Qed.

Lemma InvOn_comment_like i cid c u :
  existsb (hasId Like i) ls = false ->
  find (hasId Comment cid) cs = Some c ->
  find (fun l => refIs (LikeDoc.comment l) cid
                 && ObjectId.eqb (LikeDoc.likedBy l) u) ls = None ->
  InvOn vs cs
    (ls ++ [LikeDoc.mk i (Some (CommentDoc.video c)) (Some cid) u]) ss.
Proof.
  intros Hid Hc Hnone. destruct H as [Nv Nc Nl Ns Lv Lc Lu]. constructor; auto.
  - apply NoDup_map_snoc; [assumption|].
    apply (no_doc_with_id Like). assumption.
  - intros l [Hl|[<-|[]]]%in_app_iff; [auto | discriminate].
  - intros l c' [Hl|[<-|[]]]%in_app_iff; [auto|]. simpl.
    intros [= <-]. apply find_some in Hc as [Hin Hc].
    exists c. repeat split; [assumption|]. now apply (hasId_true Comment).
  - apply NoDup_map_snoc; [assumption|].
    intros (l & Hk & Hl)%in_map_iff.
    pose proof (find_none _ _ Hnone l Hl) as Hq. simpl in Hq.
    unfold likeKey, likeTarget in Hk. simpl in Hk.
    destruct (LikeDoc.comment l); [|discriminate].
    injection Hk as Hu Hv. rewrite Hv, Hu in Hq. simpl in Hq.
    unfold ObjectId.eqb in Hq. rewrite !String.eqb_refl in Hq. discriminate.
Qed.

Lemma InvOn_videos vs' :
  NoDup (map VideoDoc._id vs') -> InvOn vs' cs ls ss.
Proof. intros Hnd. destruct H as [Nv Nc Nl Ns Lv Lc Lu]. constructor; auto. Qed.

Lemma InvOn_subscriptions ss' :
  NoDup (map SubscriptionDoc._id ss') -> InvOn vs cs ls ss'.
Proof. intros Hnd. destruct H as [Nv Nc Nl Ns Lv Lc Lu]. constructor; auto. Qed.

Lemma InvOn_comment_added c :
  existsb (hasId Comment (CommentDoc._id c)) cs = false ->
  InvOn vs (cs ++ [c]) ls ss.
Proof.
  intros Hid. destruct H as [Nv Nc Nl Ns Lv Lc Lu]. constructor; auto.
  - apply NoDup_map_snoc; [assumption|].
    apply (no_doc_with_id Comment). assumption.
  - intros l k Hl Hk. destruct (Lc l k Hl Hk) as (cd & ? & ?).
    exists cd. split; [apply in_app_iff; now left | assumption].
Qed.

Lemma InvOn_comment_edited q s :
  InvOn vs (updateFirst q (setContent s) cs) ls ss.
Proof.
  destruct H as [Nv Nc Nl Ns Lv Lc Lu]. constructor; auto.
  - rewrite map_updateFirst; [assumption | reflexivity].
  - intros l k Hl Hk.
    destruct (Lc l k Hl Hk) as (cd & Hin & Hid & Hv).
    destruct (updateFirst_In q (setContent s) _ _ Hin) as [Hin'|Hin'].
    + exists cd. auto.
    + exists (setContent s cd). auto.
Qed.

Lemma InvOn_comment_deleted cid :
  InvOn vs (removeFirst (hasId Comment cid) cs)
    (filter (fun l => negb (refIs (LikeDoc.comment l) cid)) ls) ss.
Proof.
  destruct H as [Nv Nc Nl Ns Lv Lc Lu]. constructor; auto.
  - now apply NoDup_map_removeFirst.
  - now apply NoDup_map_filter.
  - intros l [Hl _]%filter_In. auto.
  - intros l k [Hl Hq]%filter_In Hk.
    destruct (Lc l k Hl Hk) as (cd & Hin & Hid & Hv).
    exists cd. repeat split; try assumption.
    apply removeFirst_keeps; [assumption|].
    apply (hasId_false Comment). simpl. rewrite Hid.
    rewrite Hk in Hq. apply negb_true_iff, refIs_false in Hq. congruence.
  - now apply NoDup_map_filter.
Qed.

Lemma InvOn_video_deleted vid :
  InvOn (removeFirst (hasId Video vid) vs)
    (filter (fun c => negb (ObjectId.eqb (CommentDoc.video c) vid)) cs)
    (filter (fun l => negb (refIs (LikeDoc.video l) vid)) ls) ss.
Proof.
  destruct H as [Nv Nc Nl Ns Lv Lc Lu]. constructor; auto.
  - now apply NoDup_map_removeFirst.
  - now apply NoDup_map_filter.
  - now apply NoDup_map_filter.
  - intros l [Hl _]%filter_In. auto.
  - intros l k [Hl Hq]%filter_In Hk.
    destruct (Lc l k Hl Hk) as (cd & Hin & Hid & Hv).
    exists cd. repeat split; try assumption.
    apply filter_In. split; [assumption|].
    rewrite Hv in Hq. exact Hq.
  - now apply NoDup_map_filter.
Qed.

End Maintained.

(** Case analysis on the outermost test of a handler, innermost
    scrutinee first. *)
Ltac break :=
  repeat (cbv beta iota delta [fst snd];
          match goal with
          | |- context [match ?x with _ => _ end] =>
              match x with
              | context [match _ with _ => _ end] => fail 1
              | _ => destruct x eqn:?
              end
          end).

Ltac run_handler :=
  cbv [bind try_catch findById findOne deleteOne deleteMany create
       findByIdAndUpdate aggregate json ret throw when_ notOwnedBy
       uploadOnCloudinary deleteFromCloudinary uploaderUpload
       uploaderDestroy existsSync unlinkSync replaceVideoFile
       replaceThumbnail];
  break; simpl.

Lemma NoDup_ids_created {D} (C : Collection D) d l :
  NoDup (map (idOf C) l) -> existsb (hasId C (idOf C d)) l = false ->
  NoDup (map (idOf C) (l ++ [d])).
Proof.
  intros Hnd He. apply NoDup_map_snoc; [assumption|].
  now apply no_doc_with_id.
Qed.

Ltac inv_leaf :=
  unfold Inv in *; simpl in *;
  first
    [ assumption
    | apply InvOn_unlike; assumption
    | apply InvOn_video_like; assumption
    | eapply InvOn_comment_like; eassumption
    | apply InvOn_comment_added; assumption
    | apply InvOn_comment_edited; assumption
    | apply InvOn_comment_deleted; assumption
    | apply InvOn_video_deleted; assumption
    | match goal with
      | H : InvOn _ _ _ _ |- _ =>
          apply (InvOn_videos H);
          first
            [ rewrite map_updateFirst; [|reflexivity]
            | apply (NoDup_ids_created Video); [|assumption]
            | apply NoDup_map_removeFirst ];
          apply (inv_video_ids H)
      end
    | match goal with
      | H : InvOn _ _ _ _ |- _ =>
          apply (InvOn_subscriptions H);
          first
            [ apply (NoDup_ids_created Subscription); [|assumption]
            | apply NoDup_map_removeFirst ];
          apply (inv_subscription_ids H)
      end ].

Lemma toggleVideoLike_Inv v u env w :
  Inv w -> Inv (fst (toggleVideoLike v u env w)).
Proof. intros H. unfold toggleVideoLike. run_handler; inv_leaf. Qed.

Lemma toggleCommentLike_Inv c u env w :
  Inv w -> Inv (fst (toggleCommentLike c u env w)).
Proof. intros H. unfold toggleCommentLike. run_handler; inv_leaf. Qed.

Lemma getLikedVideos_Inv u w : Inv w -> Inv (fst (getLikedVideos u w)).
Proof. intros H. unfold getLikedVideos. run_handler; inv_leaf. Qed.

Lemma publishAVideo_Inv t d vp tp u env w :
  Inv w -> Inv (fst (publishAVideo t d vp tp u env w)).
Proof. intros H. unfold publishAVideo. run_handler; inv_leaf. Qed.

Lemma getVideoById_Inv v env w : Inv w -> Inv (fst (getVideoById v env w)).
Proof. intros H. unfold getVideoById. run_handler; inv_leaf. Qed.

Lemma updateVideo_Inv v t d vp tp u env w :
  Inv w -> Inv (fst (updateVideo v t d vp tp u env w)).
Proof. intros H. unfold updateVideo. run_handler; inv_leaf. Qed.

Lemma deleteVideo_Inv v u w : Inv w -> Inv (fst (deleteVideo v u w)).
Proof. intros H. unfold deleteVideo. run_handler; inv_leaf. Qed.

Lemma togglePublishStatus_Inv v u env w :
  Inv w -> Inv (fst (togglePublishStatus v u env w)).
Proof. intros H. unfold togglePublishStatus. run_handler; inv_leaf. Qed.

Lemma addComment_Inv c v u env w :
  Inv w -> Inv (fst (addComment c v u env w)).
Proof. intros H. unfold addComment. run_handler; inv_leaf. Qed.

Lemma updateComment_Inv c i u w :
  Inv w -> Inv (fst (updateComment c i u w)).
Proof. intros H. unfold updateComment. run_handler; inv_leaf. Qed.

Lemma deleteComment_Inv i u w : Inv w -> Inv (fst (deleteComment i u w)).
Proof. intros H. unfold deleteComment. run_handler; inv_leaf. Qed.

Lemma toggleSubscription_Inv c u env w :
  Inv w -> Inv (fst (toggleSubscription c u env w)).
Proof. intros H. unfold toggleSubscription. run_handler; inv_leaf. Qed.

Lemma getUserChannelSubscribers_Inv c w :
  Inv w -> Inv (fst (getUserChannelSubscribers c w)).
Proof. intros H. unfold getUserChannelSubscribers. run_handler; inv_leaf. Qed.

Lemma getSubscribedChannels_Inv s w :
  Inv w -> Inv (fst (getSubscribedChannels s w)).
Proof. intros H. unfold getSubscribedChannels. run_handler; inv_leaf. Qed.

Lemma serve_Inv r env w : Inv w -> Inv (serve r env w).
Proof.
  destruct r; simpl;
    auto using toggleVideoLike_Inv, toggleCommentLike_Inv, getLikedVideos_Inv,
      publishAVideo_Inv, getVideoById_Inv, updateVideo_Inv, deleteVideo_Inv,
      togglePublishStatus_Inv, addComment_Inv, updateComment_Inv,
      deleteComment_Inv, toggleSubscription_Inv,
      getUserChannelSubscribers_Inv, getSubscribedChannels_Inv.
Qed.

Lemma emptyWorld_Inv : Inv emptyWorld.
Proof.
  constructor; simpl; try constructor; try contradiction.
Qed.

(** Every world the controllers can produce satisfies the invariant. *)
Lemma reachable_Inv w : reachable w -> Inv w.
Proof.
  induction 1 as [|w r env _ IH|w us _ IH|w fs _ IH].
  - apply emptyWorld_Inv.
  - now apply serve_Inv.
  - exact IH.
  - exact IH.
Qed.

Ltac reach :=
  repeat first [ apply reach_serve | apply reach_users | apply reach_temp ];
  apply reach_empty.

Lemma published_reachable : reachable published.
Proof. unfold published, twoUsers. reach. Qed.

Lemma commented_reachable : reachable commented.
Proof. unfold commented, published, twoUsers. reach. Qed.

Lemma commentLiked_reachable : reachable commentLiked.
Proof. unfold commentLiked, commented, published, twoUsers. reach. Qed.

Lemma bothLiked_reachable : reachable bothLiked.
Proof. unfold bothLiked, commented, published, twoUsers. reach. Qed.

Example commentLiked_likes :
  likes commentLiked
  = [LikeDoc.mk "e00000000000000000000005" (Some catVideoId)
       (Some niceCommentId) bobId].
Proof. vm_compute. reflexivity. Qed.

(* ================================================================== *)
(** * The Like records *)

(** C1, as amended.  In every world the controllers produce when they
    serve one request after the other, every Like record has its video
    reference set, and a Like of a comment points to a stored comment
    and carries that comment's video, so that both of its references
    are set; no liker has two Likes of the same target.  And in every
    world, the Like that [toggleCommentLike] creates when it finds no
    Like of this comment by this liker has its comment reference set and
    its video reference set to the comment's video. *)
Theorem toggleCommentLike_denormalizes_video :
  (forall w, reachable w ->
     (forall l, In l (likes w) ->
        exists v, LikeDoc.video l = Some v
          /\ (LikeDoc.comment l = None
              \/ exists cd, In cd (comments w)
                   /\ LikeDoc.comment l = Some (CommentDoc._id cd)
                   /\ CommentDoc.video cd = v))
     /\ NoDup (map likeKey (likes w)))
  /\ (forall w commentId u env c,
        falsy commentId = false ->
        ObjectId.isValid commentId = true ->
        find (hasId Comment (ObjectId.cast commentId)) (comments w) = Some c ->
        find (fun l => refIs (LikeDoc.comment l) (ObjectId.cast commentId)
                       && ObjectId.eqb (LikeDoc.likedBy l) u) (likes w)
        = None ->
        existsb (hasId Like (newId env)) (likes w) = false ->
        toggleCommentLike commentId (Some u) env w
        = (write Like
             (likes w ++ [LikeDoc.mk (newId env) (Some (CommentDoc.video c))
                            (Some (ObjectId.cast commentId)) u]) w,
           inr {| status := 200;
                  body := {| statusCode := 200;
                             data := {| isLiked := true |};
                             message := "comment liked successfully" |} |})).
Proof.
  split.
  - intros w Hr. pose proof (reachable_Inv Hr) as HI. split.
    + intros l Hin. destruct (LikeDoc.video l) as [v|] eqn:Ev.
      * exists v. split; [reflexivity|].
        destruct (LikeDoc.comment l) as [k|] eqn:Ek; [right | now left].
        destruct (inv_comment_like HI l Hin Ek) as (cd & Hcd & Hk & Hvd).
        exists cd. repeat split; congruence.
      * exfalso. exact (inv_like_video HI l Hin Ev).
    + exact (inv_like_unique HI).
  - intros w commentId u env c Hf Hv Hc Hl Hid.
    unfold toggleCommentLike. rewrite Hf, Hv. cbn [negb].
    cbv [bind findById findOne create json ret throw].
    cbn [docs Comment Like idOf LikeDoc._id]. rewrite Hc, Hl, Hid.
    reflexivity.
Qed.

Lemma toggleCommentLike_denormalizes_video_witness :
  likes (fst (toggleCommentLike (Some niceCommentId) (Some bobId)
                (envWith "e00000000000000000000005") commented))
  = [LikeDoc.mk "e00000000000000000000005" (Some catVideoId)
       (Some niceCommentId) bobId]
  /\ NoDup (map likeKey (likes bothLiked)).
Proof.
  destruct toggleCommentLike_denormalizes_video as [Hinv Htoggle].
  split.
  - rewrite (Htoggle commented (Some niceCommentId) bobId
               (envWith "e00000000000000000000005")
               (CommentDoc.mk niceCommentId "nice" catVideoId bobId)
               eq_refl eq_refl eq_refl eq_refl eq_refl).
    reflexivity.
  - exact (proj2 (Hinv bothLiked bothLiked_reachable)).
Defined.

(** C1, as stated, fails: the Like that [toggleCommentLike] creates has
    both its comment reference and its video reference set. *)
Lemma comment_like_has_both_references :
  reachable commentLiked
  /\ likes commentLiked
     = [LikeDoc.mk "e00000000000000000000005" (Some catVideoId)
          (Some niceCommentId) bobId]
  /\ find (fun l => refIs (LikeDoc.comment l) niceCommentId
                    && ObjectId.eqb (LikeDoc.likedBy l) bobId)
       (likes commented) = None.
Proof.
  split; [exact commentLiked_reachable|]. split; vm_compute; reflexivity.
Qed.


Lemma NoDup_map_injective {D K} (key : D -> K) l x y :
  NoDup (map key l) -> In x l -> In y l -> key x = key y -> x = y.
Proof.
  induction l as [|d r IH]; simpl; [tauto|].
  intros Hnd Hx Hy E. inversion Hnd as [|? ? Hnin Hnd']; subst.
  destruct Hx as [->|Hx], Hy as [->|Hy]; auto.
  - exfalso. apply Hnin. rewrite E. now apply in_map.
  - exfalso. apply Hnin. rewrite <- E. now apply in_map.
Qed.

(** With unique ids, deleting by id removes the document and nothing
    else. *)
Lemma removeFirst_by_id {D} (C : Collection D) l d x :
  NoDup (map (idOf C) l) -> In d l ->
  In x (removeFirst (hasId C (idOf C d)) l) <-> In x l /\ x <> d.
Proof.
  intros Hnd Hd. induction l as [|a r IH]; simpl; [tauto|].
  inversion Hnd as [|? ? Hnin Hnd']; subst.
  destruct (hasId C (idOf C d) a) eqn:E.
  - apply hasId_true in E.
    assert (a = d) as -> by
      (eapply NoDup_map_injective; [exact Hnd | now left | exact Hd | exact E]).
    split.
    + intros Hx. split; [now right|]. intros ->. apply Hnin. now apply in_map.
    + intros [[->|Hx] Hne]; [congruence | assumption].
  - apply hasId_false in E. destruct Hd as [->|Hd]; [congruence|].
    simpl. rewrite (IH Hnd' Hd). split.
    + intros [->|[Hx Hne]]; [|tauto]. split; [now left | congruence].
    + intros [[->|Hx] Hne]; tauto.
Qed.

(** C9.  [toggleVideoLike] looks for a Like by video reference and
    liker alone.  When the caller's only Like that carries the video
    reference V is a Like of a comment of V, [toggleVideoLike(V)]
    deletes that Like of the comment, answers [isLiked = false], and
    creates no Like of the video. *)
Theorem toggleVideoLike_deletes_comment_like w videoId u env v l c :
  reachable w ->
  falsy videoId = false ->
  ObjectId.isValid videoId = true ->
  find (hasId Video (ObjectId.cast videoId)) (videos w) = Some v ->
  In l (likes w) ->
  LikeDoc.video l = Some (ObjectId.cast videoId) ->
  LikeDoc.likedBy l = u ->
  LikeDoc.comment l = Some c ->
  (forall l', In l' (likes w) ->
     LikeDoc.video l' = Some (ObjectId.cast videoId) ->
     LikeDoc.likedBy l' = u -> l' = l) ->
  (exists cd, In cd (comments w) /\ CommentDoc._id cd = c
              /\ CommentDoc.video cd = ObjectId.cast videoId)
  /\ snd (toggleVideoLike videoId (Some u) env w)
     = inr {| status := 200;
              body := {| statusCode := 200;
                         data := {| isLiked := false |};
                         message := "Video unliked successfully" |} |}
  /\ (forall x, In x (likes (fst (toggleVideoLike videoId (Some u) env w)))
        <-> In x (likes w) /\ x <> l)
  /\ (forall x, In x (likes (fst (toggleVideoLike videoId (Some u) env w))) ->
        LikeDoc.likedBy x = u ->
        LikeDoc.video x <> Some (ObjectId.cast videoId)).
Proof.
  intros Hr Hf Hv Hvid Hl Hlv Hlu Hlc Honly.
  pose proof (reachable_Inv Hr) as HI.
  assert (find (fun x => refIs (LikeDoc.video x) (ObjectId.cast videoId)
                         && ObjectId.eqb (LikeDoc.likedBy x) u) (likes w)
          = Some l) as Hfind.
  { destruct (find _ (likes w)) as [l'|] eqn:E.
    - apply find_some in E as [Hin Hq].
      apply andb_true_iff in Hq as [Hq1 Hq2].
      apply refIs_true in Hq1. apply String.eqb_eq in Hq2.
      f_equal. now apply Honly.
    - pose proof (find_none _ _ E l Hl) as Hq. simpl in Hq.
      rewrite Hlv, Hlu in Hq. simpl in Hq. unfold ObjectId.eqb in Hq.
      rewrite !String.eqb_refl in Hq. discriminate. }
  assert (forall x,
    In x (likes (fst (toggleVideoLike videoId (Some u) env w)))
    <-> In x (likes w) /\ x <> l) as Hafter.
  { intros x. unfold toggleVideoLike. rewrite Hf, Hv. cbn [negb].
    cbv [bind findById findOne deleteOne json ret throw].
    cbn [docs Video Like]. rewrite Hvid, Hfind. cbn.
    apply (removeFirst_by_id Like); [exact (inv_like_ids HI) | exact Hl]. }
  split; [|split; [|split]].
  - destruct (inv_comment_like HI l Hl Hlc) as (cd & Hcd & Hk & Hvd).
    exists cd. repeat split; congruence.
  - unfold toggleVideoLike. rewrite Hf, Hv. cbn [negb].
    cbv [bind findById findOne deleteOne json ret throw].
    cbn [docs Video Like]. rewrite Hvid, Hfind. reflexivity.
  - exact Hafter.
  - intros x Hx Hxu Hxv. apply Hafter in Hx as [Hx Hne].
    apply Hne. now apply Honly.
Qed.

Lemma toggleVideoLike_deletes_comment_like_witness :
  snd (toggleVideoLike (Some catVideoId) (Some bobId)
         (envWith "e00000000000000000000007") commentLiked)
  = inr {| status := 200;
           body := {| statusCode := 200;
                      data := {| isLiked := false |};
                      message := "Video unliked successfully" |} |}.
Proof.
  refine (proj1 (proj2 (@toggleVideoLike_deletes_comment_like
    commentLiked (Some catVideoId) bobId (envWith "e00000000000000000000007")
    catVideo
    (LikeDoc.mk "e00000000000000000000005" (Some catVideoId)
       (Some niceCommentId) bobId)
    niceCommentId
    commentLiked_reachable eq_refl eq_refl eq_refl _ eq_refl eq_refl eq_refl _))).
  - vm_compute. left. reflexivity.
  - intros l' Hin _ _. vm_compute in Hin. destruct Hin as [<-|[]]. reflexivity.
Defined.

(** C4 at the failing input: Bob has liked Alice's video and his own
    comment on it.  Two successive calls of [toggleVideoLike] both
    answer [isLiked = false] and delete first the Like of the video,
    then the Like of the comment: the Like of the video existed before
    the two calls and does not exist after them. *)
Theorem double_toggle_deletes_two_likes :
  reachable bothLiked
  /\ likes bothLiked
     = [LikeDoc.mk "e00000000000000000000005" (Some catVideoId) None bobId;
        LikeDoc.mk "e00000000000000000000006" (Some catVideoId)
          (Some niceCommentId) bobId]
  /\ (let toggle := toggleVideoLike (Some catVideoId) (Some bobId)
                      (envWith "e00000000000000000000007") in
      let once := toggle bothLiked in
      let twice := toggle (fst once) in
      option_map (fun r => isLiked (data (body r)))
        (match snd once with inr r => Some r | inl _ => None end) = Some false
      /\ likes (fst once)
         = [LikeDoc.mk "e00000000000000000000006" (Some catVideoId)
              (Some niceCommentId) bobId]
      /\ option_map (fun r => isLiked (data (body r)))
           (match snd twice with inr r => Some r | inl _ => None end)
         = Some false
      /\ likes (fst twice) = []).
Proof.
  split; [exact bothLiked_reachable|]. vm_compute. repeat split.
Qed.

(** C2 at the failing input: Bob has liked his comment on Alice's video
    and never the video; [getLikedVideos] lists the video all the
    same. *)
Theorem getLikedVideos_lists_video_of_liked_comment :
  reachable commentLiked
  /\ likes commentLiked
     = [LikeDoc.mk "e00000000000000000000005" (Some catVideoId)
          (Some niceCommentId) bobId]
  /\ option_map (fun r => map LikedVideo._id (data (body r)))
       (match snd (getLikedVideos (Some bobId) commentLiked) with
        | inr r => Some r
        | inl _ => None
        end)
     = Some [catVideoId].
Proof.
  split; [exact commentLiked_reachable|]. vm_compute. split; reflexivity.
Qed.

(* ================================================================== *)
(** * Deleting a video *)

(** In the worlds the controllers produce, the Likes of a video's
    comments carry the video's reference, so the filter of
    [deleteVideo] selects every associated Like. *)
Lemma associatedWith_video w vid l :
  Inv w -> In l (likes w) ->
  associatedWith vid (comments w) l = refIs (LikeDoc.video l) vid.
Proof.
  intros HI Hl. unfold associatedWith.
  destruct (refIs (LikeDoc.video l) vid) eqn:E; [reflexivity|]. simpl.
  destruct (existsb _ (comments w)) eqn:Ex; [|reflexivity].
  apply existsb_exists in Ex as (c & Hc & Hq).
  apply andb_true_iff in Hq as [Hv Hk].
  apply String.eqb_eq in Hv. apply refIs_true in Hk.
  destruct (inv_comment_like HI l Hl Hk) as (cd & Hcd & Hid & Hvd).
  assert (cd = c) as ->
    by (eapply NoDup_map_injective;
        [exact (inv_comment_ids HI) | assumption | assumption | exact Hid]).
  apply refIs_false in E. congruence.
Qed.

Lemma find_exists {D} (q : D -> bool) l d :
  find q l = Some d -> existsb q l = true.
Proof.
  intros [Hin Hq]%find_some. apply existsb_exists. eauto.
Qed.

(** C3.  For a stored video V owned by the caller, with N comments on V
    and M Likes associated with V (the Likes that carry V's reference
    and the Likes of V's comments), [deleteVideo(V)] succeeds and
    removes exactly the N comments, exactly the M Likes and exactly the
    one Video row; no Like that remains references V or one of V's
    former comments. *)
Theorem deleteVideo_cascades w videoId caller v :
  reachable w ->
  falsy videoId = false ->
  ObjectId.isValid videoId = true ->
  find (hasId Video (ObjectId.cast videoId)) (videos w) = Some v ->
  VideoDoc.owner v = Some caller ->
  let vid := ObjectId.cast videoId in
  let N := List.length
             (filter (fun c => ObjectId.eqb (CommentDoc.video c) vid)
                (comments w)) in
  let M := List.length (filter (associatedWith vid (comments w)) (likes w)) in
  let w' := fst (deleteVideo videoId (Some caller) w) in
  snd (deleteVideo videoId (Some caller) w)
  = inr {| status := 200;
           body := {| statusCode := 200;
                      data := {| deletedCount := 1 |};
                      message := "Video deleted successfully" |} |}
  /\ List.length (comments w') + N = List.length (comments w)
  /\ List.length (likes w') + M = List.length (likes w)
  /\ List.length (videos w') + 1 = List.length (videos w)
  /\ (forall x, In x (videos w') <-> In x (videos w) /\ x <> v)
  /\ (forall c, In c (comments w')
        <-> In c (comments w) /\ CommentDoc.video c <> vid)
  /\ (forall l, In l (likes w')
        <-> In l (likes w) /\ associatedWith vid (comments w) l = false).
Proof.
  intros Hr Hf Hv Hfind Hown vid N M w'.
  pose proof (reachable_Inv Hr) as HI.
  pose proof (find_exists _ _ Hfind) as Hex.
  change (ObjectId.cast videoId) with vid in Hfind, Hex.
  assert (snd (deleteVideo videoId (Some caller) w)
          = inr {| status := 200;
                   body := {| statusCode := 200;
                              data := {| deletedCount := 1 |};
                              message := "Video deleted successfully" |} |}
          /\ videos w' = removeFirst (hasId Video vid) (videos w)
          /\ comments w'
             = filter (fun c => negb (ObjectId.eqb (CommentDoc.video c) vid))
                 (comments w)
          /\ likes w'
             = filter (fun l => negb (refIs (LikeDoc.video l) vid)) (likes w))
    as (Hres & Hvs & Hcs & Hls).
  { subst w'. unfold deleteVideo. rewrite Hf, Hv. cbn [negb].
    change (ObjectId.cast videoId) with vid.
    cbv [bind findById findOne deleteOne deleteMany json ret throw when_
         notOwnedBy deleteFromCloudinary uploaderDestroy].
    cbn [docs Video]. rewrite Hfind, Hown.
    unfold ObjectId.toString. rewrite String.eqb_refl. cbn [negb].
    destruct (truthy (VideoDoc.videoPublicId v)) eqn:E1;
      [destruct (VideoDoc.videoPublicId v) as [p|]; [|discriminate];
       unfold truthy in E1; apply negb_true_iff in E1; rewrite E1|];
    (destruct (truthy (VideoDoc.thumbnailPublicId v)) eqn:E2;
      [destruct (VideoDoc.thumbnailPublicId v) as [p'|]; [|discriminate];
       unfold truthy in E2; apply negb_true_iff in E2; rewrite ?E2|]);
    cbn; rewrite Hex; cbn; auto. }
  split; [exact Hres|]. rewrite Hvs, Hcs, Hls.
  assert (vid = idOf Video v) as Hvid
    by (apply find_some in Hfind as [_ Hq]; apply hasId_true in Hq;
        symmetry; exact Hq).
  repeat split.
  - subst N. apply length_filter_split.
  - subst M.
    rewrite (filter_ext_in (associatedWith vid (comments w))
               (fun l => refIs (LikeDoc.video l) vid));
      [apply length_filter_split|].
    intros l Hl. now apply associatedWith_video.
  - rewrite length_removeFirst, Hex.
    apply find_some in Hfind as [Hin _]. destruct (videos w); [contradiction|].
    simpl. lia.
  - rewrite Hvid in H. apply (removeFirst_by_id Video) in H;
      [tauto | exact (inv_video_ids HI) | now apply find_some in Hfind].
  - rewrite Hvid in H. apply (removeFirst_by_id Video) in H;
      [tauto | exact (inv_video_ids HI) | now apply find_some in Hfind].
  - intros [Hx Hne]. rewrite Hvid. apply (removeFirst_by_id Video);
      [exact (inv_video_ids HI) | now apply find_some in Hfind | tauto].
  - now apply filter_In in H.
  - apply filter_In in H as [_ Hq]. apply negb_true_iff in Hq.
    now apply String.eqb_neq in Hq.
  - intros [Hc Hne]. apply filter_In. split; [assumption|].
    apply negb_true_iff. now apply String.eqb_neq.
  - now apply filter_In in H.
  - apply filter_In in H as [Hl Hq]. rewrite associatedWith_video by assumption.
    now apply negb_true_iff.
  - intros [Hl Hq]. apply filter_In. split; [assumption|].
    rewrite associatedWith_video in Hq by assumption. now apply negb_true_iff.
Qed.

Lemma deleteVideo_cascades_witness :
  let w' := fst (deleteVideo (Some catVideoId) (Some aliceId) bothLiked) in
  List.length (comments w') + 1 = 1
  /\ List.length (likes w') + 2 = 2
  /\ List.length (videos w') + 1 = 1.
Proof.
  destruct (@deleteVideo_cascades bothLiked (Some catVideoId) aliceId
    catVideo
    bothLiked_reachable eq_refl eq_refl eq_refl eq_refl)
    as (_ & Hc & Hl & Hv & _).
  exact (conj Hc (conj Hl Hv)).
Defined.

(* ================================================================== *)
(** * Fetching a video counts a view *)

Lemma filter_find {D} (q : D -> bool) l d :
  find q l = Some d -> exists r, filter q l = d :: r.
Proof.
  induction l as [|a r IH]; simpl; [discriminate|].
  destruct (q a) eqn:E.
  - intros [= ->]. eauto.
  - exact IH.
Qed.

Lemma filter_find_none {D} (q : D -> bool) l :
  find q l = None -> filter q l = [].
Proof.
  induction l as [|a r IH]; simpl; [reflexivity|].
  destruct (q a); [discriminate | exact IH].
Qed.

Section UpdateById.
Context {D : Type} (C : Collection D) (f : D -> D).
Hypothesis f_id : forall d, idOf C (f d) = idOf C d.

Lemma find_updateFirst_same i l :
  find (hasId C i) (updateFirst (hasId C i) f l)
  = option_map f (find (hasId C i) l).
Proof.
  induction l as [|a r IH]; simpl; [reflexivity|].
  destruct (hasId C i a) eqn:E; simpl.
  - unfold hasId in *. rewrite f_id, E. reflexivity.
  - rewrite E. exact IH.
Qed.

Lemma find_updateFirst_other i j l :
  i <> j ->
  find (hasId C j) (updateFirst (hasId C i) f l) = find (hasId C j) l.
Proof.
  intros Hne. induction l as [|a r IH]; simpl; [reflexivity|].
  destruct (hasId C i a) eqn:E; simpl.
  - apply hasId_true in E.
    assert (hasId C j (f a) = false) as -> by
      (apply hasId_false; rewrite f_id; congruence).
    assert (hasId C j a = false) as -> by (apply hasId_false; congruence).
    reflexivity.
  - destruct (hasId C j a); [reflexivity | exact IH].
Qed.
End UpdateById.

Lemma owner_filter o l :
  filter (fun u => refIs (Some o) (UserDoc._id u)) l
  = filter (hasId User o) l.
Proof.
  apply filter_ext. intros u. unfold hasId, ObjectId.eqb. simpl.
  apply String.eqb_sym.
Qed.

(** With unique video ids the pipeline joins the one video of this id
    with the User records of its owner. *)
Lemma videoByIdPipeline_joined w vid :
  Inv w ->
  videoByIdPipeline vid w
  = match find (hasId Video vid) (videos w) with
    | Some v =>
        map (detailsOf v)
          (filter (fun u => refIs (VideoDoc.owner v) (UserDoc._id u))
             (users w))
    | None => []
    end.
Proof.
  intros HI. unfold videoByIdPipeline.
  assert (forall v, In v (videos w) -> hasId Video vid v = true ->
            filter (hasId Video vid) (videos w) = [v]) as Hone.
  { pose proof (inv_video_ids HI) as Hnd. clear HI.
    induction (videos w) as [|a r IH]; simpl; [tauto|].
    inversion Hnd as [|? ? Hnin Hnd']; subst.
    intros v [->|Hv] Hq.
    - rewrite Hq. f_equal. apply filter_find_none.
      destruct (find (hasId Video vid) r) as [b|] eqn:E; [|reflexivity].
      apply find_some in E as [Hb Hqb]. exfalso. apply Hnin.
      apply hasId_true in Hq, Hqb. simpl in Hq, Hqb. rewrite Hq, <- Hqb.
      now apply in_map.
    - destruct (hasId Video vid a) eqn:E; [|now apply IH].
      exfalso. apply Hnin. apply hasId_true in Hq, E. simpl in Hq, E.
      rewrite E, <- Hq. now apply in_map. }
  destruct (find (hasId Video vid) (videos w)) as [v|] eqn:Ev.
  - apply find_some in Ev as [Hin Hq]. rewrite (Hone v Hin Hq).
    unfold lookupUnwind. simpl. rewrite app_nil_r, map_map. reflexivity.
  - rewrite (filter_find_none _ _ Ev). reflexivity.
Qed.

(** X29.  What [getVideoById] does, case by case: it fails with 400 on
    a missing or malformed id and with 404 when no video has the id or,
    a defect shown below, when the owner of the video has no
    User record, and leaves the world as it was in these cases.  For
    the id of a stored video whose owner's User record is stored, it
    increments the stored view counter of that video by exactly 1,
    changes no other video, and answers 200 with the video's details
    carrying the incremented counter. *)
Theorem getVideoById_counts_view w videoId env :
  reachable w ->
  let vid := ObjectId.cast videoId in
  let w' := fst (getVideoById videoId env w) in
  let r := snd (getVideoById videoId env w) in
  if falsy videoId || negb (ObjectId.isValid videoId)
  then (exists msg, r = inl (ApiError 400 msg)) /\ w' = w
  else
    match videoWithOwner vid w with
    | None => r = inl (ApiError 404 "Video not found") /\ w' = w
    | Some (v, u) =>
        r = inr {| status := 200;
                   body := {| statusCode := 200;
                              data := withViews (VideoDoc.views v + 1)
                                        (detailsOf v u);
                              message := "Video fetched successfully" |} |}
        /\ (exists v', find (hasId Video vid) (videos w') = Some v'
                       /\ VideoDoc.views v' = (VideoDoc.views v + 1)%Z)
        /\ (forall i, i <> vid ->
              find (hasId Video i) (videos w')
              = find (hasId Video i) (videos w))
        /\ comments w' = comments w /\ likes w' = likes w
    end.
Proof.
  intros Hr vid w' r. pose proof (reachable_Inv Hr) as HI.
  subst w' r. unfold getVideoById.
  destruct (falsy videoId) eqn:Ef; simpl; [eauto|].
  destruct (ObjectId.isValid videoId) eqn:Ev; simpl; [|eauto].
  change (ObjectId.cast videoId) with vid.
  cbv [bind aggregate findByIdAndUpdate json ret throw].
  rewrite (videoByIdPipeline_joined vid HI). unfold videoWithOwner.
  cbn [docs Video].
  destruct (find (hasId Video vid) (videos w)) as [v|] eqn:Efind;
    [|simpl; auto].
  destruct (VideoDoc.owner v) as [o|] eqn:Eo.
  - rewrite owner_filter.
    destruct (find (hasId User o) (users w)) as [u|] eqn:Eu; simpl.
    + destruct (filter_find _ _ Eu) as (rest & ->). simpl. rewrite Efind. simpl.
      split; [reflexivity|]. split; [|split; [|split; reflexivity]].
      * rewrite (find_updateFirst_same Video) by reflexivity.
        rewrite Efind. simpl. eauto.
      * intros i Hne. now apply (find_updateFirst_other Video).
    + rewrite (filter_find_none _ _ Eu). simpl. auto.
  - assert (filter (fun u => refIs None (UserDoc._id u)) (users w) = []) as ->
      by (clear; induction (users w); simpl; auto).
    simpl. auto.
Qed.

Lemma getVideoById_counts_view_witness :
  snd (getVideoById (Some catVideoId) (envWith "") published)
  = inr {| status := 200;
           body := {| statusCode := 200;
                      data := withViews 1 (detailsOf catVideo alice);
                      message := "Video fetched successfully" |} |}.
Proof.
  exact (proj1 (@getVideoById_counts_view published (Some catVideoId)
                  (envWith "") published_reachable)).
Defined.

(** C5 at the failing input: Alice's video is stored under a valid id
    and her User record is gone; [getVideoById] of that id answers 404
    "Video not found", as if the video were absent, and the view
    counter is not incremented. *)
Theorem getVideoById_404_for_stored_video :
  reachable orphaned
  /\ ObjectId.isValid (Some catVideoId) = true
  /\ find (hasId Video catVideoId) (videos orphaned) = Some catVideo
  /\ getVideoById (Some catVideoId) (envWith "") orphaned
     = (orphaned, inl (ApiError 404 "Video not found")).
Proof.
  split; [|repeat split].
  unfold orphaned, published, twoUsers. reach.
Qed.

(* ================================================================== *)
(** * Replacing the media of a video *)

(** The calls a request added to the media store's log. *)
Ltac name_calls :=
  first
    [ exists []; split; [symmetry; apply app_nil_r|]
    | eexists; split; [rewrite <- ?app_assoc; reflexivity|] ].

Ltac in_cases :=
  repeat match goal with
  | H : In _ (_ :: _) |- _ => destruct H as [H|H]
  | H : In _ [] |- _ => destruct H
  | H : In _ (_ ++ _) |- _ => apply in_app_iff in H; destruct H as [H|H]
  | H : CloudDestroy _ _ = CloudDestroy _ _ |- _ =>
      inversion H; subst; clear H
  | H : CloudUpload _ _ = CloudDestroy _ _ |- _ => discriminate H
  | H : _ /\ _ |- _ => destruct H
  end.

Ltac media_leaf :=
  repeat match goal with
  | |- _ /\ _ => split
  | |- forall _, _ => intro
  | |- ~ _ => intro
  end;
  in_cases; subst;
  cbn [docs Video] in *;
  repeat match goal with
  | H1 : find ?q ?l = Some ?a, H2 : find ?q ?l = Some ?b |- _ =>
      rewrite H1 in H2; injection H2 as <-
  end;
  try discriminate; try congruence; try assumption;
  try match goal with
      | |- In _ _ => simpl; intuition congruence
      end;
  try match goal with
      | |- In _ _ =>
          exfalso;
          repeat match goal with
                 | H : ?x = Some _, H' : context [?x] |- _ => rewrite H in H'
                 end;
          unfold falsy in *;
          match goal with
          | H' : negb (String.eqb ?p "") = false |- _ =>
              apply negb_false_iff, String.eqb_eq in H'; congruence
          | H' : String.eqb ?p "" = true |- _ =>
              apply String.eqb_eq in H'; congruence
          end
      end;
  try (eexists; reflexivity);
  try (eexists; split; eassumption);
  try (do 2 eexists; split; reflexivity);
  try (eexists;
       first [ exists []; split; reflexivity
             | eexists (_ :: nil); split; reflexivity
             | eexists (_ :: _ :: nil); split; reflexivity ]).

(** What [uploadOnCloudinary] leaves behind for a path that is not
    empty: the call is logged and no collection is touched; an answer
    of the media store is passed on, a refusal gives [null] or, when
    the temp file is missing, an exception. *)
Lemma uploadOnCloudinary_outcome p answer w :
  falsy (Some p) = false ->
  media (fst (uploadOnCloudinary (Some p) answer w))
  = media w ++ [CloudUpload p answer]
  /\ users (fst (uploadOnCloudinary (Some p) answer w)) = users w
  /\ videos (fst (uploadOnCloudinary (Some p) answer w)) = videos w
  /\ comments (fst (uploadOnCloudinary (Some p) answer w)) = comments w
  /\ likes (fst (uploadOnCloudinary (Some p) answer w)) = likes w
  /\ subscriptions (fst (uploadOnCloudinary (Some p) answer w))
     = subscriptions w
  /\ match answer with
     | Some r => snd (uploadOnCloudinary (Some p) answer w) = inr (Some r)
     | None =>
         snd (uploadOnCloudinary (Some p) answer w) = inr None
         \/ exists e, snd (uploadOnCloudinary (Some p) answer w) = inl e
     end.
Proof.
  intros Hp. unfold uploadOnCloudinary. rewrite Hp.
  cbv [bind try_catch uploaderUpload existsSync unlinkSync when_ ret throw].
  unfold inTemp. cbn [tempFiles logMedia].
  destruct answer as [r|];
    destruct (existsb (String.eqb p) (tempFiles w)) eqn:E;
    cbn; rewrite ?E; cbn; repeat split; eauto.
Qed.

Lemma truthy_Some s : truthy s = true -> exists p, s = Some p.
Proof. destruct s; [eauto | discriminate]. Qed.

Lemma deleteFromCloudinary_run previous rt w :
  when_ (truthy previous) (deleteFromCloudinary previous rt) w
  = ({| users := users w; videos := videos w; comments := comments w;
        likes := likes w; subscriptions := subscriptions w;
        media := media w ++ (if truthy previous
                             then [CloudDestroy (orEmpty previous) rt]
                             else []);
        tempFiles := tempFiles w |}, inr tt).
Proof.
  unfold when_, deleteFromCloudinary, uploaderDestroy, logMedia, ret, truthy.
  destruct previous as [q|]; cbn; [destruct (String.eqb q ""); cbn|];
    rewrite ?app_nil_r; destruct w; reflexivity.
Qed.

(** After the upload of one file: the steps [updateVideo] takes with
    the answer. *)
Ltac after_upload Hu :=
  match type of Hu with
  | context [uploadOnCloudinary ?path ?answer ?w] =>
      destruct Hu as (Hm & Hus & Hvs & Hcs & Hls & Hss & Hres);
      destruct (uploadOnCloudinary path answer w) as [w1 [e|[r|]]];
      cbn [fst snd] in *;
      destruct answer as [r'|];
      try discriminate Hres;
      try (destruct Hres as [Hres|[? Hres]]; discriminate Hres);
      try (injection Hres as ->);
      cbv beta iota delta [throw ret bind];
      [ | destruct (usable (Some r'));
          [rewrite deleteFromCloudinary_run|] | ];
      cbn [fst snd media users videos comments likes subscriptions andb
           app usable];
      rewrite ?Hm, ?Hus, ?Hvs, ?Hcs, ?Hls, ?Hss, <- ?app_assoc;
      cbn [app]; repeat split; eauto
  end.

(** One file of the request: what [updateVideo] asks of the media
    store for it, that it writes to no collection, and whether it goes
    on, and with which fields. *)
Lemma replaceVideoFile_run v vp env f w :
  media (fst (replaceVideoFile v vp env f w))
  = media w ++ replacement vp (videoUpload env) (VideoDoc.videoPublicId v)
                 video_resource
  /\ users (fst (replaceVideoFile v vp env f w)) = users w
  /\ videos (fst (replaceVideoFile v vp env f w)) = videos w
  /\ comments (fst (replaceVideoFile v vp env f w)) = comments w
  /\ likes (fst (replaceVideoFile v vp env f w)) = likes w
  /\ subscriptions (fst (replaceVideoFile v vp env f w)) = subscriptions w
  /\ if accepted vp (videoUpload env)
     then snd (replaceVideoFile v vp env f w)
          = inr (if truthy vp
                 then match videoUpload env with
                      | Some r => assignVideoFile r f
                      | None => f
                      end
                 else f)
     else exists e, snd (replaceVideoFile v vp env f w) = inl e.
Proof.
  unfold replaceVideoFile, replacement, accepted.
  destruct (truthy vp) eqn:T.
  - destruct (truthy_Some _ T) as [p ->].
    assert (falsy (Some p) = false) as Hp
      by (unfold truthy in T; now apply negb_true_iff in T).
    pose proof (@uploadOnCloudinary_outcome p (videoUpload env) w Hp) as Hu.
    cbv beta delta [bind try_catch]. cbn [implb].
    after_upload Hu.
  - destruct vp; cbn [implb]; unfold ret; cbn; rewrite app_nil_r;
      repeat split.
Qed.

Lemma replaceThumbnail_run v tp env f w :
  media (fst (replaceThumbnail v tp env f w))
  = media w ++ replacement tp (thumbnailUpload env)
                 (VideoDoc.thumbnailPublicId v) image_resource
  /\ users (fst (replaceThumbnail v tp env f w)) = users w
  /\ videos (fst (replaceThumbnail v tp env f w)) = videos w
  /\ comments (fst (replaceThumbnail v tp env f w)) = comments w
  /\ likes (fst (replaceThumbnail v tp env f w)) = likes w
  /\ subscriptions (fst (replaceThumbnail v tp env f w)) = subscriptions w
  /\ if accepted tp (thumbnailUpload env)
     then snd (replaceThumbnail v tp env f w)
          = inr (if truthy tp
                 then match thumbnailUpload env with
                      | Some r => assignThumbnail r f
                      | None => f
                      end
                 else f)
     else exists e, snd (replaceThumbnail v tp env f w) = inl e.
Proof.
  unfold replaceThumbnail, replacement, accepted.
  destruct (truthy tp) eqn:T.
  - destruct (truthy_Some _ T) as [p ->].
    assert (falsy (Some p) = false) as Hp
      by (unfold truthy in T; now apply negb_true_iff in T).
    pose proof (@uploadOnCloudinary_outcome p (thumbnailUpload env) w Hp) as Hu.
    cbv beta delta [bind]. cbn [implb].
    after_upload Hu.
  - destruct tp; cbn [implb]; unfold ret; cbn; rewrite app_nil_r;
      repeat split.
Qed.

(** The calls of [updateVideo] to the media store, for a stored video
    and its owner: each file the request has is uploaded, its previous
    asset is deleted right after an upload that is usable, the thumbnail
    is not reached when the video file is not accepted, and the handler
    answers exactly when every file is accepted. *)
Lemma updateVideo_calls videoId title description vp tp o env w v :
  falsy videoId = false ->
  ObjectId.isValid videoId = true ->
  falsy title && falsy description && falsy vp && falsy tp = false ->
  find (hasId Video (ObjectId.cast videoId)) (videos w) = Some v ->
  VideoDoc.owner v = Some o ->
  media (fst (updateVideo videoId title description vp tp (Some o) env w))
  = media w
    ++ replacement vp (videoUpload env) (VideoDoc.videoPublicId v)
         video_resource
    ++ (if accepted vp (videoUpload env)
        then replacement tp (thumbnailUpload env)
               (VideoDoc.thumbnailPublicId v) image_resource
        else [])
  /\ ((exists resp,
         snd (updateVideo videoId title description vp tp (Some o) env w)
         = inr resp)
      <-> accepted vp (videoUpload env) && accepted tp (thumbnailUpload env)
          = true).
Proof.
  intros Hf Hv Hsome Hfind Hown. unfold updateVideo.
  rewrite Hf, Hv, Hsome. cbn [negb].
  cbv beta delta [bind findById findOne notOwnedBy ret]. cbn [docs Video].
  rewrite Hfind, Hown. unfold ObjectId.toString. rewrite String.eqb_refl.
  cbn [negb]. cbv beta iota.
  set (f0 := assignText title description noFields).
  destruct (replaceVideoFile_run v vp env f0 w) as (Hm1 & _ & Hv1 & _ & _ & _ & Hr1).
  destruct (replaceVideoFile v vp env f0 w) as [w1 r1]; cbn [fst snd] in *.
  destruct (accepted vp (videoUpload env)).
  - subst r1.
    destruct (replaceThumbnail_run v tp env
                (if truthy vp
                 then match videoUpload env with
                      | Some r => assignVideoFile r f0
                      | None => f0
                      end
                 else f0) w1) as (Hm2 & _ & Hv2 & _ & _ & _ & Hr2).
    destruct (replaceThumbnail v tp env _ w1) as [w2 r2]; cbn [fst snd] in *.
    destruct (accepted tp (thumbnailUpload env)).
    + subst r2. cbv [findByIdAndUpdate json ret throw].
      cbn [docs Video fst snd]. rewrite Hv2, Hv1, Hfind.
      cbn [option_map fst snd media write Video].
      rewrite Hm2, Hm1, <- app_assoc. split; [reflexivity|].
      split; [reflexivity | intros _; eexists; reflexivity].
    + destruct Hr2 as [e ->]. cbn [fst snd].
      rewrite Hm2, Hm1, <- app_assoc. split; [reflexivity|]. cbn [andb].
      split; [intros [? H]; discriminate H | discriminate].
  - destruct Hr1 as [e ->]. cbn [fst snd]. rewrite app_nil_r.
    split; [exact Hm1|]. cbn [andb].
    split; [intros [? H]; discriminate H | discriminate].
Qed.

(** C6.  In [updateVideo] the replacement is uploaded first: for a
    stored video and its owner, the calls to the media store are, for
    the video file and then for the thumbnail, when the request has
    it, the upload of the file and, right after it and only when the
    answer to that upload is usable, the deletion of the previous
    asset; the thumbnail is not reached when the video file was not
    accepted; and the handler answers exactly when every file the
    request has was accepted.  For every request: the media store is
    asked to delete the previous video asset only right after the
    upload of the replacement video file has succeeded, and the
    previous thumbnail only right after the upload of the replacement
    thumbnail has succeeded.  When the request has a file whose upload
    fails, the operation ends in an error and no deletion of the
    previous asset of that kind has been issued; when the operation
    answers, the previous asset of every file the request has was
    deleted. *)
Theorem updateVideo_uploads_before_deleting
    videoId title description videoFileLocalPath thumbnailLocalPath user env w :
  let w' := fst (updateVideo videoId title description videoFileLocalPath
                   thumbnailLocalPath user env w) in
  let r := snd (updateVideo videoId title description videoFileLocalPath
                  thumbnailLocalPath user env w) in
  (exists calls, media w' = media w ++ calls
   /\ (forall p, In (CloudDestroy p video_resource) calls ->
         usable (videoUpload env) = true
         /\ (exists v, find (hasId Video (ObjectId.cast videoId)) (videos w)
                         = Some v
                       /\ VideoDoc.videoPublicId v = Some p)
         /\ exists path rest,
              videoFileLocalPath = Some path
              /\ calls = CloudUpload path (videoUpload env)
                         :: CloudDestroy p video_resource :: rest)
   /\ (forall p, In (CloudDestroy p image_resource) calls ->
         usable (thumbnailUpload env) = true
         /\ (exists v, find (hasId Video (ObjectId.cast videoId)) (videos w)
                         = Some v
                       /\ VideoDoc.thumbnailPublicId v = Some p)
         /\ exists path before,
              thumbnailLocalPath = Some path
              /\ calls = before ++ [CloudUpload path (thumbnailUpload env);
                                    CloudDestroy p image_resource])
   /\ (forall resp v p,
         r = inr resp -> truthy videoFileLocalPath = true ->
         find (hasId Video (ObjectId.cast videoId)) (videos w) = Some v ->
         VideoDoc.videoPublicId v = Some p -> p <> "" ->
         In (CloudDestroy p video_resource) calls)
   /\ (forall resp v p,
         r = inr resp -> truthy thumbnailLocalPath = true ->
         find (hasId Video (ObjectId.cast videoId)) (videos w) = Some v ->
         VideoDoc.thumbnailPublicId v = Some p -> p <> "" ->
         In (CloudDestroy p image_resource) calls)
   /\ (truthy videoFileLocalPath = true -> usable (videoUpload env) = false ->
         (exists e, r = inl e)
         /\ forall p, ~ In (CloudDestroy p video_resource) calls)
   /\ (truthy thumbnailLocalPath = true ->
       usable (thumbnailUpload env) = false ->
         (exists e, r = inl e)
         /\ forall p, ~ In (CloudDestroy p image_resource) calls))
  /\ (forall v o,
        falsy videoId = false ->
        ObjectId.isValid videoId = true ->
        falsy title && falsy description && falsy videoFileLocalPath
          && falsy thumbnailLocalPath = false ->
        find (hasId Video (ObjectId.cast videoId)) (videos w) = Some v ->
        VideoDoc.owner v = Some o ->
        user = Some o ->
        media w'
        = media w
          ++ replacement videoFileLocalPath (videoUpload env)
               (VideoDoc.videoPublicId v) video_resource
          ++ (if accepted videoFileLocalPath (videoUpload env)
              then replacement thumbnailLocalPath (thumbnailUpload env)
                     (VideoDoc.thumbnailPublicId v) image_resource
              else [])
        /\ ((exists resp, r = inr resp)
            <-> accepted videoFileLocalPath (videoUpload env)
                && accepted thumbnailLocalPath (thumbnailUpload env)
                = true)).
Proof.
  intros w' r. subst w' r. split.
  2:{ intros v o Hf Hv Hsome Hfind Hown ->. now apply updateVideo_calls. }
  unfold updateVideo.
  cbv [replaceVideoFile replaceThumbnail truthy]. run_handler.
  all: name_calls.
  all: media_leaf.
Qed.

Lemma replaceBoth_run :
  snd (replaceBoth replacing)
  = inl (ApiError 500 "Error while uploading new thumbnail to Cloudinary")
  /\ media (fst (replaceBoth replacing))
     = media replacing
       ++ [CloudUpload "public/temp/cat2.mp4" (stored "cat-video-2");
           CloudDestroy "cat-video" video_resource;
           CloudUpload "public/temp/cat2.png" None]
  /\ videos (fst (replaceBoth replacing)) = [catVideo].
Proof. vm_compute. repeat split. Qed.

Lemma updateVideo_uploads_before_deleting_witness :
  (exists e, snd (replaceBoth replacing) = inl e)
  /\ forall p, ~ In (CloudDestroy p image_resource)
                 [CloudUpload "public/temp/cat2.mp4" (stored "cat-video-2");
                  CloudDestroy "cat-video" video_resource;
                  CloudUpload "public/temp/cat2.png" None].
Proof.
  destruct (@updateVideo_uploads_before_deleting (Some catVideoId) None None
              (Some "public/temp/cat2.mp4") (Some "public/temp/cat2.png")
              (Some aliceId) thumbnailRefused replacing)
    as ((calls & Hcalls & _ & _ & _ & _ & _ & Hthumb) & _).
  destruct (Hthumb eq_refl eq_refl) as [Herr Hnone]. split; [exact Herr|].
  destruct replaceBoth_run as (_ & Hm & _).
  unfold replaceBoth in Hm. rewrite Hm in Hcalls.
  apply app_inv_head in Hcalls. rewrite Hcalls. exact Hnone.
Defined.

Lemma applySet_id f t v : VideoDoc._id (applySet f t v) = VideoDoc._id v.
Proof. reflexivity. Qed.

(** C10.  [updateVideo] writes to the database once, after every
    requested upload has succeeded: when it ends in an error, whatever
    the error, the Video collection is as it was (and so are the other
    collections); when it answers, every requested upload was usable
    and the stored document is the one it answers with.  An error can
    leave the media store changed: in the run [replaceBoth] the previous
    video asset has been deleted when the thumbnail upload fails. *)
Theorem updateVideo_writes_last :
  (forall videoId title description videoFileLocalPath thumbnailLocalPath
          user env w,
     let w' := fst (updateVideo videoId title description videoFileLocalPath
                      thumbnailLocalPath user env w) in
     match snd (updateVideo videoId title description videoFileLocalPath
                  thumbnailLocalPath user env w) with
     | inl _ =>
         videos w' = videos w /\ comments w' = comments w
         /\ likes w' = likes w /\ subscriptions w' = subscriptions w
     | inr resp =>
         implb (truthy videoFileLocalPath) (usable (videoUpload env)) = true
         /\ implb (truthy thumbnailLocalPath) (usable (thumbnailUpload env))
            = true
         /\ find (hasId Video (ObjectId.cast videoId)) (videos w')
            = Some (data (body resp))
     end)
  /\ (exists e, snd (replaceBoth replacing) = inl e)
  /\ In (CloudDestroy "cat-video" video_resource)
        (media (fst (replaceBoth replacing)))
  /\ videos (fst (replaceBoth replacing)) = videos replacing.
Proof.
  split.
  - intros videoId title description videoFileLocalPath thumbnailLocalPath
           user env w w'.
    subst w'. unfold updateVideo.
    cbv [replaceVideoFile replaceThumbnail truthy]. run_handler.
    all: repeat split; try reflexivity; try assumption.
    all: try match goal with
         | H : usable ?x = true |- implb _ (usable ?x) = true =>
             rewrite H; apply implb_true_r
         end.
    all: try match goal with
         | H : option_map _ (find _ _) = Some ?t |- find _ _ = Some ?t =>
             rewrite (find_updateFirst_same Video) by apply applySet_id;
             exact H
         end.
    all: match goal with
         | H : find _ _ = Some _, H' : option_map _ (find _ _) = None |- _ =>
             simpl in H'; cbn [docs Video] in H; rewrite H in H';
             discriminate H'
         end.
  - destruct replaceBoth_run as (He & Hm & Hv).
    split; [eexists; exact He|]. split; [|exact Hv].
    rewrite Hm. apply in_app_iff. right. simpl. tauto.
Qed.

Lemma updateVideo_writes_last_witness :
  videos (fst (replaceBoth replacing)) = videos replacing
  /\ comments (fst (replaceBoth replacing)) = comments replacing.
Proof.
  pose proof (proj1 updateVideo_writes_last (Some catVideoId) None None
                (Some "public/temp/cat2.mp4") (Some "public/temp/cat2.png")
                (Some aliceId) thumbnailRefused replacing) as H.
  cbv zeta in H. fold replaceBoth in H.
  destruct replaceBoth_run as (He & _). rewrite He in H.
  destruct H as (Hv & Hc & _). exact (conj Hv Hc).
Defined.

(* ================================================================== *)
(** * Subscriptions *)

Lemma In_subscribersPipeline cid w o :
  In o (subscribersPipeline cid w) <->
  exists s u, In s (subscriptions w) /\ SubscriptionDoc.channel s = cid
              /\ In u (users w)
              /\ UserDoc._id u = SubscriptionDoc.subscriber s
              /\ o = subscriberProfile u.
Proof.
  unfold subscribersPipeline, lookupUnwind. rewrite in_map_iff. split.
  - intros ([s u] & <- & Hin). apply in_flat_map in Hin as (s' & Hs & Hin).
    apply in_map_iff in Hin as (u' & [= <- <-] & Hu).
    apply filter_In in Hs as [Hs Hc], Hu as [Hu Hi].
    apply String.eqb_eq in Hc. apply refIs_true in Hi.
    exists s', u'. repeat split; congruence.
  - intros (s & u & Hs & Hc & Hu & Hi & ->). exists (s, u). split; [reflexivity|].
    apply in_flat_map. exists s. split.
    + apply filter_In. split; [assumption|]. now apply String.eqb_eq.
    + apply in_map. apply filter_In. split; [assumption|].
      apply refIs_true. congruence.
Qed.

(** C7, as amended.  [getUserChannelSubscribers] changes nothing and,
    for a valid channel id, answers 200 with one object per stored
    subscriber of the channel; each object has exactly the fields
    [_id], [username], [email], [avatar] and [fullName] of the
    subscriber's User record, and no other field of it. *)
Theorem getUserChannelSubscribers_projects_profile channelId w :
  fst (getUserChannelSubscribers channelId w) = w
  /\ match snd (getUserChannelSubscribers channelId w) with
     | inl e =>
         e = ApiError 400 "Invalid channel ID provided."
         /\ (falsy channelId || negb (ObjectId.isValid channelId)) = true
     | inr resp =>
         status resp = 200
         /\ (forall o, In o (data (body resp)) <->
               exists s u,
                 In s (subscriptions w)
                 /\ SubscriptionDoc.channel s = ObjectId.cast channelId
                 /\ In u (users w)
                 /\ UserDoc._id u = SubscriptionDoc.subscriber s
                 /\ o = [("_id", UserDoc._id u);
                         ("username", UserDoc.username u);
                         ("email", UserDoc.email u);
                         ("avatar", UserDoc.avatar u);
                         ("fullName", UserDoc.fullName u)])
     end.
Proof.
  unfold getUserChannelSubscribers.
  destruct (falsy channelId || negb (ObjectId.isValid channelId)) eqn:E;
    [simpl; auto|].
  cbv [bind aggregate json ret]. 
  destruct (subscribersPipeline (ObjectId.cast channelId) w) as [|o l] eqn:Ep;
    simpl; (split; [reflexivity|]); (split; [reflexivity|]);
    intros x;
    (etransitivity; [|apply (In_subscribersPipeline (ObjectId.cast channelId))]);
    rewrite Ep; reflexivity.
Qed.

(** C7, as stated, fails: the object returned for a subscriber carries
    the e-mail address of the User record, which is not one of
    username, full name, avatar URL and identifier. *)
Lemma subscribers_listing_exposes_email :
  reachable subscribed
  /\ snd (getUserChannelSubscribers (Some aliceId) subscribed)
     = inr {| status := 200;
              body := {| statusCode := 200;
                         data := [[("_id", bobId); ("username", "bob");
                                   ("email", "bob@example.org");
                                   ("avatar", "bob.png");
                                   ("fullName", "Bob B")]];
                         message := "Subscribers fetched successfully." |} |}.
Proof.
  split; [unfold subscribed, twoUsers; reach | vm_compute; reflexivity].
Qed.

Lemma canonical_cast i :
  ObjectId.canonical i = true ->
  ObjectId.isValid (Some i) = true /\ ObjectId.cast (Some i) = i.
Proof.
  unfold ObjectId.canonical. intros [Hv Hl]%andb_true_iff.
  split; [assumption|]. now apply String.eqb_eq.
Qed.

(** X1.  The guard of [toggleSubscription] does reject the caller's own
    id when the request spells it as [toString] prints it: the answer
    is 400 and the world is as it was. *)
Lemma toggleSubscription_rejects_own_id w me u env :
  ObjectId.canonical me = true ->
  find (hasId User me) (users w) = Some u ->
  toggleSubscription (Some (ObjectId.toString me)) (Some me) env w
  = (w, inl (ApiError 400 "You cannot subscribe to your own channel.")).
Proof.
  intros [Hv Hc]%canonical_cast Hu. unfold toggleSubscription.
  unfold ObjectId.toString, ObjectId.t in *. rewrite Hv, Hc. cbn [negb].
  cbv [bind findById findOne throw]. cbn [docs User]. rewrite Hu.
  cbn [orEmpty]. rewrite String.eqb_refl. reflexivity.
Qed.

(** C8 at the failing input: Alice asks to subscribe to the channel
    whose id is her own, written with an upper-case hexadecimal digit.
    The id is valid and resolves to her own User record, the string
    comparison of the guard does not see the match, and a Subscription
    of Alice to herself is stored. *)
Theorem toggleSubscription_accepts_own_id_in_upper_case :
  ObjectId.isValid (Some "A00000000000000000000001") = true
  /\ ObjectId.cast (Some "A00000000000000000000001") = aliceId
  /\ toggleSubscription (Some "A00000000000000000000001") (Some aliceId)
       (envWith "f00000000000000000000009") twoUsers
     = (write Subscription
          [SubscriptionDoc.mk "f00000000000000000000009" aliceId aliceId]
          twoUsers,
        inr {| status := 200;
               body := {| statusCode := 200;
                          data := {| isSubscribed := true;
                                     channelId :=
                                       Some "A00000000000000000000001" |};
                          message := "Subscribed successfully." |} |}).
Proof. vm_compute. repeat split. Qed.

(* ================================================================== *)
(** * Toggling twice *)

Lemma find_none_existsb {D} (q : D -> bool) l :
  find q l = None <-> existsb q l = false.
Proof.
  induction l as [|a r IH]; simpl; [tauto|].
  destruct (q a); simpl; [split; discriminate | exact IH].
Qed.

Lemma existsb_snoc {D} (q : D -> bool) l d :
  existsb q (l ++ [d]) = existsb q l || q d.
Proof. rewrite existsb_app. simpl. now rewrite orb_false_r. Qed.

Lemma find_snoc_new {D} (q : D -> bool) l d :
  find q l = None -> q d = true -> find q (l ++ [d]) = Some d.
Proof.
  intros Hn Hd. induction l as [|a r IH]; simpl in *; [now rewrite Hd|].
  destruct (q a); [discriminate | now apply IH].
Qed.

Lemma removeFirst_snoc_new {D} (p : D -> bool) l d :
  existsb p l = false -> p d = true -> removeFirst p (l ++ [d]) = l.
Proof.
  intros Hn Hd. induction l as [|a r IH]; simpl in *; [now rewrite Hd|].
  apply orb_false_iff in Hn as [Ha Hr]. rewrite Ha. f_equal. now apply IH.
Qed.

Lemma existsb_removeFirst {D} (p q : D -> bool) l :
  existsb q l = false -> existsb q (removeFirst p l) = false.
Proof.
  intros Hn. destruct (existsb q (removeFirst p l)) eqn:E; [|reflexivity].
  apply existsb_exists in E as (x & Hx & Hq).
  apply removeFirst_incl in Hx.
  rewrite <- Hn. symmetry. apply existsb_exists. eauto.
Qed.

Section Toggled.
Variables (ls : list LikeDoc.t) (q : LikeDoc.t -> bool).
Hypothesis ids : NoDup (map LikeDoc._id ls).
Hypothesis one : forall x y, In x ls -> In y ls ->
q x = true -> q y = true -> x = y.

Lemma toggled_flips d :
q d = true -> existsb q (toggled q d ls) = negb (existsb q ls).
Proof.
intros Hd. unfold toggled. destruct (find q ls) as [l|] eqn:E.
- apply find_some in E as [Hl Hq].
  assert (existsb q ls = true) as -> by (apply existsb_exists; eauto).
  simpl. destruct (existsb q _) eqn:Ex; [|reflexivity].
  apply existsb_exists in Ex as (x & Hx & Hqx).
  apply (removeFirst_by_id Like) in Hx as [Hx Hne]; [|exact ids|exact Hl].
  exfalso. apply Hne. now apply one.
- apply find_none_existsb in E. now rewrite existsb_snoc, E, Hd.
Qed.

(** Toggling twice restores whether a Like of the key exists, keeps
  the number of Likes, and restores the collection itself when the
  key had no Like. *)
Lemma toggled_twice d1 d2 :
q d1 = true -> q d2 = true ->
existsb (hasId Like (LikeDoc._id d1)) ls = false ->
existsb (hasId Like (LikeDoc._id d2)) ls = false ->
let once := toggled q d1 ls in
let twice := toggled q d2 once in
existsb q once = negb (existsb q ls)
/\ existsb q twice = existsb q ls
/\ List.length twice = List.length ls
/\ (existsb q ls = false -> twice = ls).
Proof.
intros Hd1 Hd2 Hf1 Hf2 once twice.
pose proof (toggled_flips Hd1) as H1. fold once in H1.
split; [exact H1|]. subst twice once. unfold toggled in *.
destruct (find q ls) as [l|] eqn:E.
- pose proof (find_some _ _ E) as [Hl Hq].
  assert (existsb q ls = true) as Hex by (apply existsb_exists; eauto).
  rewrite Hex in *. simpl in H1. apply find_none_existsb in H1. rewrite H1.
  rewrite existsb_snoc, Hd2, orb_true_r, length_app, length_removeFirst.
  assert (existsb (hasId Like (LikeDoc._id l)) ls = true) as ->
    by (apply existsb_exists; exists l; split;
        [assumption | now apply hasId_true]).
  repeat split; [|discriminate].
  destruct ls; [contradiction | simpl; lia].
- pose proof (proj1 (find_none_existsb _ _) E) as Hex. rewrite Hex in *.
  rewrite (@find_snoc_new _ q ls d1 E Hd1). simpl.
  rewrite (@removeFirst_snoc_new _ (hasId Like (LikeDoc._id d1)) ls d1 Hf1)
    by (now apply hasId_true).
  auto.
Qed.

End Toggled.

(** What one call of [toggleCommentLike] on a stored comment does. *)
Lemma toggleCommentLike_run w commentId u env c :
  falsy commentId = false ->
  ObjectId.isValid commentId = true ->
  find (hasId Comment (ObjectId.cast commentId)) (comments w) = Some c ->
  let cid := ObjectId.cast commentId in
  let d := LikeDoc.mk (newId env) (Some (CommentDoc.video c)) (Some cid) u in
  (existsb (likeOfComment cid u) (likes w) = false ->
   existsb (hasId Like (newId env)) (likes w) = false) ->
  toggleCommentLike commentId (Some u) env w
  = (write Like (toggled (likeOfComment cid u) d (likes w)) w,
     inr (likedAnswer (negb (existsb (likeOfComment cid u) (likes w)))
            "comment unliked successfully" "comment liked successfully")).
Proof.
  intros Hf Hv Hc cid d Hfresh. subst d. unfold toggleCommentLike, toggled.
  rewrite Hf, Hv. cbn [negb]. change (ObjectId.cast commentId) with cid in Hc |- *.
  cbv [bind findById findOne deleteOne create json ret throw].
  cbn [docs Comment Like idOf LikeDoc._id]. rewrite Hc.
  change (fun l => refIs (LikeDoc.comment l) cid
                   && ObjectId.eqb (LikeDoc.likedBy l) u)
    with (likeOfComment cid u).
  destruct (find (likeOfComment cid u) (likes w)) as [l|] eqn:E.
  - apply find_some in E as [Hl Hq].
    assert (existsb (likeOfComment cid u) (likes w) = true) as ->
      by (apply existsb_exists; eauto).
    reflexivity.
  - apply find_none_existsb in E. rewrite E in *. rewrite (Hfresh eq_refl).
    reflexivity.
Qed.

(** What one call of [toggleVideoLike] on a stored video does. *)
Lemma toggleVideoLike_run w videoId u env v :
  falsy videoId = false ->
  ObjectId.isValid videoId = true ->
  find (hasId Video (ObjectId.cast videoId)) (videos w) = Some v ->
  let vid := ObjectId.cast videoId in
  let d := LikeDoc.mk (newId env) (Some vid) None u in
  (existsb (likeOfVideo vid u) (likes w) = false ->
   existsb (hasId Like (newId env)) (likes w) = false) ->
  toggleVideoLike videoId (Some u) env w
  = (write Like (toggled (likeOfVideo vid u) d (likes w)) w,
     inr (likedAnswer (negb (existsb (likeOfVideo vid u) (likes w)))
            "Video unliked successfully" "Video liked successfully")).
Proof.
  intros Hf Hv Hc vid d Hfresh. subst d. unfold toggleVideoLike, toggled.
  rewrite Hf, Hv. cbn [negb]. change (ObjectId.cast videoId) with vid in Hc |- *.
  cbv [bind findById findOne deleteOne create json ret throw].
  cbn [docs Video Like idOf LikeDoc._id]. rewrite Hc.
  change (fun l => refIs (LikeDoc.video l) vid
                   && ObjectId.eqb (LikeDoc.likedBy l) u)
    with (likeOfVideo vid u).
  destruct (find (likeOfVideo vid u) (likes w)) as [l|] eqn:E.
  - apply find_some in E as [Hl Hq].
    assert (existsb (likeOfVideo vid u) (likes w) = true) as ->
      by (apply existsb_exists; eauto).
    reflexivity.
  - apply find_none_existsb in E. rewrite E in *. rewrite (Hfresh eq_refl).
    reflexivity.
Qed.

Lemma likeOfComment_new cid u i v :
  likeOfComment cid u (LikeDoc.mk i v (Some cid) u) = true.
Proof.
  unfold likeOfComment, ObjectId.eqb. simpl. unfold ObjectId.eqb.
  now rewrite !String.eqb_refl.
Qed.

Lemma likeOfVideo_new vid u i c :
  likeOfVideo vid u (LikeDoc.mk i (Some vid) c u) = true.
Proof.
  unfold likeOfVideo, ObjectId.eqb. simpl. unfold ObjectId.eqb.
  now rewrite !String.eqb_refl.
Qed.

Lemma likeOfComment_one w cid u x y :
  Inv w -> In x (likes w) -> In y (likes w) ->
  likeOfComment cid u x = true -> likeOfComment cid u y = true -> x = y.
Proof.
  intros HI Hx Hy Hqx Hqy.
  eapply NoDup_map_injective;
    [exact (inv_like_unique HI) | exact Hx | exact Hy |].
  unfold likeOfComment in *.
  apply andb_true_iff in Hqx as [Hc Hu], Hqy as [Hc' Hu'].
  apply refIs_true in Hc, Hc'. apply String.eqb_eq in Hu, Hu'.
  unfold likeKey, likeTarget. rewrite Hc, Hc'. congruence.
Qed.

(** Freshness of the second id survives the first toggle whenever the
    second toggle has to create. *)
Lemma toggled_fresh q d1 i ls :
  q d1 = true ->
  existsb (hasId Like i) ls = false ->
  existsb q (toggled q d1 ls) = false ->
  existsb (hasId Like i) (toggled q d1 ls) = false.
Proof.
  intros Hd Hf. unfold toggled. destruct (find q ls) as [l|].
  - intros _. now apply existsb_removeFirst.
  - rewrite existsb_snoc, Hd, orb_true_r. discriminate.
Qed.

(** X2.  Two calls of [toggleCommentLike] in sequence, for a stored comment
    and ids of new documents that are not taken: the first answers the
    negation of whether the caller liked the comment, the second answers
    the original state; whether a Like of (comment, caller) exists
    alternates and is restored, the number of Likes is restored, and
    the collection itself is restored when the caller did not like the
    comment before. *)
Theorem toggleCommentLike_twice w commentId u env1 env2 c :
  reachable w ->
  falsy commentId = false ->
  ObjectId.isValid commentId = true ->
  find (hasId Comment (ObjectId.cast commentId)) (comments w) = Some c ->
  existsb (hasId Like (newId env1)) (likes w) = false ->
  existsb (hasId Like (newId env2)) (likes w) = false ->
  let liked := fun w' =>
    existsb (likeOfComment (ObjectId.cast commentId) u) (likes w') in
  let once := toggleCommentLike commentId (Some u) env1 w in
  let twice := toggleCommentLike commentId (Some u) env2 (fst once) in
  snd once = inr (likedAnswer (negb (liked w))
                    "comment unliked successfully" "comment liked successfully")
  /\ snd twice = inr (likedAnswer (liked w)
                       "comment unliked successfully"
                       "comment liked successfully")
  /\ liked (fst once) = negb (liked w)
  /\ liked (fst twice) = liked w
  /\ List.length (likes (fst twice)) = List.length (likes w)
  /\ (liked w = false -> likes (fst twice) = likes w).
Proof.
  intros Hr Hf Hv Hc Hf1 Hf2 liked once twice.
  pose proof (reachable_Inv Hr) as HI.
  set (cid := ObjectId.cast commentId) in *.
  set (d1 := LikeDoc.mk (newId env1) (Some (CommentDoc.video c)) (Some cid) u).
  set (d2 := LikeDoc.mk (newId env2) (Some (CommentDoc.video c)) (Some cid) u).
  assert (once = (write Like (toggled (likeOfComment cid u) d1 (likes w)) w,
                  inr (likedAnswer (negb (liked w))
                         "comment unliked successfully"
                         "comment liked successfully"))) as E1
    by (apply (@toggleCommentLike_run w commentId u env1 c); auto).
  destruct (@toggled_twice (likes w) (likeOfComment cid u)
              (inv_like_ids HI) (fun x y => @likeOfComment_one w cid u x y HI) d1 d2
              (likeOfComment_new _ _ _ _) (likeOfComment_new _ _ _ _) Hf1 Hf2)
    as (T1 & T2 & T3 & T4).
  assert (twice = (write Like (toggled (likeOfComment cid u) d2
                                 (toggled (likeOfComment cid u) d1 (likes w)))
                     (fst once),
                   inr (likedAnswer (liked w)
                          "comment unliked successfully"
                          "comment liked successfully"))) as E2.
  { subst twice. rewrite E1. cbn [fst].
    rewrite (@toggleCommentLike_run
               (write Like (toggled (likeOfComment cid u) d1 (likes w)) w)
               commentId u env2 c Hf Hv Hc).
    - cbn [likes write Like]. fold cid d2. unfold liked at 1.
      rewrite T1, negb_involutive. reflexivity.
    - cbn [likes write Like]. fold cid.
      apply toggled_fresh; [apply likeOfComment_new | exact Hf2]. }
  rewrite E2, E1. cbn [fst snd likes write Like]. unfold liked.
  repeat split; assumption.
Qed.

(** X3.  Two calls of [toggleVideoLike] in sequence, for a stored video of
    which the caller likes no comment (no Like of the caller that
    carries the video's reference is a Like of a comment) and ids of new
    documents that are not taken: the first answers the negation of
    whether the caller liked the video, the second answers the original
    state; whether a Like of (video, caller) exists alternates and is
    restored, the number of Likes is restored, and the collection
    itself is restored when the caller did not like the video before. *)
Theorem toggleVideoLike_twice w videoId u env1 env2 v :
  reachable w ->
  falsy videoId = false ->
  ObjectId.isValid videoId = true ->
  find (hasId Video (ObjectId.cast videoId)) (videos w) = Some v ->
  existsb (hasId Like (newId env1)) (likes w) = false ->
  existsb (hasId Like (newId env2)) (likes w) = false ->
  (forall l, In l (likes w) ->
     likeOfVideo (ObjectId.cast videoId) u l = true ->
     LikeDoc.comment l = None) ->
  let liked := fun w' =>
    existsb (likeOfVideo (ObjectId.cast videoId) u) (likes w') in
  let once := toggleVideoLike videoId (Some u) env1 w in
  let twice := toggleVideoLike videoId (Some u) env2 (fst once) in
  snd once = inr (likedAnswer (negb (liked w))
                    "Video unliked successfully" "Video liked successfully")
  /\ snd twice = inr (likedAnswer (liked w)
                       "Video unliked successfully" "Video liked successfully")
  /\ liked (fst once) = negb (liked w)
  /\ liked (fst twice) = liked w
  /\ List.length (likes (fst twice)) = List.length (likes w)
  /\ (liked w = false -> likes (fst twice) = likes w).
Proof.
  intros Hr Hf Hv Hc Hf1 Hf2 Hplain liked once twice.
  pose proof (reachable_Inv Hr) as HI.
  set (vid := ObjectId.cast videoId) in *.
  set (d1 := LikeDoc.mk (newId env1) (Some vid) None u).
  set (d2 := LikeDoc.mk (newId env2) (Some vid) None u).
  assert (forall x y, In x (likes w) -> In y (likes w) ->
            likeOfVideo vid u x = true -> likeOfVideo vid u y = true -> x = y)
    as Hone.
  { intros x y Hx Hy Hqx Hqy.
    eapply NoDup_map_injective;
      [exact (inv_like_unique HI) | exact Hx | exact Hy |].
    pose proof (Hplain x Hx Hqx) as Hcx. pose proof (Hplain y Hy Hqy) as Hcy.
    unfold likeOfVideo in *.
    apply andb_true_iff in Hqx as [Hvx Hux], Hqy as [Hvy Huy].
    apply refIs_true in Hvx, Hvy. apply String.eqb_eq in Hux, Huy.
    unfold likeKey, likeTarget. rewrite Hcx, Hcy. congruence. }
  assert (once = (write Like (toggled (likeOfVideo vid u) d1 (likes w)) w,
                  inr (likedAnswer (negb (liked w))
                         "Video unliked successfully"
                         "Video liked successfully"))) as E1
    by (apply (@toggleVideoLike_run w videoId u env1 v); auto).
  destruct (@toggled_twice (likes w) (likeOfVideo vid u)
              (inv_like_ids HI) Hone d1 d2
              (likeOfVideo_new _ _ _ _) (likeOfVideo_new _ _ _ _) Hf1 Hf2)
    as (T1 & T2 & T3 & T4).
  assert (twice = (write Like (toggled (likeOfVideo vid u) d2
                                 (toggled (likeOfVideo vid u) d1 (likes w)))
                     (fst once),
                   inr (likedAnswer (liked w)
                          "Video unliked successfully"
                          "Video liked successfully"))) as E2.
  { subst twice. rewrite E1. cbn [fst].
    rewrite (@toggleVideoLike_run
               (write Like (toggled (likeOfVideo vid u) d1 (likes w)) w)
               videoId u env2 v Hf Hv Hc).
    - cbn [likes write Like]. fold vid d2. unfold liked at 1.
      rewrite T1, negb_involutive. reflexivity.
    - cbn [likes write Like]. fold vid.
      apply toggled_fresh; [apply likeOfVideo_new | exact Hf2]. }
  rewrite E2, E1. cbn [fst snd likes write Like]. unfold liked.
  repeat split; assumption.
Qed.

Lemma toggleCommentLike_twice_witness :
  likes (fst (toggleCommentLike (Some niceCommentId) (Some bobId)
                (envWith "e00000000000000000000006")
                (fst (toggleCommentLike (Some niceCommentId) (Some bobId)
                        (envWith "e00000000000000000000005") commented))))
  = likes commented.
Proof.
  refine (proj2 (proj2 (proj2 (proj2 (proj2
    (@toggleCommentLike_twice commented (Some niceCommentId) bobId
       (envWith "e00000000000000000000005")
       (envWith "e00000000000000000000006")
       (CommentDoc.mk niceCommentId "nice" catVideoId bobId)
       commented_reachable eq_refl eq_refl eq_refl eq_refl eq_refl))))) _).
  reflexivity.
Defined.

Lemma toggleVideoLike_twice_witness :
  likes (fst (toggleVideoLike (Some catVideoId) (Some bobId)
                (envWith "e00000000000000000000006")
                (fst (toggleVideoLike (Some catVideoId) (Some bobId)
                        (envWith "e00000000000000000000005") commented))))
  = likes commented.
Proof.
  refine (proj2 (proj2 (proj2 (proj2 (proj2
    (@toggleVideoLike_twice commented (Some catVideoId) bobId
       (envWith "e00000000000000000000005")
       (envWith "e00000000000000000000006") catVideo
       commented_reachable eq_refl eq_refl eq_refl eq_refl eq_refl _))))) _).
  - intros l Hl. vm_compute in Hl. destruct Hl.
  - reflexivity.
Defined.

(* ================================================================== *)
(** * Further properties of the controllers *)

(** X4.  Deleting a comment: for a stored comment owned by the caller,
    [deleteComment] succeeds, removes exactly that comment and exactly
    the Likes of that comment, and leaves the videos as they were. *)
Theorem deleteComment_cascades w commentId caller c :
  reachable w ->
  falsy commentId = false ->
  ObjectId.isValid commentId = true ->
  find (hasId Comment (ObjectId.cast commentId)) (comments w) = Some c ->
  CommentDoc.owner c = caller ->
  let w' := fst (deleteComment commentId (Some caller) w) in
  snd (deleteComment commentId (Some caller) w)
  = inr {| status := 200;
           body := {| statusCode := 200; data := tt;
                      message := "Comment deleted successfully" |} |}
  /\ (forall x, In x (comments w') <-> In x (comments w) /\ x <> c)
  /\ (forall l, In l (likes w') <->
        In l (likes w)
        /\ LikeDoc.comment l <> Some (ObjectId.cast commentId))
  /\ videos w' = videos w.
Proof.
  intros Hr Hf Hv Hfind Hown w'. pose proof (reachable_Inv Hr) as HI.
  pose proof (find_exists _ _ Hfind) as Hex.
  pose proof (find_some _ _ Hfind) as [Hin Hq].
  apply (hasId_true Comment) in Hq.
  subst w'. unfold deleteComment. rewrite Hf, Hv. cbn [negb].
  cbv [bind findById findOne deleteOne deleteMany json ret throw].
  cbn [docs Comment]. rewrite Hfind, Hown.
  unfold ObjectId.toString. rewrite String.eqb_refl. cbn. rewrite Hex. cbn.
  split; [reflexivity|]. split; [|split; [|reflexivity]].
  - intros x. rewrite <- Hq.
    apply (removeFirst_by_id Comment); [exact (inv_comment_ids HI) | exact Hin].
  - intros l. rewrite filter_In, negb_true_iff, refIs_false. reflexivity.
Qed.

Lemma deleteComment_cascades_witness :
  likes (fst (deleteComment (Some niceCommentId) (Some bobId) bothLiked))
  = [LikeDoc.mk "e00000000000000000000005" (Some catVideoId) None bobId].
Proof.
  pose proof (@deleteComment_cascades bothLiked (Some niceCommentId) bobId
                (CommentDoc.mk niceCommentId "nice" catVideoId bobId)
                bothLiked_reachable eq_refl eq_refl eq_refl eq_refl)
    as (_ & _ & Hl & _).
  vm_compute. reflexivity.
Defined.

(** X5.  Listing the liked videos: for a caller with a well-formed id,
    [getLikedVideos] changes nothing and answers 200; the videos it
    lists are the stored videos, with a stored owner, that a Like of
    the caller references in its video field, whether or not that Like
    is a Like of a comment; no such Like gives the empty list, not an
    error. *)
Theorem getLikedVideos_lists_referenced_videos w u :
  ObjectId.isValid (Some (ObjectId.toString u)) = true ->
  fst (getLikedVideos (Some u) w) = w
  /\ exists resp,
       snd (getLikedVideos (Some u) w) = inr resp
       /\ status resp = 200
       /\ (forall i, In i (map LikedVideo._id (data (body resp))) <->
             exists l v o,
               In l (likes w) /\ LikeDoc.likedBy l = u
               /\ LikeDoc.video l = Some i
               /\ In v (videos w) /\ VideoDoc._id v = i
               /\ In o (users w) /\ VideoDoc.owner v = Some (UserDoc._id o)).
Proof.
  intros Hv. unfold getLikedVideos. rewrite Hv. cbn [negb].
  cbv [bind aggregate json ret].
  assert (forall i, In i (map LikedVideo._id (likedVideosPipeline u w)) <->
            exists l v o,
              In l (likes w) /\ LikeDoc.likedBy l = u
              /\ LikeDoc.video l = Some i
              /\ In v (videos w) /\ VideoDoc._id v = i
              /\ In o (users w) /\ VideoDoc.owner v = Some (UserDoc._id o))
    as Hchar.
  { intros i. unfold likedVideosPipeline, lookupUnwind.
    rewrite map_map, in_map_iff. split.
    - intros ([v o] & <- & Hin). cbn.
      apply in_flat_map in Hin as (v' & Hv' & Hin).
      apply in_map_iff in Hin as (o' & Heq & Ho). injection Heq as -> ->.
      apply filter_In in Ho as [Ho Hown]. apply refIs_true in Hown.
      apply in_map_iff in Hv' as ([l v''] & Hs & Hlv). cbn in Hs. subst v''.
      apply in_flat_map in Hlv as (l' & Hl & Hlv).
      apply in_map_iff in Hlv as (v'' & Heq & Hvid). injection Heq as -> ->.
      apply filter_In in Hvid as [Hvin Href]. apply refIs_true in Href.
      apply filter_In in Hl as [Hl Hq].
      apply andb_true_iff in Hq as [Hu _]. apply String.eqb_eq in Hu.
      exists l, v, o. repeat split; assumption.
    - intros (l & v & o & Hl & Hu & Href & Hvin & Hid & Ho & Hown).
      exists (v, o). split; [exact Hid|].
      apply in_flat_map. exists v. split.
      + apply in_map_iff. exists (l, v). split; [reflexivity|].
        apply in_flat_map. exists l. split.
        * apply filter_In. split; [assumption|].
          rewrite Href. cbn. rewrite andb_true_r. now apply String.eqb_eq.
        * apply in_map. apply filter_In. split; [assumption|].
          apply refIs_true. congruence.
      + apply in_map. apply filter_In. split; [assumption|].
        now apply refIs_true. }
  destruct (likedVideosPipeline u w) as [|x r] eqn:E; cbn;
    (split; [reflexivity|]); eexists; (split; [reflexivity|]);
    (split; [reflexivity|]); exact Hchar.
Qed.

Lemma getLikedVideos_lists_referenced_videos_witness :
  fst (getLikedVideos (Some bobId) commentLiked) = commentLiked.
Proof.
  exact (proj1 (@getLikedVideos_lists_referenced_videos commentLiked bobId
                  eq_refl)).
Defined.

(** X6.  In every world the controllers can produce, no liker has two
    Likes of the same target. *)
Theorem one_like_per_liker_and_target w :
  reachable w ->
  forall x y, In x (likes w) -> In y (likes w) ->
    LikeDoc.likedBy x = LikeDoc.likedBy y ->
    likeTarget x = likeTarget y ->
    x = y.
Proof.
  intros Hr x y Hx Hy Hu Ht. pose proof (reachable_Inv Hr) as HI.
  eapply NoDup_map_injective;
    [exact (inv_like_unique HI) | exact Hx | exact Hy |].
  unfold likeKey. congruence.
Qed.

Lemma one_like_per_liker_and_target_witness :
  In (LikeDoc.mk "e00000000000000000000006" (Some catVideoId)
        (Some niceCommentId) bobId) (likes bothLiked)
  /\ nth_error (likes bothLiked) 1
     = Some (LikeDoc.mk "e00000000000000000000006" (Some catVideoId)
               (Some niceCommentId) bobId).
Proof.
  assert (In (LikeDoc.mk "e00000000000000000000006" (Some catVideoId)
                (Some niceCommentId) bobId) (likes bothLiked)) as Hin
    by (vm_compute; tauto).
  split; [exact Hin|].
  exact (f_equal Some
           (@one_like_per_liker_and_target bothLiked bothLiked_reachable
              _ _ Hin Hin eq_refl eq_refl)).
Defined.

Lemma toggleSubscription_rejects_own_id_witness :
  toggleSubscription (Some aliceId) (Some aliceId) (envWith "") twoUsers
  = (twoUsers,
     inl (ApiError 400 "You cannot subscribe to your own channel.")).
Proof.
  exact (@toggleSubscription_rejects_own_id twoUsers aliceId alice
           (envWith "") eq_refl eq_refl).
Defined.

(** Whatever the spelling, as long as it is not the one [toString]
    prints: a valid channel id that denotes the caller's own ObjectId
    passes the guard of [toggleSubscription], and the caller is
    subscribed to their own channel. *)
Lemma toggleSubscription_respelled_own_id w me u env s :
  ObjectId.isValid (Some s) = true ->
  ObjectId.cast (Some s) = me ->
  s <> ObjectId.toString me ->
  find (hasId User me) (users w) = Some u ->
  find (fun x => ObjectId.eqb (SubscriptionDoc.subscriber x) me
                 && ObjectId.eqb (SubscriptionDoc.channel x) me)
       (subscriptions w) = None ->
  existsb (hasId Subscription (newId env)) (subscriptions w) = false ->
  toggleSubscription (Some s) (Some me) env w
  = (write Subscription
       (subscriptions w ++ [SubscriptionDoc.mk (newId env) me me]) w,
     inr {| status := 200;
            body := {| statusCode := 200;
                       data := {| isSubscribed := true;
                                  channelId := Some s |};
                       message := "Subscribed successfully." |} |}).
Proof.
  intros Hv Hc Hne Hu Hnone Hfresh. unfold toggleSubscription.
  rewrite Hv, Hc. cbn [negb].
  cbv [bind findById findOne create json ret throw].
  cbn [docs User Subscription idOf SubscriptionDoc._id orEmpty].
  rewrite Hu.
  assert (String.eqb (ObjectId.toString me) s = false) as ->
    by (apply String.eqb_neq; congruence).
  rewrite Hnone, Hfresh. reflexivity.
Qed.

(* ================================================================== *)
(** * The media store adapter and publishing *)

Lemma inTemp_after_unlink p l :
  NoDup l -> existsb (String.eqb p) (removeFirst (String.eqb p) l) = false.
Proof.
  induction l as [|a r IH]; simpl; [reflexivity|].
  intros Hnd. inversion Hnd as [|? ? Hnin Hnd']; subst.
  destruct (String.eqb p a) eqn:E; simpl.
  - apply String.eqb_eq in E. subst a.
    destruct (existsb (String.eqb p) r) eqn:Ex; [|reflexivity].
    apply existsb_exists in Ex as (x & Hx & Hq). apply String.eqb_eq in Hq.
    subst x. contradiction.
  - rewrite E. now apply IH.
Qed.

Lemma inTemp_other_after_unlink p q l :
  q <> p ->
  existsb (String.eqb q) (removeFirst (String.eqb p) l)
  = existsb (String.eqb q) l.
Proof.
  intros Hne. induction l as [|a r IH]; simpl; [reflexivity|].
  destruct (String.eqb p a) eqn:E; simpl.
  - apply String.eqb_eq in E. subst a.
    assert (String.eqb q p = false) as -> by now apply String.eqb_neq.
    reflexivity.
  - now rewrite IH.
Qed.

(** X7.  [uploadOnCloudinary] with a local path: the upload is asked of
    the media store once; the call answers the store's response, or
    [null] when the store refuses; in both cases the temp file is gone
    afterwards and no other temp file is touched.  It raises, instead
    of answering [null], exactly when the store refuses and the temp
    file does not exist.  The collections are never touched. *)
Theorem uploadOnCloudinary_cleans_up p answer w :
  falsy (Some p) = false ->
  NoDup (tempFiles w) ->
  let w' := fst (uploadOnCloudinary (Some p) answer w) in
  media w' = media w ++ [CloudUpload p answer]
  /\ videos w' = videos w /\ comments w' = comments w
  /\ likes w' = likes w /\ subscriptions w' = subscriptions w
  /\ (forall q, q <> p -> inTemp q w' = inTemp q w)
  /\ match answer, inTemp p w with
     | None, false =>
         snd (uploadOnCloudinary (Some p) answer w)
         = inl (Exception "ENOENT: no such file or directory")
     | _, _ =>
         snd (uploadOnCloudinary (Some p) answer w) = inr answer
         /\ inTemp p w' = false
     end.
Proof.
  intros Hp Hnd w'. subst w'. unfold uploadOnCloudinary. rewrite Hp.
  cbv [bind try_catch uploaderUpload existsSync unlinkSync when_ ret throw].
  unfold inTemp. cbn [tempFiles logMedia].
  destruct answer as [r|]; destruct (existsb (String.eqb p) (tempFiles w)) eqn:E;
    cbn; rewrite ?E; cbn; repeat split; auto;
    try (intros q Hq; now apply inTemp_other_after_unlink);
    try (now apply inTemp_after_unlink).
Qed.

Lemma uploadOnCloudinary_cleans_up_witness :
  snd (uploadOnCloudinary (Some "public/temp/cat2.png") None replacing)
  = inr None
  /\ inTemp "public/temp/cat2.png"
       (fst (uploadOnCloudinary (Some "public/temp/cat2.png") None replacing))
     = false.
Proof.
  assert (NoDup (tempFiles replacing)) as Hnd.
  { cbn. repeat constructor; simpl; intuition discriminate. }
  exact (proj2 (proj2 (proj2 (proj2 (proj2 (proj2
    (@uploadOnCloudinary_cleans_up "public/temp/cat2.png" None replacing
       eq_refl Hnd))))))).
Defined.

(** What [uploadOnCloudinary] leaves behind when the file it is given
    is in the temp directory: the call is logged, the file is removed,
    and the answer of the media store is passed on, a refusal as
    [null]. *)
Lemma uploadOnCloudinary_run p answer w :
  falsy (Some p) = false ->
  inTemp p w = true ->
  uploadOnCloudinary (Some p) answer w
  = (setTempFiles (removeFirst (String.eqb p) (tempFiles w))
       (logMedia (CloudUpload p answer) w), inr answer).
Proof.
  intros Hp Hin. unfold uploadOnCloudinary. rewrite Hp.
  cbv [bind try_catch uploaderUpload existsSync unlinkSync when_ ret throw].
  unfold inTemp in *. cbn [tempFiles logMedia].
  destruct answer; cbn; rewrite ?Hin; cbn; rewrite ?Hin; reflexivity.
Qed.

Lemma NoDup_removeFirst {D} (q : D -> bool) l :
  NoDup l -> NoDup (removeFirst q l).
Proof.
  intros H. rewrite <- (map_id (removeFirst q l)).
  apply NoDup_map_removeFirst. now rewrite map_id.
Qed.

(** X8.  Publishing: with a title and a description that are not blank,
    both files and both uploads answered, [publishAVideo] answers with
    HTTP status 201 (the envelope says 200) and appends one document to
    the Video collection: it has the driver's id, the title and the
    description as they were sent, the URLs, public ids and duration
    the media store answered, no views, is published and is owned by
    the caller.  Nothing else is written, and both temp files are gone
    afterwards. *)
Theorem publishAVideo_stores_document t d p q u env w vf th :
  blank t = false -> blank d = false ->
  falsy (Some p) = false -> falsy (Some q) = false ->
  videoUpload env = Some vf -> thumbnailUpload env = Some th ->
  existsb (hasId Video (newId env)) (videos w) = false ->
  NoDup (tempFiles w) ->
  let w' := fst (publishAVideo t d (Some p) (Some q) u env w) in
  exists video,
    snd (publishAVideo t d (Some p) (Some q) u env w)
    = inr {| status := 201;
             body := {| statusCode := 200; data := video;
                        message := "Video published successfully!!" |} |}
    /\ videos w' = videos w ++ [video]
    /\ VideoDoc._id video = newId env
    /\ Some (VideoDoc.title video) = t
    /\ Some (VideoDoc.description video) = d
    /\ VideoDoc.videoFile video = url vf
    /\ VideoDoc.videoPublicId video = public_id vf
    /\ VideoDoc.duration video = upload_duration vf
    /\ VideoDoc.thumbnail video = url th
    /\ VideoDoc.thumbnailPublicId video = public_id th
    /\ VideoDoc.views video = 0%Z
    /\ VideoDoc.isPublished video = true
    /\ VideoDoc.owner video = u
    /\ users w' = users w /\ comments w' = comments w
    /\ likes w' = likes w /\ subscriptions w' = subscriptions w
    /\ media w' = media w ++ [CloudUpload p (Some vf); CloudUpload q (Some th)]
    /\ inTemp p w' = false /\ inTemp q w' = false.
Proof.
  intros Ht Hd Hp Hq Hvf Hth Hfresh Hnd w'. subst w'.
  assert (exists ts, t = Some ts) as [ts ->]
    by (destruct t; [eauto | discriminate]).
  assert (exists ds, d = Some ds) as [ds ->]
    by (destruct d; [eauto | discriminate]).
  assert (forall p answer w0,
            falsy (Some p) = false ->
            exists fs, uploadOnCloudinary (Some p) (Some answer) w0
              = (setTempFiles fs (logMedia (CloudUpload p (Some answer)) w0),
                 inr (Some answer))
              /\ (NoDup (tempFiles w0) ->
                  NoDup fs /\ existsb (String.eqb p) fs = false
                  /\ forall x, existsb (String.eqb x) (tempFiles w0) = false ->
                               existsb (String.eqb x) fs = false)) as Hup.
  { intros p0 a w0 Hp0. unfold uploadOnCloudinary. rewrite Hp0.
    cbv [bind try_catch uploaderUpload existsSync unlinkSync when_ ret throw].
    unfold inTemp. cbn [tempFiles logMedia].
    destruct (existsb (String.eqb p0) (tempFiles w0)) eqn:E; cbn.
    - rewrite E. eexists. split; [reflexivity|]. intros Hn.
      split; [now apply NoDup_removeFirst|].
      split; [now apply inTemp_after_unlink|].
      intros x Hx. now apply existsb_removeFirst.
    - exists (tempFiles w0). split; [destruct w0; reflexivity|]. intros Hn.
      auto. }
  destruct (Hup p vf w Hp) as (fs1 & E1 & H1).
  destruct (H1 Hnd) as (Hnd1 & Hp1 & Hk1).
  destruct (Hup q th (setTempFiles fs1 (logMedia (CloudUpload p (Some vf)) w)) Hq)
    as (fs2 & E2 & H2).
  destruct (H2 Hnd1) as (Hnd2 & Hq2 & Hk2).
  assert (exists video w1,
            publishAVideo (Some ts) (Some ds) (Some p) (Some q) u env w
            = (write Video (videos w ++ [video]) w1,
               inr {| status := 201;
                      body := {| statusCode := 200; data := video;
                                 message := "Video published successfully!!" |} |})
            /\ video = VideoDoc.mk (newId env) ts ds (url vf) (public_id vf)
                         (url th) (public_id th) (upload_duration vf) 0%Z true
                         u (now env) (now env)
            /\ w1 = setTempFiles fs2
                      (logMedia (CloudUpload q (Some th))
                         (setTempFiles fs1
                            (logMedia (CloudUpload p (Some vf)) w))))
    as (video & w1 & Hrun & -> & ->).
  { do 2 eexists. split; [|split; reflexivity].
    unfold publishAVideo. cbn [existsb]. rewrite Ht, Hd, Hp, Hq, Hvf, Hth.
    cbn [orb]. cbv beta delta [bind]. rewrite E1. cbv beta iota. rewrite E2.
    cbv [create json ret]. cbn [docs Video idOf videos setTempFiles logMedia
      VideoDoc._id]. cbn in Hfresh. rewrite Hfresh. reflexivity. }
  eexists. rewrite Hrun. cbn. rewrite <- app_assoc. unfold inTemp. cbn.
  repeat split; auto.
Qed.

Lemma publishAVideo_stores_document_witness :
  exists video,
    videos published = videos twoUsers ++ [video]
    /\ VideoDoc._id video = catVideoId.
Proof.
  assert (NoDup (tempFiles twoUsers)) as Hnd by constructor.
  destruct (@publishAVideo_stores_document (Some "Cats") (Some "A cat video")
              "public/temp/cat.mp4" "public/temp/cat.png" (Some aliceId)
              (envWith catVideoId) twoUsers _ _
              eq_refl eq_refl eq_refl eq_refl eq_refl eq_refl eq_refl Hnd)
    as (video & _ & Hv & Hi & _).
  exists video. split; [exact Hv | exact Hi].
Defined.

(** X9.  A refused upload: with both files in the temp directory and
    the media store refusing one of the two uploads, [publishAVideo]
    still asks for both uploads, in order, asks for no deletion, ends
    in error 500 and stores no document; both temp files are gone.  The
    asset of the upload that was accepted stays in the media store
    with no document that references it. *)
Theorem publishAVideo_refused_upload t d p q u env w :
  blank t = false -> blank d = false ->
  falsy (Some p) = false -> falsy (Some q) = false ->
  p <> q -> NoDup (tempFiles w) ->
  inTemp p w = true -> inTemp q w = true ->
  videoUpload env = None \/ thumbnailUpload env = None ->
  let w' := fst (publishAVideo t d (Some p) (Some q) u env w) in
  (exists msg, snd (publishAVideo t d (Some p) (Some q) u env w)
               = inl (ApiError 500 msg))
  /\ media w' = media w ++ [CloudUpload p (videoUpload env);
                            CloudUpload q (thumbnailUpload env)]
  /\ videos w' = videos w
  /\ inTemp p w' = false /\ inTemp q w' = false.
Proof.
  intros Ht Hd Hp Hq Hne Hnd Hinp Hinq Hrefused w'. subst w'.
  pose (w1 := setTempFiles (removeFirst (String.eqb p) (tempFiles w))
                (logMedia (CloudUpload p (videoUpload env)) w)).
  pose (w2 := setTempFiles (removeFirst (String.eqb q) (tempFiles w1))
                (logMedia (CloudUpload q (thumbnailUpload env)) w1)).
  assert (inTemp q w1 = true) as Hinq1.
  { unfold inTemp in *. cbn. rewrite inTemp_other_after_unlink; auto. }
  assert (exists msg,
            publishAVideo t d (Some p) (Some q) u env w
            = (w2, inl (ApiError 500 msg))) as (msg & Hrun).
  { unfold publishAVideo. cbn [existsb]. rewrite Ht, Hd, Hp, Hq. cbn [orb].
    cbv beta delta [bind].
    rewrite (@uploadOnCloudinary_run p (videoUpload env) w Hp Hinp).
    cbv beta iota. fold w1.
    rewrite (@uploadOnCloudinary_run q (thumbnailUpload env) w1 Hq Hinq1).
    cbv beta iota. fold w2.
    destruct (videoUpload env) as [vf|], (thumbnailUpload env) as [th|];
      cbv [throw]; eauto.
    destruct Hrefused; discriminate. }
  rewrite Hrun. cbn [fst snd]. split; [eauto|].
  unfold inTemp. cbn. rewrite <- app_assoc. repeat split.
  - apply existsb_removeFirst. now apply inTemp_after_unlink.
  - apply inTemp_after_unlink. now apply NoDup_removeFirst.
Qed.

Lemma publishAVideo_refused_upload_witness :
  videos (fst (publishAVideo (Some "Dogs") (Some "A dog video")
                 (Some "public/temp/cat2.mp4") (Some "public/temp/cat2.png")
                 (Some bobId) thumbnailRefused replacing))
  = videos replacing.
Proof.
  assert (NoDup (tempFiles replacing)) as Hnd.
  { cbn. repeat constructor; simpl; intuition discriminate. }
  assert ("public/temp/cat2.mp4" <> "public/temp/cat2.png") as Hne
    by discriminate.
  exact (proj1 (proj2 (proj2
    (@publishAVideo_refused_upload (Some "Dogs") (Some "A dog video")
       "public/temp/cat2.mp4" "public/temp/cat2.png" (Some bobId)
       thumbnailRefused replacing eq_refl eq_refl eq_refl eq_refl Hne Hnd
       eq_refl eq_refl (or_intror eq_refl))))).
Defined.

(* ================================================================== *)
(** * Ownership and the publish flag *)

Lemma setPublished_id b t v :
  VideoDoc._id (setPublished b t v) = VideoDoc._id v.
Proof. reflexivity. Qed.

(** What one call of [togglePublishStatus] by the owner does. *)
Lemma togglePublishStatus_run w videoId u env v :
  falsy videoId = false ->
  ObjectId.isValid videoId = true ->
  find (hasId Video (ObjectId.cast videoId)) (videos w) = Some v ->
  VideoDoc.owner v = Some u ->
  let vid := ObjectId.cast videoId in
  let b := negb (VideoDoc.isPublished v) in
  togglePublishStatus videoId (Some u) env w
  = (write Video (updateFirst (hasId Video vid) (setPublished b (now env))
                    (videos w)) w,
     inr {| status := 200;
            body := {| statusCode := 200;
                       data := {| isPublished := b |};
                       message := "Video publish status toggled successfully"
                     |} |}).
Proof.
  intros Hf Hv Hfind Ho vid b. subst vid b. unfold togglePublishStatus.
  rewrite Hf, Hv. cbn [negb].
  cbv [bind findById findOne findByIdAndUpdate notOwnedBy json ret throw].
  cbn [docs Video]. rewrite Hfind, Ho. unfold ObjectId.toString.
  rewrite String.eqb_refl. cbn. rewrite Hfind. reflexivity.
Qed.

(** X10.  The publish flag: called by the owner of a stored video,
    [togglePublishStatus] negates the flag of that video and answers
    200 with the new value; the rest of the document (its update time
    apart) and every other video stay as they were.  A second call
    brings the flag back. *)
Theorem togglePublishStatus_twice w videoId u env1 env2 v :
  falsy videoId = false ->
  ObjectId.isValid videoId = true ->
  find (hasId Video (ObjectId.cast videoId)) (videos w) = Some v ->
  VideoDoc.owner v = Some u ->
  let vid := ObjectId.cast videoId in
  let once := togglePublishStatus videoId (Some u) env1 w in
  let twice := togglePublishStatus videoId (Some u) env2 (fst once) in
  (exists resp, snd once = inr resp /\ status resp = 200
     /\ isPublished (data (body resp)) = negb (VideoDoc.isPublished v))
  /\ find (hasId Video vid) (videos (fst once))
     = Some (setPublished (negb (VideoDoc.isPublished v)) (now env1) v)
  /\ (exists resp, snd twice = inr resp /\ status resp = 200
        /\ isPublished (data (body resp)) = VideoDoc.isPublished v)
  /\ find (hasId Video vid) (videos (fst twice))
     = Some (setPublished (VideoDoc.isPublished v) (now env2) v)
  /\ (forall j, j <> vid ->
        find (hasId Video j) (videos (fst once)) = find (hasId Video j) (videos w)
        /\ find (hasId Video j) (videos (fst twice))
           = find (hasId Video j) (videos w))
  /\ List.length (videos (fst twice)) = List.length (videos w)
  /\ comments (fst twice) = comments w /\ likes (fst twice) = likes w
  /\ media (fst twice) = media w.
Proof.
  intros Hf Hv Hfind Ho vid once twice. subst vid.
  assert (find (hasId Video (ObjectId.cast videoId)) (videos (fst once))
          = Some (setPublished (negb (VideoDoc.isPublished v)) (now env1) v))
    as Hfind1.
  { subst once. rewrite (@togglePublishStatus_run w videoId u env1 v Hf Hv Hfind Ho).
    cbn [fst videos write Video].
    rewrite (find_updateFirst_same Video) by apply setPublished_id.
    cbn [docs Video] in *. now rewrite Hfind. }
  pose proof (@togglePublishStatus_run (fst once) videoId u env2 _ Hf Hv Hfind1 Ho) as Hrun2.
  cbn zeta in Hrun2. fold twice in Hrun2.
  pose proof (@togglePublishStatus_run w videoId u env1 v Hf Hv Hfind Ho) as Hrun1.
  cbn zeta in Hrun1. fold once in Hrun1.
  cbn [VideoDoc.isPublished setPublished] in Hrun2. rewrite negb_involutive in Hrun2.
  split; [rewrite Hrun1; eexists; repeat split|].
  split; [exact Hfind1|].
  split; [rewrite Hrun2; eexists; repeat split|].
  rewrite Hrun2. cbn [fst videos write Video comments likes media].
  split.
  { rewrite (find_updateFirst_same Video) by apply setPublished_id.
    cbn [docs Video] in *. rewrite Hfind1. reflexivity. }
  split.
  { intros j Hj.
    rewrite (find_updateFirst_other Video) by (apply setPublished_id || auto).
    rewrite Hrun1. cbn [fst videos write Video].
    rewrite (find_updateFirst_other Video) by (apply setPublished_id || auto).
    auto. }
  rewrite Hrun1. cbn [fst videos write Video comments likes media].
  repeat split.
  rewrite <- (length_map VideoDoc._id), map_updateFirst by apply setPublished_id.
  rewrite map_updateFirst by apply setPublished_id. apply length_map.
Qed.

Lemma togglePublishStatus_twice_witness :
  find (hasId Video catVideoId)
    (videos (fst (togglePublishStatus (Some catVideoId) (Some aliceId)
                    (envWith "")
                    (fst (togglePublishStatus (Some catVideoId) (Some aliceId)
                            (envWith "") published)))))
  = Some (setPublished true 1000%Z catVideo).
Proof.
  exact (proj1 (proj2 (proj2 (proj2
    (@togglePublishStatus_twice published (Some catVideoId) aliceId
       (envWith "") (envWith "") catVideo eq_refl eq_refl eq_refl eq_refl))))).
Defined.

(** X11.  Only the owner changes a video: for a stored video that has
    an owner, a caller who is not that owner, one without a session
    included, gets 403 from [updateVideo] (whatever fields and files
    the request has), from [deleteVideo] and from
    [togglePublishStatus]; the world is as it was: no upload was asked
    for, no temp file removed, no collection written. *)
Theorem video_mutations_need_owner w videoId caller v o :
  falsy videoId = false ->
  ObjectId.isValid videoId = true ->
  find (hasId Video (ObjectId.cast videoId)) (videos w) = Some v ->
  VideoDoc.owner v = Some o ->
  caller <> Some o ->
  (forall title description vp tp env,
     falsy title && falsy description && falsy vp && falsy tp = false ->
     updateVideo videoId title description vp tp caller env w
     = (w, inl (ApiError 403 "You are not authorized to update this video")))
  /\ deleteVideo videoId caller w
     = (w, inl (ApiError 403 "You are not authorized to delete this video"))
  /\ (forall env,
        togglePublishStatus videoId caller env w
        = (w, inl (ApiError 403
             "You are not authorized to toggle video publish status."))).
Proof.
  intros Hf Hv Hfind Ho Hne.
  assert (notOwnedBy (Some o) caller w = (w, inr true)) as Hforeign.
  { unfold notOwnedBy, ret. destruct caller as [c|]; [|reflexivity].
    unfold ObjectId.toString.
    destruct (String.eqb o c) eqn:E; [|reflexivity].
    apply String.eqb_eq in E. congruence. }
  repeat split.
  - intros title description vp tp env Hsome. unfold updateVideo.
    rewrite Hf, Hv, Hsome. cbn [negb].
    cbv beta delta [bind findById findOne]. cbn [docs Video].
    rewrite Hfind, Ho. cbv beta iota. rewrite Hforeign. reflexivity.
  - unfold deleteVideo. rewrite Hf, Hv. cbn [negb].
    cbv beta delta [bind findById findOne]. cbn [docs Video].
    rewrite Hfind, Ho. cbv beta iota. rewrite Hforeign. reflexivity.
  - intros env. unfold togglePublishStatus. rewrite Hf, Hv. cbn [negb].
    cbv beta delta [bind findById findOne]. cbn [docs Video].
    rewrite Hfind, Ho. cbv beta iota. rewrite Hforeign. reflexivity.
Qed.

Lemma video_mutations_need_owner_witness :
  deleteVideo (Some catVideoId) (Some bobId) published
  = (published,
     inl (ApiError 403 "You are not authorized to delete this video")).
Proof.
  assert (Some bobId <> Some aliceId) as Hne by discriminate.
  exact (proj1 (proj2
    (@video_mutations_need_owner published (Some catVideoId) (Some bobId)
       catVideo aliceId eq_refl eq_refl eq_refl eq_refl Hne))).
Defined.

(* ================================================================== *)
(** * What an update changes *)

(** The two outcomes of [updateVideo]: an error, with the collections
    as they were, or an answer, with one document updated in the fields
    the request has. *)
Lemma updateVideo_outcome videoId title description vp tp user env w :
  let vid := ObjectId.cast videoId in
  let w' := fst (updateVideo videoId title description vp tp user env w) in
  match snd (updateVideo videoId title description vp tp user env w) with
  | inl _ =>
      users w' = users w /\ videos w' = videos w /\ comments w' = comments w
      /\ likes w' = likes w /\ subscriptions w' = subscriptions w
  | inr resp =>
      let v' := data (body resp) in
    exists v,
        find (hasId Video vid) (videos w) = Some v
        /\ (exists o, user = Some o /\ VideoDoc.owner v = Some o)
        /\ status resp = 200
        /\ VideoDoc._id v' = VideoDoc._id v
        /\ VideoDoc.views v' = VideoDoc.views v
        /\ VideoDoc.isPublished v' = VideoDoc.isPublished v
        /\ VideoDoc.owner v' = VideoDoc.owner v
        /\ VideoDoc.createdAt v' = VideoDoc.createdAt v
        /\ VideoDoc.updatedAt v' = now env
        /\ Some (VideoDoc.title v')
           = (if truthy title then title else Some (VideoDoc.title v))
        /\ Some (VideoDoc.description v')
           = (if truthy description then description
              else Some (VideoDoc.description v))
        /\ (if truthy vp
            then exists r, videoUpload env = Some r
                   /\ VideoDoc.videoFile v' = url r
                   /\ VideoDoc.videoPublicId v' = public_id r
                   /\ VideoDoc.duration v'
                  = match upload_duration r with
                    | Some d => Some d
                    | None => VideoDoc.duration v
                    end
            else VideoDoc.videoFile v' = VideoDoc.videoFile v
                 /\ VideoDoc.videoPublicId v' = VideoDoc.videoPublicId v
                 /\ VideoDoc.duration v' = VideoDoc.duration v)
        /\ (if truthy tp
            then exists r, thumbnailUpload env = Some r
                   /\ VideoDoc.thumbnail v' = url r
                   /\ VideoDoc.thumbnailPublicId v' = public_id r
            else VideoDoc.thumbnail v' = VideoDoc.thumbnail v
                 /\ VideoDoc.thumbnailPublicId v' = VideoDoc.thumbnailPublicId v)
        /\ (forall j, j <> vid ->
              find (hasId Video j) (videos w') = find (hasId Video j) (videos w))
        /\ map VideoDoc._id (videos w') = map VideoDoc._id (videos w)
        /\ users w' = users w /\ comments w' = comments w
        /\ likes w' = likes w /\ subscriptions w' = subscriptions w
  end.
Proof.
  intros vid w'. subst vid w'. unfold updateVideo.
  destruct (falsy videoId); [cbn; auto 6|].
  destruct (negb (ObjectId.isValid videoId)); [cbn; auto 6|].
  destruct (falsy title && falsy description && falsy vp && falsy tp);
    [cbn; auto 6|].
  cbv beta delta [bind findById findOne notOwnedBy ret throw].
  cbn [docs Video].
  destruct (find (hasId Video (ObjectId.cast videoId)) (videos w)) as [v|]
    eqn:Hfind; [|cbn; auto 6].
  destruct (VideoDoc.owner v) as [o|] eqn:Hown; [|cbn; auto 6].
  destruct user as [u|]; [|cbn; auto 6]. unfold ObjectId.toString.
  destruct (String.eqb o u) eqn:Eo; cbn [negb]; [|cbn; auto 6].
  apply String.eqb_eq in Eo. subst u. cbv beta iota.
  set (f0 := assignText title description noFields).
  destruct (replaceVideoFile_run v vp env f0 w)
    as (_ & Hu1 & Hv1 & Hc1 & Hl1 & Hs1 & Hr1).
  destruct (replaceVideoFile v vp env f0 w) as [w1 r1]; cbn [fst snd] in *.
  destruct (accepted vp (videoUpload env)) eqn:A1;
    [subst r1|destruct Hr1 as [e ->]; cbn; auto 6].
  set (f1 := if truthy vp
             then match videoUpload env with
                  | Some r => assignVideoFile r f0
                  | None => f0
                  end
             else f0).
  destruct (replaceThumbnail_run v tp env f1 w1)
    as (_ & Hu2 & Hv2 & Hc2 & Hl2 & Hs2 & Hr2).
  destruct (replaceThumbnail v tp env f1 w1) as [w2 r2]; cbn [fst snd] in *.
  destruct (accepted tp (thumbnailUpload env)) eqn:A2;
    [subst r2|destruct Hr2 as [e ->]; cbn; rewrite ?Hu2, ?Hv2, ?Hc2, ?Hl2, ?Hs2;
              auto 6].
  cbv [findByIdAndUpdate json]. cbn [docs Video fst snd].
  rewrite Hv2, Hv1, Hfind.
  cbn [option_map fst snd users videos comments likes subscriptions write
       Video status body data].
  rewrite Hu2, Hu1, Hc2, Hc1, Hl2, Hl1, Hs2, Hs1.
  exists v. unfold accepted in A1, A2. subst f1 f0.
  destruct (truthy vp) eqn:Tv;
    [destruct (videoUpload env) as [[[vu|] [vi|] [vd|]]|];
     cbn in A1; try discriminate A1;
     try (apply andb_true_iff in A1; destruct A1 as [_ A1];
          discriminate A1)|];
  (destruct (truthy tp) eqn:Tt;
    [destruct (thumbnailUpload env) as [[[tu|] [ti|] td]|];
     cbn in A2; try discriminate A2;
     try (apply andb_true_iff in A2; destruct A2 as [_ A2];
          discriminate A2)|]);
  (destruct (truthy title) eqn:T1;
    [destruct (truthy_Some _ T1) as [ts ->]|]);
  (destruct (truthy description) eqn:T2;
    [destruct (truthy_Some _ T2) as [ds ->]|]);
  cbn [status body data
       applySet assignText assignVideoFile assignThumbnail noFields orKeep
       defined url public_id upload_duration set_title set_description
       set_videoFile set_videoPublicId set_duration set_thumbnail
       set_thumbnailPublicId VideoDoc._id VideoDoc.title VideoDoc.description
       VideoDoc.videoFile VideoDoc.videoPublicId VideoDoc.thumbnail
       VideoDoc.thumbnailPublicId VideoDoc.duration VideoDoc.views
       VideoDoc.isPublished VideoDoc.owner VideoDoc.createdAt
       VideoDoc.updatedAt];
  rewrite ?T1, ?T2;
  cbn [orKeep];
  (repeat match goal with
          | |- _ /\ _ => split
          end);
  try reflexivity; eauto 7;
  try (intros j Hj; apply (find_updateFirst_other Video);
       [apply applySet_id | auto]);
  try (apply map_updateFirst, applySet_id).
Qed.

(** X12.  What a successful [updateVideo] changes: the caller is the
    owner of the stored video; the title and the description change
    only when the request has a non-empty one, and become what was
    sent; the video file, its public id and its duration change only
    when the request has a video file, and become what the media store
    answered (the duration stays when the answer has none), and so for
    the thumbnail; the id, the view counter, the
    publish flag, the owner and the creation time stay, and so does
    every other video and every other collection; no video is added or
    removed. *)
Theorem updateVideo_changes_only_sent_fields
    videoId title description vp tp user env w resp :
  snd (updateVideo videoId title description vp tp user env w) = inr resp ->
  let vid := ObjectId.cast videoId in
  let w' := fst (updateVideo videoId title description vp tp user env w) in
  let v' := data (body resp) in
  exists v,
    find (hasId Video vid) (videos w) = Some v
    /\ (exists o, user = Some o /\ VideoDoc.owner v = Some o)
    /\ status resp = 200
    /\ VideoDoc._id v' = VideoDoc._id v
    /\ VideoDoc.views v' = VideoDoc.views v
    /\ VideoDoc.isPublished v' = VideoDoc.isPublished v
    /\ VideoDoc.owner v' = VideoDoc.owner v
    /\ VideoDoc.createdAt v' = VideoDoc.createdAt v
    /\ VideoDoc.updatedAt v' = now env
    /\ Some (VideoDoc.title v')
       = (if truthy title then title else Some (VideoDoc.title v))
    /\ Some (VideoDoc.description v')
       = (if truthy description then description
          else Some (VideoDoc.description v))
    /\ (if truthy vp
        then exists r, videoUpload env = Some r
               /\ VideoDoc.videoFile v' = url r
               /\ VideoDoc.videoPublicId v' = public_id r
               /\ VideoDoc.duration v'
                  = match upload_duration r with
                    | Some d => Some d
                    | None => VideoDoc.duration v
                    end
        else VideoDoc.videoFile v' = VideoDoc.videoFile v
             /\ VideoDoc.videoPublicId v' = VideoDoc.videoPublicId v
             /\ VideoDoc.duration v' = VideoDoc.duration v)
    /\ (if truthy tp
        then exists r, thumbnailUpload env = Some r
               /\ VideoDoc.thumbnail v' = url r
               /\ VideoDoc.thumbnailPublicId v' = public_id r
        else VideoDoc.thumbnail v' = VideoDoc.thumbnail v
             /\ VideoDoc.thumbnailPublicId v' = VideoDoc.thumbnailPublicId v)
    /\ (forall j, j <> vid ->
          find (hasId Video j) (videos w') = find (hasId Video j) (videos w))
    /\ map VideoDoc._id (videos w') = map VideoDoc._id (videos w)
    /\ users w' = users w /\ comments w' = comments w
    /\ likes w' = likes w /\ subscriptions w' = subscriptions w.
Proof.
  intros H.
  pose proof (updateVideo_outcome videoId title description vp tp user env w)
    as Hout.
  cbv zeta in Hout. rewrite H in Hout. exact Hout.
Qed.

Lemma updateVideo_changes_only_sent_fields_witness :
  exists v,
    find (hasId Video catVideoId) (videos published) = Some v
    /\ exists o, Some aliceId = Some o /\ VideoDoc.owner v = Some o.
Proof.
  destruct (@updateVideo_changes_only_sent_fields (Some catVideoId)
              (Some "Kittens") None None None (Some aliceId) (envWith "")
              published _ eq_refl)
    as (v & Hv & Ho & _).
  exists v. exact (conj Hv Ho).
Defined.

(* ================================================================== *)
(** * Comments *)

Lemma trimEnd_idem s : trimEnd (trimEnd s) = trimEnd s.
Proof.
  induction s as [|c r IH]; [reflexivity|]. cbn [trimEnd]. cbv zeta.
  destruct (isSpace (String c (trimEnd r))) eqn:E; [reflexivity|].
  cbn [trimEnd]. cbv zeta. now rewrite IH, E.
Qed.

Lemma trimEnd_prefix s : exists t, s = String.append (trimEnd s) t.
Proof.
  induction s as [|c r [t IH]]; [now exists EmptyString|].
  cbn [trimEnd]. cbv zeta.
  destruct (isSpace (String c (trimEnd r))).
  - now exists (String c r).
  - exists t. cbn [String.append]. now rewrite <- IH.
Qed.

Lemma startsWithSpace_append p t :
  startsWithSpace p = true -> startsWithSpace (String.append p t) = true.
Proof.
  destruct p as [|a [|b [|c r]]];
    cbn [startsWithSpace String.append]; try discriminate.
  - rewrite orb_false_r. intros ->. reflexivity.
  - rewrite orb_false_r. intros [->| ->]%orb_true_iff;
      [reflexivity | apply orb_true_r].
  - auto.
Qed.

Lemma trimStart_fixed s : startsWithSpace s = false -> trimStart s = s.
Proof.
  destruct s as [|a [|b [|c r]]]; cbn [startsWithSpace trimStart];
    [reflexivity| | |].
  - rewrite orb_false_r. now intros ->.
  - rewrite orb_false_r. now intros [-> ->]%orb_false_iff.
  - now intros [-> [-> ->]%orb_false_iff]%orb_false_iff.
Qed.

Lemma trimStart_clean n : forall s,
  String.length s <= n -> startsWithSpace (trimStart s) = false.
Proof.
  induction n as [|n IH]; intros s Hn.
  - destruct s; [reflexivity | cbn in Hn; lia].
  - destruct s as [|a r1]; [reflexivity|]. cbn [String.length] in Hn.
    cbn [trimStart].
    destruct (isSpace (String a EmptyString)) eqn:E1; [apply IH; lia|].
    destruct r1 as [|b r2];
      [cbn [startsWithSpace]; now rewrite E1|].
    cbn [String.length] in Hn.
    destruct (isSpace (String a (String b EmptyString))) eqn:E2;
      [apply IH; lia|].
    destruct r2 as [|c r3];
      [cbn [startsWithSpace]; now rewrite E1, E2|].
    cbn [String.length] in Hn.
    destruct (isSpace (String a (String b (String c EmptyString)))) eqn:E3;
      [apply IH; lia|].
    cbn [startsWithSpace]. now rewrite E1, E2, E3.
Qed.

(** Trimming what [trim] answered changes nothing: the result has no
    white space at either end. *)
Lemma trim_idem s : trim (trim s) = trim s.
Proof.
  unfold trim.
  assert (startsWithSpace (trimEnd (trimStart s)) = false) as Hclean.
  { destruct (startsWithSpace (trimEnd (trimStart s))) eqn:E; [|reflexivity].
    destruct (trimEnd_prefix (trimStart s)) as [t Ht].
    apply (startsWithSpace_append _ t) in E. rewrite <- Ht in E.
    now rewrite (@trimStart_clean (String.length s) s (le_n _)) in E. }
  rewrite (trimStart_fixed _ Hclean). apply trimEnd_idem.
Qed.

Lemma valid_not_falsy p : ObjectId.isValid p = true -> falsy p = false.
Proof.
  destruct p as [s|]; [|discriminate]. cbn.
  destruct s; [discriminate | reflexivity].
Qed.

(** What [addComment] does for a caller with a session, on a stored
    video. *)
Lemma addComment_run content videoId u env w v :
  blank content = false ->
  ObjectId.isValid videoId = true ->
  find (hasId Video (ObjectId.cast videoId)) (videos w) = Some v ->
  existsb (hasId Comment (newId env)) (comments w) = false ->
  let c := CommentDoc.mk (newId env) (trim (orEmpty content))
             (ObjectId.cast videoId) u in
  let w' := write Comment (comments w ++ [c]) w in
  addComment content videoId (Some u) env w
  = (w', inr {| status := 201;
                body := {| statusCode := 201;
                           data := populatedCommentPipeline (newId env) w';
                           message := "Comment added successfully" |} |}).
Proof.
  intros Hb Hv Hfind Hfresh c w'. subst c w'. unfold addComment.
  rewrite Hb, (valid_not_falsy _ Hv), Hv. cbn [negb].
  cbv [bind findById findOne create aggregate json ret].
  cbn [docs Video Comment idOf CommentDoc._id]. rewrite Hfind, Hfresh.
  reflexivity.
Qed.

(** X13.  Adding a comment: with content that is not blank, on a stored
    video, for a caller with a session, [addComment] appends exactly
    one comment, with the driver's id, owned by the caller, on that
    video, and answers 201 with it.  The stored content is the sent
    content trimmed, of Unicode white space as well: it is not empty
    and has no white space left at either end.  No other collection
    changes. *)
Theorem addComment_stores_trimmed content videoId u env w v :
  blank content = false ->
  ObjectId.isValid videoId = true ->
  find (hasId Video (ObjectId.cast videoId)) (videos w) = Some v ->
  existsb (hasId Comment (newId env)) (comments w) = false ->
  let w' := fst (addComment content videoId (Some u) env w) in
  exists c,
    comments w' = comments w ++ [c]
    /\ CommentDoc._id c = newId env
    /\ CommentDoc.owner c = u
    /\ CommentDoc.video c = ObjectId.cast videoId
    /\ CommentDoc.content c = trim (orEmpty content)
    /\ CommentDoc.content c <> ""
    /\ trim (CommentDoc.content c) = CommentDoc.content c
    /\ (exists resp p,
          snd (addComment content videoId (Some u) env w) = inr resp
          /\ status resp = 201
          /\ data (body resp) = Some p
          /\ PopulatedComment._id p = newId env
          /\ PopulatedComment.content p = CommentDoc.content c)
    /\ users w' = users w /\ videos w' = videos w /\ likes w' = likes w
    /\ subscriptions w' = subscriptions w /\ media w' = media w.
Proof.
  intros Hb Hv Hfind Hfresh w'. subst w'.
  rewrite (@addComment_run content videoId u env w v Hb Hv Hfind Hfresh).
  cbn [fst snd]. eexists. split; [reflexivity|].
  cbn [CommentDoc._id CommentDoc.owner CommentDoc.video CommentDoc.content].
  repeat split.
  - destruct content as [s|]; [|discriminate]. cbn in Hb |- *.
    apply orb_false_iff in Hb as [_ Hb]. now apply String.eqb_neq in Hb.
  - apply trim_idem.
  - unfold populatedCommentPipeline. cbn [comments write Comment].
    rewrite (@find_snoc_new _ (hasId Comment (newId env)) (comments w) _)
      by first [apply find_none_existsb; assumption | apply String.eqb_refl].
    cbn [option_map]. do 2 eexists. repeat split.
Qed.

Lemma addComment_stores_trimmed_witness :
  exists c,
    comments (fst (addComment (Some (String.append nbsp " nice "))
                     (Some catVideoId) (Some bobId)
                     (envWith niceCommentId) published))
    = comments published ++ [c]
    /\ CommentDoc.content c = "nice".
Proof.
  destruct (@addComment_stores_trimmed (Some (String.append nbsp " nice "))
              (Some catVideoId) bobId
              (envWith niceCommentId) published catVideo
              eq_refl eq_refl eq_refl eq_refl)
    as (c & Hc & _ & _ & _ & Ht & _).
  exists c. exact (conj Hc Ht).
Defined.

Lemma setContent_id s c : CommentDoc._id (setContent s c) = CommentDoc._id c.
Proof. reflexivity. Qed.

(** X14.  Editing a comment: called by the owner of a stored comment
    with content that is not blank, [updateComment] answers 200 and
    replaces the content of that comment by the content the request
    has: the handler passes it on as it was sent and does not trim it
    itself, as [addComment] does.  The id, the video and the owner of
    the comment stay, and so does every other comment and every other
    collection. *)
Theorem updateComment_stores_content_as_sent content commentId u w c :
  blank content = false ->
  ObjectId.isValid commentId = true ->
  find (hasId Comment (ObjectId.cast commentId)) (comments w) = Some c ->
  CommentDoc.owner c = u ->
  let cid := ObjectId.cast commentId in
  let w' := fst (updateComment content commentId (Some u) w) in
  find (hasId Comment cid) (comments w')
  = Some (CommentDoc.mk cid (orEmpty content) (CommentDoc.video c) u)
  /\ (forall j, j <> cid ->
        find (hasId Comment j) (comments w') = find (hasId Comment j) (comments w))
  /\ map CommentDoc._id (comments w') = map CommentDoc._id (comments w)
  /\ (exists resp p,
        snd (updateComment content commentId (Some u) w) = inr resp
        /\ status resp = 200
        /\ data (body resp) = Some p
        /\ PopulatedComment._id p = cid
        /\ PopulatedComment.content p = orEmpty content)
  /\ users w' = users w /\ videos w' = videos w /\ likes w' = likes w
  /\ subscriptions w' = subscriptions w /\ media w' = media w.
Proof.
  intros Hb Hv Hfind Ho cid w'. subst w'.
  pose proof (find_some _ _ Hfind) as [_ Hid]. apply hasId_true in Hid.
  cbn [idOf Comment] in Hid.
  assert (updateComment content commentId (Some u) w
          = (write Comment
               (updateFirst (hasId Comment cid) (setContent (orEmpty content))
                  (comments w)) w,
             inr {| status := 200;
                    body := {| statusCode := 200;
                               data := populatedCommentPipeline cid
                                 (write Comment
                                    (updateFirst (hasId Comment cid)
                                       (setContent (orEmpty content))
                                       (comments w)) w);
                               message := "Comment updated successfully" |} |}))
    as Hrun.
  { unfold updateComment. rewrite Hb, (valid_not_falsy _ Hv), Hv. cbn [negb].
    cbv [bind findById findOne findByIdAndUpdate aggregate json ret].
    cbn [docs Comment]. rewrite Hfind, Ho. unfold ObjectId.toString.
    rewrite String.eqb_refl. cbn [negb option_map].
    rewrite Hfind. cbn [option_map setContent CommentDoc._id]. rewrite Hid.
    reflexivity. }
  rewrite Hrun. cbn [fst snd comments users videos likes subscriptions media
                     write Comment].
  assert (find (hasId Comment cid)
            (updateFirst (hasId Comment cid) (setContent (orEmpty content))
               (comments w))
          = Some (CommentDoc.mk cid (orEmpty content) (CommentDoc.video c) u))
    as Hnew.
  { rewrite (find_updateFirst_same Comment) by apply setContent_id.
    cbn [docs Comment] in *. subst cid. rewrite Hfind. cbn. unfold setContent.
    now rewrite Hid, Ho. }
  split; [exact Hnew|]. split.
  { intros j Hj. apply (find_updateFirst_other Comment);
      [apply setContent_id | auto]. }
  split; [apply map_updateFirst, setContent_id|].
  split; [|repeat split].
  unfold populatedCommentPipeline. cbn [comments write Comment].
  rewrite Hnew. cbn [option_map]. do 2 eexists. repeat split.
Qed.

Lemma updateComment_stores_content_as_sent_witness :
  find (hasId Comment niceCommentId)
    (comments (fst (updateComment (Some " nicer ") (Some niceCommentId)
                      (Some bobId) commented)))
  = Some (CommentDoc.mk niceCommentId " nicer " catVideoId bobId).
Proof.
  exact (proj1
    (@updateComment_stores_content_as_sent (Some " nicer ")
       (Some niceCommentId) bobId commented
       (CommentDoc.mk niceCommentId "nice" catVideoId bobId)
       eq_refl eq_refl eq_refl eq_refl)).
Defined.

(** X15.  Only the owner changes a comment: for a stored comment, a
    caller who is not its owner gets an error from [updateComment] and
    from [deleteComment], 401 without a session and 403 with one, and
    the world is as it was. *)
Theorem comment_mutations_need_owner w commentId caller c :
  ObjectId.isValid commentId = true ->
  find (hasId Comment (ObjectId.cast commentId)) (comments w) = Some c ->
  caller <> Some (CommentDoc.owner c) ->
  let code := match caller with None => 401 | Some _ => 403 end in
  (forall content, blank content = false ->
     exists msg, updateComment content commentId caller w
                 = (w, inl (ApiError code msg)))
  /\ exists msg, deleteComment commentId caller w
                 = (w, inl (ApiError code msg)).
Proof.
  intros Hv Hfind Hne code. subst code.
  assert (forall u, caller = Some u ->
            negb (String.eqb (ObjectId.toString (CommentDoc.owner c))
                    (ObjectId.toString u)) = true) as Hforeign.
  { intros u ->. unfold ObjectId.toString. apply negb_true_iff.
    apply String.eqb_neq. congruence. }
  split.
  - intros content Hb. unfold updateComment.
    rewrite Hb, (valid_not_falsy _ Hv), Hv. cbn [negb].
    destruct caller as [u|]; [|unfold throw; eauto].
    cbv [bind findById findOne throw]. cbn [docs Comment].
    rewrite Hfind, (Hforeign u eq_refl). eauto.
  - unfold deleteComment. rewrite (valid_not_falsy _ Hv), Hv. cbn [negb].
    destruct caller as [u|]; [|unfold throw; eauto].
    cbv [bind findById findOne throw]. cbn [docs Comment].
    rewrite Hfind, (Hforeign u eq_refl). eauto.
Qed.

Lemma comment_mutations_need_owner_witness :
  exists msg, deleteComment (Some niceCommentId) (Some aliceId) commented
              = (commented, inl (ApiError 403 msg)).
Proof.
  assert (Some aliceId <> Some bobId) as Hne by discriminate.
  exact (proj2
    (@comment_mutations_need_owner commented (Some niceCommentId)
       (Some aliceId) (CommentDoc.mk niceCommentId "nice" catVideoId bobId)
       eq_refl eq_refl Hne)).
Defined.

(** X16.  Adding a comment and deleting it again: in a world the
    controllers can produce, after [addComment] has stored a comment
    under a fresh id, [deleteComment] of that id by the same caller
    answers 200 and the Comment and Like collections are what they were
    before the comment was added. *)
Theorem addComment_then_deleteComment content videoId u env w v :
  reachable w ->
  blank content = false ->
  ObjectId.isValid videoId = true ->
  find (hasId Video (ObjectId.cast videoId)) (videos w) = Some v ->
  ObjectId.canonical (newId env) = true ->
  existsb (hasId Comment (newId env)) (comments w) = false ->
  let added := fst (addComment content videoId (Some u) env w) in
  let deleted := deleteComment (Some (newId env)) (Some u) added in
  (exists resp, snd deleted = inr resp /\ status resp = 200)
  /\ comments (fst deleted) = comments w
  /\ likes (fst deleted) = likes w
  /\ videos (fst deleted) = videos w
  /\ users (fst deleted) = users w
  /\ subscriptions (fst deleted) = subscriptions w.
Proof.
  intros Hr Hb Hv Hfind Hcan Hfresh added deleted. subst deleted added.
  rewrite (@addComment_run content videoId u env w v Hb Hv Hfind Hfresh).
  cbn [fst]. destruct (canonical_cast _ Hcan) as [Hvalid Hcast].
  set (c := CommentDoc.mk (newId env) (trim (orEmpty content))
              (ObjectId.cast videoId) u).
  assert (filter (fun l => negb (refIs (LikeDoc.comment l) (newId env)))
            (likes w) = likes w) as Hlikes.
  { pose proof (reachable_Inv Hr) as HI.
    apply forallb_filter_id. apply forallb_forall. intros l Hl.
    apply negb_true_iff. apply refIs_false. intros Hc.
    destruct (inv_comment_like HI l Hl Hc) as (cd & Hcd & Hid & _).
    assert (existsb (hasId Comment (newId env)) (comments w) = true) as Hex.
    { apply existsb_exists. exists cd. split; [assumption|].
      now apply hasId_true. }
    congruence. }
  unfold deleteComment.
  rewrite (valid_not_falsy _ Hvalid), Hvalid, Hcast. cbn [negb].
  cbv [bind findById findOne deleteMany deleteOne json ret throw].
  cbn [docs Comment Like comments likes write].
  rewrite (@find_snoc_new _ (hasId Comment (newId env)) (comments w) c)
    by first [apply find_none_existsb; assumption | apply String.eqb_refl].
  cbn [CommentDoc.owner c]. unfold ObjectId.toString.
  rewrite String.eqb_refl. cbn [negb].
  cbn [docs Comment Like comments likes users videos subscriptions media
       tempFiles write].
  rewrite existsb_snoc, Hfresh.
  assert (hasId Comment (newId env) c = true) as Hc by apply String.eqb_refl.
  rewrite Hc. cbn [orb Nat.eqb fst snd comments likes videos users
                   subscriptions].
  rewrite Hlikes, (@removeFirst_snoc_new _ _ (comments w) c Hfresh Hc).
  split; [eexists; split; reflexivity|]. repeat split.
Qed.

Lemma addComment_then_deleteComment_witness :
  comments (fst (deleteComment (Some niceCommentId) (Some bobId) commented))
  = comments published.
Proof.
  exact (proj1 (proj2
    (@addComment_then_deleteComment (Some "nice") (Some catVideoId) bobId
       (envWith niceCommentId) published catVideo published_reachable
       eq_refl eq_refl eq_refl eq_refl eq_refl))).
Defined.

(* ================================================================== *)
(** * What a request leaves untouched *)

Lemma videoByIdPipeline_none vid w :
  find (hasId Video vid) (videos w) = None -> videoByIdPipeline vid w = [].
Proof.
  intros H. unfold videoByIdPipeline. now rewrite (filter_find_none _ _ H).
Qed.

(** A leaf of a handler in which a document that was found is then
    missing does not exist. *)
Ltac found_then_missing :=
  cbn [docs Video Comment Like Subscription videos comments likes
       subscriptions users write setTempFiles logMedia option_map] in *;
  match goal with
  | H : find ?q ?l = Some _, H' : existsb ?q ?l = false |- _ =>
      apply find_exists in H; congruence
  | H : find ?q ?l = Some _, H' : option_map _ (find ?q ?l) = None |- _ =>
      rewrite H in H'; discriminate H'
  | H : videoByIdPipeline ?i ?w = _ :: _,
    H' : option_map _ (find (hasId Video ?i) _) = None |- _ =>
      destruct (find (hasId Video i) (videos w)) eqn:Hnone;
      [discriminate H' | rewrite (videoByIdPipeline_none _ _ Hnone) in H;
                         discriminate H]
  end.

Ltac frame_leaf :=
  unfold failure; cbn [fst snd];
  repeat match goal with
         | |- _ /\ _ => split
         | |- forall _, _ => intro
         end;
  try reflexivity; try discriminate; try found_then_missing.

(** No handler writes the User collection; only [toggleSubscription]
    writes the Subscription collection; and a handler that ends in an
    error has written to no collection. *)
Lemma serve_frame r env w :
  users (serve r env w) = users w
  /\ (match r with
      | ToggleSubscription _ _ => True
      | _ => subscriptions (serve r env w) = subscriptions w
      end)
  /\ forall e, raised r env w = Some e ->
       videos (serve r env w) = videos w
       /\ comments (serve r env w) = comments w
       /\ likes (serve r env w) = likes w
       /\ subscriptions (serve r env w) = subscriptions w.
Proof.
  destruct r; cbn [serve raised].
  - unfold toggleVideoLike. run_handler; frame_leaf.
  - unfold toggleCommentLike. run_handler; frame_leaf.
  - unfold getLikedVideos. run_handler; frame_leaf.
  - unfold publishAVideo. cbn [existsb]. run_handler; frame_leaf.
  - unfold getVideoById. run_handler; frame_leaf.
  - pose proof (updateVideo_outcome videoId title description
                  videoFileLocalPath thumbnailLocalPath user env w) as H.
    cbv zeta in H. unfold failure.
    destruct (snd (updateVideo _ _ _ _ _ _ _ _)) as [e|resp].
    + destruct H as (Hu & Hv & Hc & Hl & Hs). repeat split; auto.
    + destruct H as (v & H). 
      repeat match goal with H : _ /\ _ |- _ => destruct H end.
      repeat split; auto. discriminate.
  - unfold deleteVideo. run_handler; frame_leaf.
  - unfold togglePublishStatus. run_handler; frame_leaf.
  - unfold addComment. run_handler; frame_leaf.
  - unfold updateComment. run_handler; frame_leaf.
  - unfold deleteComment. run_handler; frame_leaf.
  - unfold toggleSubscription. run_handler; frame_leaf.
  - unfold getUserChannelSubscribers. run_handler; frame_leaf.
  - unfold getSubscribedChannels. run_handler; frame_leaf.
Qed.




(* ================================================================== *)
(** * Subscriptions: one per subscriber and channel *)

(** What one call of [toggleSubscription] does, for a caller with a
    session and a stored channel that is not spelled as the caller's
    id. *)
Lemma toggleSubscription_run w channelId me env ch :
  ObjectId.isValid channelId = true ->
  find (hasId User (ObjectId.cast channelId)) (users w) = Some ch ->
  String.eqb (ObjectId.toString me) (orEmpty channelId) = false ->
  let cid := ObjectId.cast channelId in
  let d := SubscriptionDoc.mk (newId env) me cid in
  (existsb (subscriptionOf me cid) (subscriptions w) = false ->
   existsb (hasId Subscription (newId env)) (subscriptions w) = false) ->
  toggleSubscription channelId (Some me) env w
  = (write Subscription (resubscribed (subscriptionOf me cid) d
                           (subscriptions w)) w,
     inr (subscribedAnswer
            (negb (existsb (subscriptionOf me cid) (subscriptions w)))
            channelId)).
Proof.
  intros Hv Hc Hne cid d Hfresh. subst d.
  unfold toggleSubscription, resubscribed. rewrite Hv, Hne. cbn [negb].
  change (ObjectId.cast channelId) with cid in Hc |- *.
  cbv [bind findById findOne deleteOne create json ret throw].
  cbn [docs User Subscription idOf SubscriptionDoc._id]. rewrite Hc.
  change (fun s => ObjectId.eqb (SubscriptionDoc.subscriber s) me
                   && ObjectId.eqb (SubscriptionDoc.channel s) cid)
    with (subscriptionOf me cid).
  destruct (find (subscriptionOf me cid) (subscriptions w)) as [s|] eqn:E.
  - apply find_exists in E. rewrite E. reflexivity.
  - apply find_none_existsb in E. rewrite E in *. rewrite (Hfresh eq_refl).
    reflexivity.
Qed.

Lemma subscriptionOf_key me cid s :
  subscriptionOf me cid s = true <-> subscriptionKey s = (me, cid).
Proof.
  unfold subscriptionOf, subscriptionKey, ObjectId.eqb.
  rewrite andb_true_iff, !String.eqb_eq. split.
  - intros [-> ->]. reflexivity.
  - intros [= -> ->]. auto.
Qed.

(** A toggle keeps the pairs (subscriber, channel) distinct. *)
Lemma NoDup_keys_resubscribed me cid i ss :
  NoDup (map subscriptionKey ss) ->
  NoDup (map subscriptionKey
           (resubscribed (subscriptionOf me cid)
              (SubscriptionDoc.mk i me cid) ss)).
Proof.
  intros H. unfold resubscribed.
  destruct (find (subscriptionOf me cid) ss) as [s|] eqn:E.
  - now apply NoDup_map_removeFirst.
  - apply NoDup_map_snoc; [assumption|]. cbn. intros Hin.
    apply in_map_iff in Hin as (x & Hk & Hx).
    apply (find_none _ _ E) in Hx.
    assert (subscriptionOf me cid x = true) as Hq
      by (apply subscriptionOf_key; exact Hk).
    congruence.
Qed.

Lemma toggleSubscription_keys c u env w :
  NoDup (map subscriptionKey (subscriptions w)) ->
  NoDup (map subscriptionKey
           (subscriptions (fst (toggleSubscription c u env w)))).
Proof.
  intros H. unfold toggleSubscription. run_handler; try exact H.
  - now apply NoDup_map_removeFirst.
  - apply (@NoDup_keys_resubscribed t (ObjectId.cast c) (newId env)) in H.
    unfold resubscribed in H.
    match goal with
    | E : find _ (docs Subscription w) = None |- _ =>
        cbn [docs Subscription] in E;
        change (find (subscriptionOf t (ObjectId.cast c)) (subscriptions w)
                = None) in E; rewrite E in H
    end.
    exact H.
Qed.

Lemma reachable_subscription_keys w :
  reachable w -> NoDup (map subscriptionKey (subscriptions w)).
Proof.
  induction 1 as [|w r env Hr IH|w us Hr IH|w fs Hr IH];
    [constructor | | exact IH | exact IH].
  destruct (serve_frame r env w) as (_ & Hs & _).
  destruct r; try (rewrite Hs; exact IH).
  now apply toggleSubscription_keys.
Qed.

(** X18.  In every world the controllers can produce, no subscriber has
    two Subscriptions to the same channel. *)
Theorem one_subscription_per_subscriber_and_channel w :
  reachable w ->
  forall x y, In x (subscriptions w) -> In y (subscriptions w) ->
    SubscriptionDoc.subscriber x = SubscriptionDoc.subscriber y ->
    SubscriptionDoc.channel x = SubscriptionDoc.channel y ->
    x = y.
Proof.
  intros Hr x y Hx Hy Hs Hc.
  eapply NoDup_map_injective;
    [exact (reachable_subscription_keys Hr) | exact Hx | exact Hy |].
  unfold subscriptionKey. congruence.
Qed.

Lemma subscribed_reachable : reachable subscribed.
Proof. reach. Qed.

Lemma one_subscription_per_subscriber_and_channel_witness :
  In (SubscriptionDoc.mk "f00000000000000000000008" bobId aliceId)
    (subscriptions subscribed)
  /\ nth_error (subscriptions subscribed) 0
     = Some (SubscriptionDoc.mk "f00000000000000000000008" bobId aliceId).
Proof.
  assert (In (SubscriptionDoc.mk "f00000000000000000000008" bobId aliceId)
            (subscriptions subscribed)) as Hin by (vm_compute; tauto).
  split; [exact Hin|].
  exact (f_equal Some
           (@one_subscription_per_subscriber_and_channel subscribed
              subscribed_reachable _ _ Hin Hin eq_refl eq_refl)).
Defined.

Section Resubscribed.
Variables (ss : list SubscriptionDoc.t) (q : SubscriptionDoc.t -> bool).
Hypothesis ids : NoDup (map SubscriptionDoc._id ss).
Hypothesis one : forall x y, In x ss -> In y ss ->
  q x = true -> q y = true -> x = y.

Lemma resubscribed_flips d :
  q d = true -> existsb q (resubscribed q d ss) = negb (existsb q ss).
Proof.
  intros Hd. unfold resubscribed. destruct (find q ss) as [s|] eqn:E.
  - apply find_some in E as [Hs Hq].
    assert (existsb q ss = true) as -> by (apply existsb_exists; eauto).
    simpl. destruct (existsb q _) eqn:Ex; [|reflexivity].
    apply existsb_exists in Ex as (x & Hx & Hqx).
    apply (removeFirst_by_id Subscription) in Hx as [Hx Hne];
      [|exact ids|exact Hs].
    exfalso. apply Hne. now apply one.
  - apply find_none_existsb in E. now rewrite existsb_snoc, E, Hd.
Qed.

Lemma resubscribed_twice d1 d2 :
  q d1 = true -> q d2 = true ->
  existsb (hasId Subscription (SubscriptionDoc._id d1)) ss = false ->
  existsb (hasId Subscription (SubscriptionDoc._id d2)) ss = false ->
  let once := resubscribed q d1 ss in
  let twice := resubscribed q d2 once in
  existsb q once = negb (existsb q ss)
  /\ existsb q twice = existsb q ss
  /\ List.length twice = List.length ss
  /\ (existsb q ss = false -> twice = ss).
Proof.
  intros Hd1 Hd2 Hf1 Hf2 once twice.
  pose proof (resubscribed_flips Hd1) as H1. fold once in H1.
  split; [exact H1|]. subst twice once. unfold resubscribed in *.
  destruct (find q ss) as [s|] eqn:E.
  - pose proof (find_some _ _ E) as [Hs Hq].
    assert (existsb q ss = true) as Hex by (apply existsb_exists; eauto).
    rewrite Hex in *. simpl in H1. apply find_none_existsb in H1. rewrite H1.
    rewrite existsb_snoc, Hd2, orb_true_r, length_app, length_removeFirst.
    assert (existsb (hasId Subscription (SubscriptionDoc._id s)) ss = true)
      as -> by (apply existsb_exists; exists s; split;
                [assumption | now apply hasId_true]).
    repeat split; [|discriminate].
    destruct ss; [contradiction | simpl; lia].
  - pose proof (proj1 (find_none_existsb _ _) E) as Hex. rewrite Hex in *.
    rewrite (@find_snoc_new _ q ss d1 E Hd1). simpl.
    rewrite (@removeFirst_snoc_new _
               (hasId Subscription (SubscriptionDoc._id d1)) ss d1 Hf1)
      by (now apply hasId_true).
    auto.
Qed.

End Resubscribed.

Lemma resubscribed_fresh q d1 i ss :
  q d1 = true ->
  existsb (hasId Subscription i) ss = false ->
  existsb q (resubscribed q d1 ss) = false ->
  existsb (hasId Subscription i) (resubscribed q d1 ss) = false.
Proof.
  intros Hd Hf. unfold resubscribed. destruct (find q ss) as [s|].
  - intros _. now apply existsb_removeFirst.
  - rewrite existsb_snoc, Hd, orb_true_r. discriminate.
Qed.

Lemma subscriptionOf_new me cid i :
  subscriptionOf me cid (SubscriptionDoc.mk i me cid) = true.
Proof. now apply subscriptionOf_key. Qed.

(** X19.  Two calls of [toggleSubscription] in sequence, by a caller
    with a session, for a stored channel that is not the caller's own
    and ids of new documents that are not taken: the first answers the
    negation of whether the caller was subscribed, the second answers
    the original state; whether a Subscription of (caller, channel)
    exists alternates and is restored, the number of Subscriptions is
    restored, and the collection itself is restored when the caller was
    not subscribed before. *)
Theorem toggleSubscription_twice w channelId me env1 env2 ch :
  reachable w ->
  ObjectId.isValid channelId = true ->
  find (hasId User (ObjectId.cast channelId)) (users w) = Some ch ->
  String.eqb (ObjectId.toString me) (orEmpty channelId) = false ->
  existsb (hasId Subscription (newId env1)) (subscriptions w) = false ->
  existsb (hasId Subscription (newId env2)) (subscriptions w) = false ->
  let subscribed := fun w' =>
    existsb (subscriptionOf me (ObjectId.cast channelId)) (subscriptions w') in
  let once := toggleSubscription channelId (Some me) env1 w in
  let twice := toggleSubscription channelId (Some me) env2 (fst once) in
  snd once = inr (subscribedAnswer (negb (subscribed w)) channelId)
  /\ snd twice = inr (subscribedAnswer (subscribed w) channelId)
  /\ subscribed (fst once) = negb (subscribed w)
  /\ subscribed (fst twice) = subscribed w
  /\ List.length (subscriptions (fst twice)) = List.length (subscriptions w)
  /\ (subscribed w = false -> subscriptions (fst twice) = subscriptions w).
Proof.
  intros Hr Hv Hc Hne Hf1 Hf2 subscribed once twice.
  pose proof (reachable_Inv Hr) as HI.
  pose proof (reachable_subscription_keys Hr) as Hk.
  set (cid := ObjectId.cast channelId) in *.
  set (d1 := SubscriptionDoc.mk (newId env1) me cid).
  set (d2 := SubscriptionDoc.mk (newId env2) me cid).
  assert (forall x y, In x (subscriptions w) -> In y (subscriptions w) ->
            subscriptionOf me cid x = true -> subscriptionOf me cid y = true ->
            x = y) as Hone.
  { intros x y Hx Hy Hqx Hqy.
    eapply NoDup_map_injective; [exact Hk | exact Hx | exact Hy |].
    apply subscriptionOf_key in Hqx, Hqy. congruence. }
  assert (once = (write Subscription
                    (resubscribed (subscriptionOf me cid) d1 (subscriptions w))
                    w,
                  inr (subscribedAnswer (negb (subscribed w)) channelId)))
    as E1 by (apply (@toggleSubscription_run w channelId me env1 ch); auto).
  destruct (@resubscribed_twice (subscriptions w) (subscriptionOf me cid)
              (inv_subscription_ids HI) Hone d1 d2
              (subscriptionOf_new _ _ _) (subscriptionOf_new _ _ _) Hf1 Hf2)
    as (T1 & T2 & T3 & T4).
  assert (twice = (write Subscription
                     (resubscribed (subscriptionOf me cid) d2
                        (resubscribed (subscriptionOf me cid) d1
                           (subscriptions w)))
                     (fst once),
                   inr (subscribedAnswer (subscribed w) channelId))) as E2.
  { subst twice. rewrite E1. cbn [fst].
    rewrite (@toggleSubscription_run
               (write Subscription
                  (resubscribed (subscriptionOf me cid) d1 (subscriptions w)) w)
               channelId me env2 ch Hv Hc Hne).
    - cbn [subscriptions write Subscription]. fold cid d2.
      unfold subscribed at 1. rewrite T1, negb_involutive. reflexivity.
    - cbn [subscriptions write Subscription]. fold cid.
      apply resubscribed_fresh; [apply subscriptionOf_new | exact Hf2]. }
  rewrite E2, E1. cbn [fst snd subscriptions write Subscription].
  unfold subscribed. repeat split; assumption.
Qed.

Lemma toggleSubscription_twice_witness :
  subscriptions
    (fst (toggleSubscription (Some aliceId) (Some bobId)
            (envWith "f00000000000000000000009")
            (fst (toggleSubscription (Some aliceId) (Some bobId)
                    (envWith "f00000000000000000000008") twoUsers))))
  = subscriptions twoUsers.
Proof.
  assert (reachable twoUsers) as Hr by reach.
  refine (proj2 (proj2 (proj2 (proj2 (proj2
    (@toggleSubscription_twice twoUsers (Some aliceId) bobId
       (envWith "f00000000000000000000008")
       (envWith "f00000000000000000000009") alice
       Hr eq_refl eq_refl eq_refl eq_refl eq_refl))))) _).
  reflexivity.
Defined.

(* ================================================================== *)
(** * Listings after a toggle *)

Lemma In_subscribedChannelsPipeline sid w o :
  In o (subscribedChannelsPipeline sid w) <->
  exists s u, In s (subscriptions w) /\ SubscriptionDoc.subscriber s = sid
              /\ In u (users w)
              /\ UserDoc._id u = SubscriptionDoc.channel s
              /\ o = channelProfile u.
Proof.
  unfold subscribedChannelsPipeline, lookupUnwind. rewrite in_map_iff. split.
  - intros ([s u] & <- & Hin). apply in_flat_map in Hin as (s' & Hs & Hin).
    apply in_map_iff in Hin as (u' & [= <- <-] & Hu).
    apply filter_In in Hs as [Hs Hc], Hu as [Hu Hi].
    apply String.eqb_eq in Hc. apply refIs_true in Hi.
    exists s', u'. repeat split; congruence.
  - intros (s & u & Hs & Hc & Hu & Hi & ->). exists (s, u). split; [reflexivity|].
    apply in_flat_map. exists s. split.
    + apply filter_In. split; [assumption|]. now apply String.eqb_eq.
    + apply in_map. apply filter_In. split; [assumption|].
      apply refIs_true. congruence.
Qed.

Lemma filter_map_pair {A B} (q : A * B -> bool) (a : A) (l : list B) :
  filter q (map (pair a) l) = map (pair a) (filter (fun b => q (a, b)) l).
Proof.
  induction l as [|b r IH]; cbn; [reflexivity|].
  destruct (q (a, b)); cbn; now rewrite IH.
Qed.

(** [$lookup] and [$unwind] give the pairs of a local and a foreign
    document whose reference matches, each pair once. *)
Lemma lookupUnwind_list_prod {L F} (foreign : list F)
    (foreignId : F -> ObjectId.t) (localField : L -> option ObjectId.t) l :
  lookupUnwind foreign foreignId localField l
  = filter (fun p => refIs (localField (fst p)) (foreignId (snd p)))
      (list_prod l foreign).
Proof.
  unfold lookupUnwind. induction l as [|d r IH]; cbn; [reflexivity|].
  now rewrite filter_app, filter_map_pair, IH.
Qed.

(** X20.  [getSubscribedChannels] changes nothing and, for a valid
    subscriber id, answers 200 with exactly one object per pair of a
    Subscription of the subscriber and a stored User record of its
    channel, in the order of the Subscriptions; each object has exactly
    the fields [_id], [username], [fullName] and [avatar] of the
    channel's User record: neither the e-mail address nor the password.
    A missing or malformed id is answered with 400. *)
Theorem getSubscribedChannels_projects_profile subscriberId w :
  fst (getSubscribedChannels subscriberId w) = w
  /\ match snd (getSubscribedChannels subscriberId w) with
     | inl e =>
         e = ApiError 400 "Invalid subscriber ID provided."
         /\ (falsy subscriberId || negb (ObjectId.isValid subscriberId)) = true
     | inr resp =>
         status resp = 200
         /\ data (body resp)
            = map (fun su : SubscriptionDoc.t * UserDoc.t =>
                     [("_id", UserDoc._id (snd su));
                      ("username", UserDoc.username (snd su));
                      ("fullName", UserDoc.fullName (snd su));
                      ("avatar", UserDoc.avatar (snd su))])
                (filter (fun su =>
                           ObjectId.eqb (SubscriptionDoc.channel (fst su))
                             (UserDoc._id (snd su)))
                   (list_prod
                      (filter (fun s =>
                                 ObjectId.eqb (SubscriptionDoc.subscriber s)
                                   (ObjectId.cast subscriberId))
                         (subscriptions w))
                      (users w)))
         /\ (forall o, In o (data (body resp)) <->
               exists s u,
                 In s (subscriptions w)
                 /\ SubscriptionDoc.subscriber s = ObjectId.cast subscriberId
                 /\ In u (users w)
                 /\ UserDoc._id u = SubscriptionDoc.channel s
                 /\ o = [("_id", UserDoc._id u);
                         ("username", UserDoc.username u);
                         ("fullName", UserDoc.fullName u);
                         ("avatar", UserDoc.avatar u)])
     end.
Proof.
  unfold getSubscribedChannels.
  destruct (falsy subscriberId || negb (ObjectId.isValid subscriberId)) eqn:E;
    [simpl; auto|].
  cbv [bind aggregate json ret].
  assert (subscribedChannelsPipeline (ObjectId.cast subscriberId) w
          = map (fun su : SubscriptionDoc.t * UserDoc.t =>
                   [("_id", UserDoc._id (snd su));
                    ("username", UserDoc.username (snd su));
                    ("fullName", UserDoc.fullName (snd su));
                    ("avatar", UserDoc.avatar (snd su))])
              (filter (fun su =>
                         ObjectId.eqb (SubscriptionDoc.channel (fst su))
                           (UserDoc._id (snd su)))
                 (list_prod
                    (filter (fun s =>
                               ObjectId.eqb (SubscriptionDoc.subscriber s)
                                 (ObjectId.cast subscriberId))
                       (subscriptions w))
                    (users w)))) as Hlist.
  { unfold subscribedChannelsPipeline. rewrite lookupUnwind_list_prod.
    reflexivity. }
  destruct (subscribedChannelsPipeline (ObjectId.cast subscriberId) w)
    as [|o l] eqn:Ep;
    simpl; (split; [reflexivity|]); (split; [reflexivity|]);
    (split; [exact Hlist|]);
    intros x;
    (etransitivity;
     [|apply (In_subscribedChannelsPipeline (ObjectId.cast subscriberId))]);
    rewrite Ep; reflexivity.
Qed.

(** The two listings answer with what their pipelines compute. *)
Lemma getUserChannelSubscribers_run channelId w :
  ObjectId.isValid channelId = true ->
  exists resp,
    getUserChannelSubscribers channelId w = (w, inr resp)
    /\ status resp = 200
    /\ data (body resp) = subscribersPipeline (ObjectId.cast channelId) w.
Proof.
  intros Hv. unfold getUserChannelSubscribers.
  rewrite (valid_not_falsy _ Hv), Hv. cbn [negb orb].
  cbv [bind aggregate json ret].
  destruct (subscribersPipeline (ObjectId.cast channelId) w) eqn:E; cbn;
    eexists; repeat split.
Qed.

Lemma getSubscribedChannels_run subscriberId w :
  ObjectId.isValid subscriberId = true ->
  exists resp,
    getSubscribedChannels subscriberId w = (w, inr resp)
    /\ status resp = 200
    /\ data (body resp)
       = subscribedChannelsPipeline (ObjectId.cast subscriberId) w.
Proof.
  intros Hv. unfold getSubscribedChannels.
  rewrite (valid_not_falsy _ Hv), Hv. cbn [negb orb].
  cbv [bind aggregate json ret].
  destruct (subscribedChannelsPipeline (ObjectId.cast subscriberId) w) eqn:E;
    cbn; eexists; repeat split.
Qed.

(** X21.  Subscribing shows in both listings: in a world the
    controllers can produce, after [toggleSubscription] by a stored
    user to a stored channel, the subscriber's profile is among the
    channel's subscribers, and the channel's profile among the
    subscriber's channels, exactly when the call answered
    [isSubscribed = true]. *)
Theorem toggleSubscription_then_listed w channelId me env ch u :
  reachable w ->
  ObjectId.isValid channelId = true ->
  find (hasId User (ObjectId.cast channelId)) (users w) = Some ch ->
  String.eqb (ObjectId.toString me) (orEmpty channelId) = false ->
  ObjectId.canonical me = true ->
  In u (users w) -> UserDoc._id u = me ->
  existsb (hasId Subscription (newId env)) (subscriptions w) = false ->
  let toggle := toggleSubscription channelId (Some me) env w in
  exists answer subscribers channels,
    snd toggle = inr answer
    /\ snd (getUserChannelSubscribers channelId (fst toggle)) = inr subscribers
    /\ snd (getSubscribedChannels (Some me) (fst toggle)) = inr channels
    /\ (In (subscriberProfile u) (data (body subscribers))
        <-> isSubscribed (data (body answer)) = true)
    /\ (In (channelProfile ch) (data (body channels))
        <-> isSubscribed (data (body answer)) = true).
Proof.
  intros Hr Hv Hc Hne Hcan Hu Hid Hfresh toggle.
  pose proof (reachable_Inv Hr) as HI.
  pose proof (reachable_subscription_keys Hr) as Hk.
  destruct (canonical_cast _ Hcan) as [Hmv Hmc].
  set (cid := ObjectId.cast channelId) in *.
  set (d := SubscriptionDoc.mk (newId env) me cid).
  set (q := subscriptionOf me cid).
  assert (forall x y, In x (subscriptions w) -> In y (subscriptions w) ->
            q x = true -> q y = true -> x = y) as Hone.
  { intros x y Hx Hy Hqx Hqy.
    eapply NoDup_map_injective; [exact Hk | exact Hx | exact Hy |].
    apply subscriptionOf_key in Hqx, Hqy. congruence. }
  assert (toggle = (write Subscription (resubscribed q d (subscriptions w)) w,
                    inr (subscribedAnswer
                           (negb (existsb q (subscriptions w))) channelId)))
    as E by (apply (@toggleSubscription_run w channelId me env ch); auto).
  pose proof (@resubscribed_flips (subscriptions w) q
                (inv_subscription_ids HI) Hone d (subscriptionOf_new _ _ _))
    as Hflip.
  rewrite E. cbn [fst snd].
  set (w' := write Subscription (resubscribed q d (subscriptions w)) w).
  destruct (@getUserChannelSubscribers_run channelId w' Hv)
    as (rs & Ers & _ & Hrs).
  destruct (@getSubscribedChannels_run (Some me) w' Hmv)
    as (rc & Erc & _ & Hrc).
  exists (subscribedAnswer (negb (existsb q (subscriptions w))) channelId),
    rs, rc.
  rewrite Ers, Erc, Hrs, Hrc, Hmc. fold cid.
  cbn [snd subscribedAnswer data body isSubscribed].
  rewrite <- Hflip. change (resubscribed q d (subscriptions w))
    with (subscriptions w').
  pose proof (find_some _ _ Hc) as [Hch Hchid]. apply hasId_true in Hchid.
  cbn [idOf User] in Hchid.
  repeat split; try reflexivity.
  - intros Hin. apply In_subscribersPipeline in Hin
      as (s & u' & Hs & Hsc & _ & Hsu & Hp).
    apply existsb_exists. exists s. split; [exact Hs|].
    apply subscriptionOf_key. unfold subscriptionKey.
    injection Hp as Hp _. congruence.
  - intros Hex. apply existsb_exists in Hex as (s & Hs & Hq).
    apply subscriptionOf_key in Hq. injection Hq as Hsm Hsc.
    apply In_subscribersPipeline. exists s, u.
    repeat split; auto; congruence.
  - intros Hin. apply In_subscribedChannelsPipeline in Hin
      as (s & u' & Hs & Hsm & _ & Hsu & Hp).
    apply existsb_exists. exists s. split; [exact Hs|].
    apply subscriptionOf_key. unfold subscriptionKey.
    injection Hp as Hp _. congruence.
  - intros Hex. apply existsb_exists in Hex as (s & Hs & Hq).
    apply subscriptionOf_key in Hq. injection Hq as Hsm Hsc.
    apply In_subscribedChannelsPipeline. exists s, ch.
    repeat split; auto; congruence.
Qed.

Lemma toggleSubscription_then_listed_witness :
  exists answer subscribers,
    snd (toggleSubscription (Some aliceId) (Some bobId)
           (envWith "f00000000000000000000008") twoUsers) = inr answer
    /\ snd (getUserChannelSubscribers (Some aliceId) subscribed)
       = inr subscribers
    /\ (In (subscriberProfile bob) (data (body subscribers))
        <-> isSubscribed (data (body answer)) = true).
Proof.
  assert (reachable twoUsers) as Hr by reach.
  assert (In bob (users twoUsers)) as Hb by (right; left; reflexivity).
  destruct (@toggleSubscription_then_listed twoUsers (Some aliceId) bobId
              (envWith "f00000000000000000000008") alice bob
              Hr eq_refl eq_refl eq_refl eq_refl Hb eq_refl eq_refl)
    as (a & s & c & Ha & Hs & _ & Hl & _).
  exists a, s. exact (conj Ha (conj Hs Hl)).
Defined.

Lemma In_likedVideosPipeline u w i :
  In i (map LikedVideo._id (likedVideosPipeline u w)) <->
  exists l v o,
    In l (likes w) /\ LikeDoc.likedBy l = u /\ LikeDoc.video l = Some i
    /\ In v (videos w) /\ VideoDoc._id v = i
    /\ In o (users w) /\ VideoDoc.owner v = Some (UserDoc._id o).
Proof.
  unfold likedVideosPipeline, lookupUnwind.
  rewrite map_map, in_map_iff. split.
  - intros ([v o] & <- & Hin). cbn.
    apply in_flat_map in Hin as (v' & Hv' & Hin).
    apply in_map_iff in Hin as (o' & Heq & Ho). injection Heq as -> ->.
    apply filter_In in Ho as [Ho Hown]. apply refIs_true in Hown.
    apply in_map_iff in Hv' as ([l v''] & Hs & Hlv). cbn in Hs. subst v''.
    apply in_flat_map in Hlv as (l' & Hl & Hlv).
    apply in_map_iff in Hlv as (v'' & Heq & Hvid). injection Heq as -> ->.
    apply filter_In in Hvid as [Hvin Href]. apply refIs_true in Href.
    apply filter_In in Hl as [Hl Hq].
    apply andb_true_iff in Hq as [Hu _]. apply String.eqb_eq in Hu.
    exists l, v, o. repeat split; assumption.
  - intros (l & v & o & Hl & Hu & Href & Hvin & Hid & Ho & Hown).
    exists (v, o). split; [exact Hid|].
    apply in_flat_map. exists v. split.
    + apply in_map_iff. exists (l, v). split; [reflexivity|].
      apply in_flat_map. exists l. split.
      * apply filter_In. split; [assumption|].
        rewrite Href. cbn. rewrite andb_true_r. now apply String.eqb_eq.
      * apply in_map. apply filter_In. split; [assumption|].
        apply refIs_true. congruence.
    + apply in_map. apply filter_In. split; [assumption|].
      now apply refIs_true.
Qed.

Lemma getLikedVideos_run u w :
  ObjectId.isValid (Some (ObjectId.toString u)) = true ->
  exists resp,
    getLikedVideos (Some u) w = (w, inr resp)
    /\ status resp = 200
    /\ data (body resp) = likedVideosPipeline u w.
Proof.
  intros Hv. unfold getLikedVideos. rewrite Hv. cbn [negb].
  cbv [bind aggregate json ret].
  destruct (likedVideosPipeline u w) eqn:E; cbn; eexists; repeat split.
Qed.

(** X22.  Liking shows in the listing: in a world the controllers can
    produce, for a stored video whose owner's User record is stored and
    of which the caller likes no comment, after [toggleVideoLike] the
    video is among the caller's liked videos exactly when the call
    answered [isLiked = true]. *)
Theorem toggleVideoLike_then_listed w videoId u env v o :
  reachable w ->
  falsy videoId = false ->
  ObjectId.isValid videoId = true ->
  find (hasId Video (ObjectId.cast videoId)) (videos w) = Some v ->
  In o (users w) -> VideoDoc.owner v = Some (UserDoc._id o) ->
  ObjectId.isValid (Some (ObjectId.toString u)) = true ->
  existsb (hasId Like (newId env)) (likes w) = false ->
  (forall l, In l (likes w) ->
     likeOfVideo (ObjectId.cast videoId) u l = true ->
     LikeDoc.comment l = None) ->
  let toggle := toggleVideoLike videoId (Some u) env w in
  exists answer listing,
    snd toggle = inr answer
    /\ snd (getLikedVideos (Some u) (fst toggle)) = inr listing
    /\ (In (ObjectId.cast videoId) (map LikedVideo._id (data (body listing)))
        <-> isLiked (data (body answer)) = true).
Proof.
  intros Hr Hf Hv Hc Ho Hown Hu Hfresh Hplain toggle.
  pose proof (reachable_Inv Hr) as HI.
  set (vid := ObjectId.cast videoId) in *.
  set (d := LikeDoc.mk (newId env) (Some vid) None u).
  assert (forall x y, In x (likes w) -> In y (likes w) ->
            likeOfVideo vid u x = true -> likeOfVideo vid u y = true -> x = y)
    as Hone.
  { intros x y Hx Hy Hqx Hqy.
    eapply NoDup_map_injective;
      [exact (inv_like_unique HI) | exact Hx | exact Hy |].
    pose proof (Hplain x Hx Hqx) as Hcx. pose proof (Hplain y Hy Hqy) as Hcy.
    unfold likeOfVideo in *.
    apply andb_true_iff in Hqx as [Hvx Hux], Hqy as [Hvy Huy].
    apply refIs_true in Hvx, Hvy. apply String.eqb_eq in Hux, Huy.
    unfold likeKey, likeTarget. rewrite Hcx, Hcy. congruence. }
  assert (toggle = (write Like (toggled (likeOfVideo vid u) d (likes w)) w,
                    inr (likedAnswer
                           (negb (existsb (likeOfVideo vid u) (likes w)))
                           "Video unliked successfully"
                           "Video liked successfully"))) as E
    by (apply (@toggleVideoLike_run w videoId u env v); auto).
  pose proof (@toggled_flips (likes w) (likeOfVideo vid u) (inv_like_ids HI)
                Hone d (likeOfVideo_new _ _ _ _)) as Hflip.
  rewrite E. cbn [fst snd].
  set (w' := write Like (toggled (likeOfVideo vid u) d (likes w)) w).
  destruct (@getLikedVideos_run u w' Hu) as (rl & Erl & _ & Hrl).
  do 2 eexists. rewrite Erl. cbn [snd]. split; [reflexivity|].
  split; [reflexivity|]. rewrite Hrl.
  cbn [likedAnswer data body isLiked]. rewrite <- Hflip.
  change (toggled (likeOfVideo vid u) d (likes w)) with (likes w').
  pose proof (find_some _ _ Hc) as [Hvin Hvid]. apply hasId_true in Hvid.
  cbn [idOf Video] in Hvid.
  rewrite In_likedVideosPipeline. split.
  - intros (l & v' & o' & Hl & Hlu & Hlv & _).
    apply existsb_exists. exists l. split; [exact Hl|].
    unfold likeOfVideo. rewrite Hlv, Hlu. cbn. unfold ObjectId.eqb.
    now rewrite !String.eqb_refl.
  - intros Hex. apply existsb_exists in Hex as (l & Hl & Hq).
    unfold likeOfVideo in Hq. apply andb_true_iff in Hq as [Hlv Hlu].
    apply refIs_true in Hlv. apply String.eqb_eq in Hlu.
    exists l, v, o. repeat split; auto.
Qed.

Lemma toggleVideoLike_then_listed_witness :
  exists answer listing,
    snd (toggleVideoLike (Some catVideoId) (Some bobId)
           (envWith "e00000000000000000000005") commented) = inr answer
    /\ snd (getLikedVideos (Some bobId)
              (fst (toggleVideoLike (Some catVideoId) (Some bobId)
                      (envWith "e00000000000000000000005") commented)))
       = inr listing
    /\ (In catVideoId (map LikedVideo._id (data (body listing)))
        <-> isLiked (data (body answer)) = true).
Proof.
  assert (In alice (users commented)) as Ha by (left; reflexivity).
  refine (@toggleVideoLike_then_listed commented (Some catVideoId) bobId
            (envWith "e00000000000000000000005") catVideo alice
            commented_reachable eq_refl eq_refl eq_refl Ha eq_refl eq_refl
            eq_refl _).
  intros l Hl. vm_compute in Hl. destruct Hl.
Defined.

(* ================================================================== *)
(** * Views and deletion *)

Lemma incViews_id t v : VideoDoc._id (incViews t v) = VideoDoc._id v.
Proof. reflexivity. Qed.

(** What [getVideoById] writes and answers for a stored video whose
    owner is stored. *)
Lemma getVideoById_run w videoId env v o :
  Inv w ->
  falsy videoId = false ->
  ObjectId.isValid videoId = true ->
  videoWithOwner (ObjectId.cast videoId) w = Some (v, o) ->
  fst (getVideoById videoId env w)
  = write Video (updateFirst (hasId Video (ObjectId.cast videoId))
                   (incViews (now env)) (videos w)) w
  /\ videoWithOwner (ObjectId.cast videoId) (fst (getVideoById videoId env w))
     = Some (incViews (now env) v, o)
  /\ snd (getVideoById videoId env w)
     = inr {| status := 200;
              body := {| statusCode := 200;
                         data := withViews (VideoDoc.views v + 1)
                                   (detailsOf v o);
                         message := "Video fetched successfully" |} |}.
Proof.
  intros HI Hf Hv Hvo. unfold videoWithOwner in Hvo.
  destruct (find (hasId Video (ObjectId.cast videoId)) (videos w)) as [v0|]
    eqn:Efind; [|discriminate].
  destruct (VideoDoc.owner v0) as [oid|] eqn:Eown; [|discriminate].
  destruct (find (hasId User oid) (users w)) as [o0|] eqn:Eo; [|discriminate].
  injection Hvo as -> ->.
  assert (getVideoById videoId env w
          = (write Video (updateFirst (hasId Video (ObjectId.cast videoId))
                            (incViews (now env)) (videos w)) w,
             inr {| status := 200;
                    body := {| statusCode := 200;
                               data := withViews (VideoDoc.views v + 1)
                                         (detailsOf v o);
                               message := "Video fetched successfully" |} |}))
    as Hrun.
  { unfold getVideoById. rewrite Hf, Hv. cbn [negb].
    cbv [bind aggregate findByIdAndUpdate json ret throw].
    rewrite (videoByIdPipeline_joined _ HI), Efind, Eown, owner_filter.
    destruct (filter_find _ _ Eo) as (rest & ->). cbn [map docs Video].
    rewrite Efind. reflexivity. }
  rewrite Hrun. cbn [fst snd]. split; [reflexivity|]. split; [|reflexivity].
  unfold videoWithOwner. cbn [videos users write Video].
  rewrite (find_updateFirst_same Video) by apply incViews_id.
  cbn [docs Video]. rewrite Efind. cbn [option_map incViews VideoDoc.owner].
  rewrite Eown, Eo. reflexivity.
Qed.

Lemma fetchAll_counts envs : forall w videoId v o,
  Inv w ->
  falsy videoId = false ->
  ObjectId.isValid videoId = true ->
  videoWithOwner (ObjectId.cast videoId) w = Some (v, o) ->
  exists v',
    videoWithOwner (ObjectId.cast videoId) (fetchAll videoId envs w)
    = Some (v', o)
    /\ VideoDoc.views v' = (VideoDoc.views v + Z.of_nat (List.length envs))%Z
    /\ VideoDoc.title v' = VideoDoc.title v
    /\ VideoDoc.owner v' = VideoDoc.owner v
    /\ forall j, j <> ObjectId.cast videoId ->
         find (hasId Video j) (videos (fetchAll videoId envs w))
         = find (hasId Video j) (videos w).
Proof.
  induction envs as [|env rest IH]; intros w videoId v o HI Hf Hv Hvo.
  - exists v. cbn. repeat split; auto. lia.
  - destruct (@getVideoById_run w videoId env v o HI Hf Hv Hvo)
      as (Hrun & Hvo' & _).
    pose proof (getVideoById_Inv videoId env HI) as HI'.
    destruct (IH _ videoId _ o HI' Hf Hv Hvo') as (v' & H1 & H2 & H3 & H4 & H5).
    exists v'.
    change (fetchAll videoId (env :: rest) w)
      with (fetchAll videoId rest (fst (getVideoById videoId env w))).
    split; [exact H1|].
    split; [rewrite H2; cbn [incViews VideoDoc.views List.length]; lia|].
    split; [exact H3|]. split; [exact H4|].
    intros j Hj. rewrite (H5 j Hj), Hrun. cbn [videos write Video].
    apply (find_updateFirst_other Video); [apply incViews_id | auto].
Qed.

(** X23.  Every fetch counts: in a world the controllers can produce,
    for a stored video whose owner's User record is stored, any number
    of [getVideoById] requests in sequence, whoever sends them, adds
    that number to the view counter of the video, and leaves its title,
    its owner and every other video as they were. *)
Theorem getVideoById_counts_every_fetch w videoId envs v o :
  reachable w ->
  falsy videoId = false ->
  ObjectId.isValid videoId = true ->
  videoWithOwner (ObjectId.cast videoId) w = Some (v, o) ->
  exists v',
    find (hasId Video (ObjectId.cast videoId))
      (videos (fetchAll videoId envs w)) = Some v'
    /\ VideoDoc.views v' = (VideoDoc.views v + Z.of_nat (List.length envs))%Z
    /\ VideoDoc.title v' = VideoDoc.title v
    /\ VideoDoc.owner v' = VideoDoc.owner v
    /\ forall j, j <> ObjectId.cast videoId ->
         find (hasId Video j) (videos (fetchAll videoId envs w))
         = find (hasId Video j) (videos w).
Proof.
  intros Hr Hf Hv Hvo.
  destruct (@fetchAll_counts envs w videoId v o (reachable_Inv Hr) Hf Hv Hvo)
    as (v' & H1 & H2).
  exists v'. split; [|exact H2].
  unfold videoWithOwner in H1.
  destruct (find (hasId Video (ObjectId.cast videoId))
              (videos (fetchAll videoId envs w))) as [x|]; [|discriminate].
  destruct (VideoDoc.owner x); [|discriminate].
  destruct (find _ (users _)); [|discriminate].
  now injection H1 as -> _.
Qed.

Lemma getVideoById_counts_every_fetch_witness :
  exists v',
    find (hasId Video catVideoId)
      (videos (fetchAll (Some catVideoId)
                 [envWith ""; envWith ""; envWith ""] published)) = Some v'
    /\ VideoDoc.views v' = 3%Z.
Proof.
  destruct (@getVideoById_counts_every_fetch published (Some catVideoId)
              [envWith ""; envWith ""; envWith ""] catVideo alice
              published_reachable eq_refl eq_refl eq_refl)
    as (v' & Hf & Hn & _).
  exists v'. exact (conj Hf Hn).
Defined.

Lemma find_removeFirst_same {D} (C : Collection D) i l :
  NoDup (map (idOf C) l) ->
  find (hasId C i) (removeFirst (hasId C i) l) = None.
Proof.
  induction l as [|a r IH]; cbn; [reflexivity|]. intros Hnd.
  inversion Hnd as [|? ? Hnin Hnd']; subst.
  destruct (hasId C i a) eqn:E.
  - destruct (find (hasId C i) r) as [b|] eqn:Eb; [|reflexivity].
    apply find_some in Eb as [Hb Hq]. exfalso. apply Hnin.
    apply hasId_true in E, Hq. rewrite E, <- Hq. now apply in_map.
  - cbn. rewrite E. now apply IH.
Qed.

(** X24.  Deleting a video removes its assets: called by the owner of a
    stored video, in a world the controllers can produce,
    [deleteVideo] asks the media store to delete the video asset and
    then the thumbnail, each when the document has a public id for it,
    and nothing else; no temp file is touched; afterwards no video has
    the id, and fetching it is answered with 404. *)
Theorem deleteVideo_destroys_assets w videoId u v :
  reachable w ->
  falsy videoId = false ->
  ObjectId.isValid videoId = true ->
  find (hasId Video (ObjectId.cast videoId)) (videos w) = Some v ->
  VideoDoc.owner v = Some u ->
  let w' := fst (deleteVideo videoId (Some u) w) in
  media w' = media w ++ assetDeletions v
  /\ tempFiles w' = tempFiles w
  /\ find (hasId Video (ObjectId.cast videoId)) (videos w') = None
  /\ forall env,
       getVideoById videoId env w'
       = (w', inl (ApiError 404 "Video not found")).
Proof.
  intros Hr Hf Hv Hfind Hown w'.
  pose proof (reachable_Inv Hr) as HI.
  assert (w' = write Video
                 (removeFirst (hasId Video (ObjectId.cast videoId)) (videos w))
                 (write Comment
                    (filter (fun c => negb (ObjectId.eqb (CommentDoc.video c)
                                              (ObjectId.cast videoId)))
                       (comments w))
                    (write Like
                       (filter (fun l => negb (refIs (LikeDoc.video l)
                                                 (ObjectId.cast videoId)))
                          (likes w))
                       {| users := users w; videos := videos w;
                          comments := comments w; likes := likes w;
                          subscriptions := subscriptions w;
                          media := media w ++ assetDeletions v;
                          tempFiles := tempFiles w |}))) as Hrun.
  { subst w'. unfold deleteVideo. rewrite Hf, Hv. cbn [negb].
    cbv [bind findById findOne notOwnedBy deleteMany deleteOne when_
         deleteFromCloudinary uploaderDestroy json ret throw].
    cbn [docs Video]. rewrite Hfind, Hown. unfold ObjectId.toString.
    rewrite String.eqb_refl. cbn [negb]. unfold assetDeletions, truthy.
    destruct (VideoDoc.videoPublicId v) as [vp|] eqn:Evp;
      destruct (VideoDoc.thumbnailPublicId v) as [tp|] eqn:Etp;
      cbn [falsy negb orEmpty];
      try destruct (String.eqb vp "") eqn:E1;
      try destruct (String.eqb tp "") eqn:E2;
      cbn; rewrite ?E1, ?E2; cbn;
      rewrite ?(find_exists _ _ Hfind), <- ?app_assoc, ?app_nil_r; cbn;
      rewrite ?(find_exists _ _ Hfind); reflexivity. }
  assert (find (hasId Video (ObjectId.cast videoId)) (videos w') = None)
    as Hgone.
  { rewrite Hrun. cbn [videos write Video].
    apply find_removeFirst_same. exact (inv_video_ids HI). }
  rewrite Hrun at 1 2. cbn [media tempFiles write Video Comment Like].
  repeat split; auto.
  intros env. unfold getVideoById. rewrite Hf, Hv. cbn [negb].
  cbv [bind aggregate throw]. now rewrite (videoByIdPipeline_none _ _ Hgone).
Qed.

Lemma deleteVideo_destroys_assets_witness :
  media (fst (deleteVideo (Some catVideoId) (Some aliceId) commented))
  = media commented ++ [CloudDestroy "cat-video" video_resource;
                        CloudDestroy "cat-thumb" image_resource].
Proof.
  exact (proj1
    (@deleteVideo_destroys_assets commented (Some catVideoId) aliceId catVideo
       commented_reachable eq_refl eq_refl eq_refl eq_refl)).
Defined.

(* ================================================================== *)
(** * References resolve *)

Lemma found_id {D} (C : Collection D) i l d :
  find (hasId C i) l = Some d -> In i (map (idOf C) l).
Proof.
  intros [Hin Hq]%find_some. apply hasId_true in Hq. rewrite <- Hq.
  now apply in_map.
Qed.

Section Resolved.
Variables (vs : list VideoDoc.t) (cs : list CommentDoc.t)
          (ls : list LikeDoc.t).
Hypothesis H : RefsOn vs cs ls.

Lemma RefsOn_ids vs' :
  (forall i, In i (map VideoDoc._id vs) -> In i (map VideoDoc._id vs')) ->
  RefsOn vs' cs ls.
Proof. destruct H as [Hc Hl]. split; eauto. Qed.

Lemma RefsOn_same_ids vs' :
  map VideoDoc._id vs' = map VideoDoc._id vs -> RefsOn vs' cs ls.
Proof. intros E. apply RefsOn_ids. now rewrite E. Qed.

Lemma RefsOn_edited q f :
  (forall v, VideoDoc._id (f v) = VideoDoc._id v) ->
  RefsOn (updateFirst q f vs) cs ls.
Proof. intros Hf. apply RefsOn_same_ids. now apply map_updateFirst. Qed.

Lemma RefsOn_published v : RefsOn (vs ++ [v]) cs ls.
Proof.
  apply RefsOn_ids. intros i Hi. rewrite map_app. apply in_app_iff. now left.
Qed.

Lemma RefsOn_unlike q : RefsOn vs cs (removeFirst q ls).
Proof.
  destruct H as [Hc Hl]. split; [exact Hc|].
  intros l i Hin. apply Hl. eapply removeFirst_incl; eassumption.
Qed.

Lemma RefsOn_like i r c u :
  (forall j, r = Some j -> In j (map VideoDoc._id vs)) ->
  RefsOn vs cs (ls ++ [LikeDoc.mk i r c u]).
Proof.
  intros Hr. destruct H as [Hc Hl]. split; [exact Hc|].
  intros l j [Hin|[<-|[]]]%in_app_iff; [now apply Hl | exact (Hr j)].
Qed.

Lemma RefsOn_comment_added c :
  In (CommentDoc.video c) (map VideoDoc._id vs) -> RefsOn vs (cs ++ [c]) ls.
Proof.
  intros Hv. destruct H as [Hc Hl]. split; [|exact Hl].
  intros x [Hin|[<-|[]]]%in_app_iff; [now apply Hc | exact Hv].
Qed.

Lemma RefsOn_comment_edited q s :
  RefsOn vs (updateFirst q (setContent s) cs) ls.
Proof.
  destruct H as [Hc Hl]. split; [|exact Hl].
  assert (forall l x, In x (updateFirst q (setContent s) l) ->
            exists y, In y l /\ CommentDoc.video x = CommentDoc.video y) as Hu.
  { induction l as [|a r IH]; cbn; [tauto|].
    destruct (q a); cbn; intros x [<-|Hx]; eauto.
    destruct (IH x Hx) as (y & Hy & E). eauto. }
  intros x Hx. destruct (Hu cs x Hx) as (y & Hy & ->). now apply Hc.
Qed.

Lemma RefsOn_comment_deleted q p :
  RefsOn vs (removeFirst q cs) (filter p ls).
Proof.
  destruct H as [Hc Hl]. split.
  - intros c Hin. apply Hc. eapply removeFirst_incl; eassumption.
  - intros l i [Hin _]%filter_In. now apply Hl.
Qed.

Lemma RefsOn_video_deleted vid :
  RefsOn (removeFirst (hasId Video vid) vs)
    (filter (fun c => negb (ObjectId.eqb (CommentDoc.video c) vid)) cs)
    (filter (fun l => negb (refIs (LikeDoc.video l) vid)) ls).
Proof.
  destruct H as [Hc Hl].
  assert (forall i, i <> vid -> In i (map VideoDoc._id vs) ->
            In i (map VideoDoc._id (removeFirst (hasId Video vid) vs)))
    as Hkeep.
  { intros i Hne (v & <- & Hv)%in_map_iff. apply in_map.
    apply removeFirst_keeps; [assumption|].
    apply (hasId_false Video). exact Hne. }
  split.
  - intros c [Hin Hq]%filter_In. apply Hkeep; [|now apply Hc].
    apply negb_true_iff in Hq. now apply String.eqb_neq in Hq.
  - intros l i [Hin Hq]%filter_In Hv. apply Hkeep; [|now apply (Hl l)].
    rewrite Hv in Hq. apply negb_true_iff in Hq. cbn in Hq.
    now apply String.eqb_neq in Hq.
Qed.

End Resolved.

Ltac refs_leaf :=
  unfold Refs in *; simpl in *;
  first
    [ assumption
    | apply RefsOn_unlike; assumption
    | apply RefsOn_published; assumption
    | apply RefsOn_comment_edited; assumption
    | apply RefsOn_comment_deleted; assumption
    | apply RefsOn_video_deleted; assumption
    | apply RefsOn_edited; [assumption | reflexivity]
    | apply RefsOn_like; [assumption|];
      intros ? [= <-];
      first
        [ eapply (found_id Video); eassumption
        | match goal with
          | Hc : find (hasId Comment _) _ = Some ?c, HR : RefsOn _ _ _ |- _ =>
              apply (proj1 HR c); apply find_some in Hc; apply Hc
          end ]
    | apply RefsOn_comment_added; [assumption|];
      eapply (found_id Video); eassumption ].

Lemma serve_Refs r env w : Refs w -> Refs (serve r env w).
Proof.
  intros H. destruct r; cbn [serve].
  - unfold toggleVideoLike. run_handler; refs_leaf.
  - unfold toggleCommentLike. run_handler; refs_leaf.
  - unfold getLikedVideos. run_handler; refs_leaf.
  - unfold publishAVideo. run_handler; refs_leaf.
  - unfold getVideoById. run_handler; refs_leaf.
  - pose proof (updateVideo_outcome videoId title description
                  videoFileLocalPath thumbnailLocalPath user env w) as Hout.
    cbv zeta in Hout. unfold Refs.
    destruct (snd (updateVideo _ _ _ _ _ _ _ _)) as [e|resp].
    + destruct Hout as (_ & -> & -> & -> & _). exact H.
    + destruct Hout as (v & Hout).
      repeat match goal with
             | Hc : _ /\ _ |- _ => destruct Hc
             end.
      repeat match goal with
             | E : comments _ = comments w |- _ => rewrite E; clear E
             | E : likes _ = likes w |- _ => rewrite E; clear E
             end.
      apply (RefsOn_same_ids H). assumption.
  - unfold deleteVideo. run_handler; refs_leaf.
  - unfold togglePublishStatus. run_handler; refs_leaf.
  - unfold addComment. run_handler; refs_leaf.
  - unfold updateComment. run_handler; refs_leaf.
  - unfold deleteComment. run_handler; refs_leaf.
  - unfold toggleSubscription. run_handler; refs_leaf.
  - unfold getUserChannelSubscribers. run_handler; refs_leaf.
  - unfold getSubscribedChannels. run_handler; refs_leaf.
Qed.

Lemma reachable_Refs w : reachable w -> Refs w.
Proof.
  induction 1 as [|w r env Hr IH|w us Hr IH|w fs Hr IH].
  - split; cbn; intros; contradiction.
  - now apply serve_Refs.
  - exact IH.
  - exact IH.
Qed.

(** X25.  No dangling reference to a video or a comment: in every world
    the controllers can produce, every comment is a comment on a stored
    video, every Like carries the id of a stored video, and every Like
    of a comment is a Like of a stored comment. *)
Theorem references_resolve w :
  reachable w ->
  (forall c, In c (comments w) ->
     exists v, In v (videos w) /\ VideoDoc._id v = CommentDoc.video c)
  /\ (forall l, In l (likes w) ->
        exists v, In v (videos w) /\ LikeDoc.video l = Some (VideoDoc._id v))
  /\ (forall l i, In l (likes w) -> LikeDoc.comment l = Some i ->
        exists c, In c (comments w) /\ CommentDoc._id c = i).
Proof.
  intros Hr. destruct (reachable_Refs Hr) as [Hc Hl].
  pose proof (reachable_Inv Hr) as HI. repeat split.
  - intros c Hin. apply Hc in Hin.
    apply in_map_iff in Hin as (v & Hv & Hin). eauto.
  - intros l Hin. destruct (LikeDoc.video l) as [i|] eqn:E.
    + destruct (proj1 (in_map_iff _ _ _) (Hl l i Hin E)) as (v & Hv & Hvin).
      exists v. split; [assumption | congruence].
    + destruct (inv_like_video HI l Hin E).
  - intros l i Hin Hi.
    destruct (inv_comment_like HI l Hin Hi) as (c & Hcin & Hid & _). eauto.
Qed.

Lemma references_resolve_witness :
  exists v,
    In v (videos bothLiked)
    /\ VideoDoc._id v
       = CommentDoc.video (CommentDoc.mk niceCommentId "nice" catVideoId bobId).
Proof.
  apply (proj1 (@references_resolve bothLiked bothLiked_reachable)).
  vm_compute. tauto.
Defined.

(** X26.  The publish flag hides nothing: after the owner of a stored
    video, whose User record is stored, has switched the flag off with
    [togglePublishStatus], [getVideoById] still answers 200 with the
    video, now marked unpublished, to whoever asks, and counts the
    view. *)
Theorem unpublished_video_still_served w videoId u env env' v o :
  reachable w ->
  falsy videoId = false ->
  ObjectId.isValid videoId = true ->
  videoWithOwner (ObjectId.cast videoId) w = Some (v, o) ->
  VideoDoc.owner v = Some u ->
  VideoDoc.isPublished v = true ->
  let hidden := fst (togglePublishStatus videoId (Some u) env w) in
  exists resp v',
    snd (getVideoById videoId env' hidden) = inr resp
    /\ status resp = 200
    /\ VideoDetails._id (data (body resp)) = VideoDoc._id v
    /\ VideoDetails.isPublished (data (body resp)) = false
    /\ VideoDetails.views (data (body resp)) = (VideoDoc.views v + 1)%Z
    /\ find (hasId Video (ObjectId.cast videoId))
         (videos (fst (getVideoById videoId env' hidden))) = Some v'
    /\ VideoDoc.isPublished v' = false
    /\ VideoDoc.views v' = (VideoDoc.views v + 1)%Z.
Proof.
  intros Hr Hf Hv Hvo Hown Hpub hidden.
  pose proof (reachable_Inv Hr) as HI.
  assert (find (hasId Video (ObjectId.cast videoId)) (videos w) = Some v
          /\ find (hasId User u) (users w) = Some o) as [Hfind Ho].
  { unfold videoWithOwner in Hvo.
    destruct (find (hasId Video _) (videos w)) as [x|]; [|discriminate].
    destruct (VideoDoc.owner x) as [oid|] eqn:E; [|discriminate].
    destruct (find (hasId User oid) (users w)) as [y|] eqn:Ey; [|discriminate].
    injection Hvo as -> ->. split; [reflexivity|]. congruence. }
  pose proof (togglePublishStatus_Inv videoId (Some u) env HI) as HI'.
  fold hidden in HI'.
  assert (videoWithOwner (ObjectId.cast videoId) hidden
          = Some (setPublished false (now env) v, o)) as Hvo'.
  { subst hidden.
    rewrite (@togglePublishStatus_run w videoId u env v Hf Hv Hfind Hown).
    unfold videoWithOwner. cbn [fst videos users write Video].
    rewrite (find_updateFirst_same Video) by apply setPublished_id.
    cbn [docs Video]. rewrite Hfind, Hpub.
    cbn [option_map negb setPublished VideoDoc.owner]. now rewrite Hown, Ho. }
  destruct (@getVideoById_run hidden videoId env' _ o HI' Hf Hv Hvo')
    as (_ & Hafter & Hresp).
  assert (find (hasId Video (ObjectId.cast videoId))
            (videos (fst (getVideoById videoId env' hidden)))
          = Some (incViews (now env') (setPublished false (now env) v)))
    as Hfind'.
  { unfold videoWithOwner in Hafter.
    destruct (find (hasId Video (ObjectId.cast videoId))
                (videos (fst (getVideoById videoId env' hidden)))) as [x|];
      [|discriminate Hafter].
    destruct (VideoDoc.owner x) as [oid|]; [|discriminate Hafter].
    destruct (find (hasId User oid) _); cbn in Hafter;
      [|discriminate Hafter].
    inversion Hafter. reflexivity. }
  exists {| status := 200;
            body := {| statusCode := 200;
                       data := withViews
                                 (VideoDoc.views
                                    (setPublished false (now env) v) + 1)
                                 (detailsOf (setPublished false (now env) v) o);
                       message := "Video fetched successfully" |} |},
    (incViews (now env') (setPublished false (now env) v)).
  split; [exact Hresp|]. split; [reflexivity|]. split; [reflexivity|].
  split; [reflexivity|]. split; [reflexivity|]. split; [exact Hfind'|].
  split; reflexivity.
Qed.

Lemma unpublished_video_still_served_witness :
  exists resp v',
    snd (getVideoById (Some catVideoId) (envWith "")
           (fst (togglePublishStatus (Some catVideoId) (Some aliceId)
                   (envWith "") published))) = inr resp
    /\ status resp = 200
    /\ VideoDetails._id (data (body resp)) = VideoDoc._id catVideo
    /\ VideoDetails.isPublished (data (body resp)) = false
    /\ VideoDetails.views (data (body resp)) = (VideoDoc.views catVideo + 1)%Z
    /\ find (hasId Video (ObjectId.cast (Some catVideoId)))
         (videos (fst (getVideoById (Some catVideoId) (envWith "")
                         (fst (togglePublishStatus (Some catVideoId)
                                 (Some aliceId) (envWith "") published)))))
       = Some v'
    /\ VideoDoc.isPublished v' = false
    /\ VideoDoc.views v' = (VideoDoc.views catVideo + 1)%Z.
Proof.
  exact (@unpublished_video_still_served published (Some catVideoId) aliceId
           (envWith "") (envWith "") catVideo alice published_reachable
           eq_refl eq_refl eq_refl eq_refl eq_refl).
Defined.

(* ================================================================== *)
(** * Malformed ids, and other callers' documents *)

(** X27.  A malformed id never reaches the database: every request that
    addresses a document by an id that is missing or is not 24
    hexadecimal digits is answered with 400 (a subscription toggle
    without a session with 401), and the world is as it was, the media
    store and the temp directory included. *)
Theorem malformed_id_is_rejected r env w i :
  addressed r = Some i ->
  ObjectId.isValid i = false ->
  serve r env w = w
  /\ exists code msg,
       raised r env w = Some (ApiError code msg)
       /\ (code = 400
           \/ code = 401 /\ exists c, r = ToggleSubscription c None).
Proof.
  intros Ha Hv.
  destruct r; cbn in Ha; try discriminate; injection Ha as ->;
    cbn [serve raised]; unfold failure.
  - unfold toggleVideoLike. rewrite Hv.
    destruct (falsy i); cbn; eauto 6.
  - unfold toggleCommentLike. rewrite Hv.
    destruct (falsy i); cbn; eauto 6.
  - unfold getVideoById. rewrite Hv.
    destruct (falsy i); cbn; eauto 6.
  - unfold updateVideo. rewrite Hv.
    destruct (falsy i); cbn; eauto 6.
  - unfold deleteVideo. rewrite Hv.
    destruct (falsy i); cbn; eauto 6.
  - unfold togglePublishStatus. rewrite Hv.
    destruct (falsy i); cbn; eauto 6.
  - unfold addComment. rewrite Hv.
    destruct (blank content), (falsy i); cbn; eauto 6.
  - unfold updateComment. rewrite Hv.
    destruct (blank content), (falsy i); cbn; eauto 6.
  - unfold deleteComment. rewrite Hv.
    destruct (falsy i); cbn; eauto 6.
  - unfold toggleSubscription. rewrite Hv.
    destruct user; cbn; eauto 8.
  - unfold getUserChannelSubscribers. rewrite Hv, orb_true_r. cbn. eauto 6.
  - unfold getSubscribedChannels. rewrite Hv, orb_true_r. cbn. eauto 6.
Qed.

Lemma malformed_id_is_rejected_witness :
  serve (DeleteVideo (Some "not-an-id") (Some aliceId)) (envWith "") published
  = published.
Proof.
  exact (proj1
    (@malformed_id_is_rejected
       (DeleteVideo (Some "not-an-id") (Some aliceId)) (envWith "") published
       (Some "not-an-id") eq_refl eq_refl)).
Defined.

(** With unique ids, deleting the document found by a filter removes
    no document the filter rejects. *)
Lemma removed_found {D} (C : Collection D) (q : D -> bool) l d x :
  NoDup (map (idOf C) l) ->
  find q l = Some d ->
  q x = false ->
  In x (removeFirst (hasId C (idOf C d)) l) <-> In x l.
Proof.
  intros Hnd Hfind Hq. pose proof (find_some _ _ Hfind) as [Hd Hqd].
  rewrite (@removeFirst_by_id D C l d x Hnd Hd). split; [tauto|].
  intros Hx. split; [assumption|]. congruence.
Qed.

Lemma In_snoc_other {D} (l : list D) d x : x <> d -> In x (l ++ [d]) <-> In x l.
Proof.
  intros Hne. rewrite in_app_iff. cbn. split; [|tauto].
  intros [H|[H|[]]]; [assumption | congruence].
Qed.

(** X28.  A toggle touches only the caller's documents: in every world
    the controllers can produce, whatever the request and its outcome,
    [toggleVideoLike] and [toggleCommentLike] neither add nor remove a
    Like of another liker, and [toggleSubscription] neither adds nor
    removes a Subscription of another subscriber. *)
Theorem toggles_touch_only_the_callers_documents w i u env :
  reachable w ->
  (forall l, LikeDoc.likedBy l <> u ->
     (In l (likes (fst (toggleVideoLike i (Some u) env w))) <-> In l (likes w))
     /\ (In l (likes (fst (toggleCommentLike i (Some u) env w)))
         <-> In l (likes w)))
  /\ (forall s, SubscriptionDoc.subscriber s <> u ->
        (In s (subscriptions (fst (toggleSubscription i (Some u) env w)))
         <-> In s (subscriptions w))).
Proof.
  intros Hr. pose proof (reachable_Inv Hr) as HI.
  pose proof (inv_like_ids HI) as Hl.
  pose proof (inv_subscription_ids HI) as Hs.
  assert (forall x y, x <> y -> ObjectId.eqb x y = false) as Hneq
    by (intros x y; apply String.eqb_neq).
  split; [intros l Hne; split | intros s Hne].
  - unfold toggleVideoLike. run_handler; try tauto.
    + eapply (@removed_found _ Like); [exact Hl | eassumption |]. cbn.
      rewrite (Hneq _ _ Hne). apply andb_false_r.
    + apply In_snoc_other. intros ->. now apply Hne.
  - unfold toggleCommentLike. run_handler; try tauto.
    + eapply (@removed_found _ Like); [exact Hl | eassumption |]. cbn.
      rewrite (Hneq _ _ Hne). apply andb_false_r.
    + apply In_snoc_other. intros ->. now apply Hne.
  - unfold toggleSubscription. run_handler; try tauto.
    + eapply (@removed_found _ Subscription); [exact Hs | eassumption |]. cbn.
      now rewrite (Hneq _ _ Hne).
    + apply In_snoc_other. intros ->. now apply Hne.
Qed.

Lemma toggles_touch_only_the_callers_documents_witness :
  In (LikeDoc.mk "e00000000000000000000006" (Some catVideoId)
        (Some niceCommentId) bobId)
     (likes (fst (toggleVideoLike (Some catVideoId) (Some aliceId)
                    (envWith "e00000000000000000000007") bothLiked)))
  <-> In (LikeDoc.mk "e00000000000000000000006" (Some catVideoId)
            (Some niceCommentId) bobId)
         (likes bothLiked).
Proof.
  assert (bobId <> aliceId) as Hne by discriminate.
  exact (proj1 (proj1
    (@toggles_touch_only_the_callers_documents bothLiked (Some catVideoId)
       aliceId (envWith "e00000000000000000000007") bothLiked_reachable)
    (LikeDoc.mk "e00000000000000000000006" (Some catVideoId)
       (Some niceCommentId) bobId) Hne)).
Defined.
